(** * Publish-reconcile workflow of [automated_publishing.py]

    A shallow embedding of the publishing script: the portal SDK, the clock
    and the console are an external world the script talks to; the script's
    own functions are programs of a small monad that threads the world,
    propagates Python exceptions and records every interaction in a trace.

    The publish-reconcile workflow comes first, with existence queries that
    always answer; [Outage] then embeds the functions that query the portal
    with queries that may raise, and relates the two embeddings.  The
    discovery, the selection and the preview of the same script, the user
    report of [user_management.py] and the health check of
    [service_health_check.py] follow. *)

From Stdlib Require Import QArith Lqa Lia.
From stdpp Require Import base option list strings pretty gmap.

Open Scope string_scope.
Open Scope list_scope.

(** ** Data *)

(** A portal item (a shapefile, or a published feature service). *)
Record Item := mkItem {
  id : string;
  title : string;
  url : string;
  owner : string
}.

(** Python dictionaries with string keys and string values. *)
Abbreviation dict := (gmap string string).

(** The double-quote character, as a string. *)
Definition dquote : string := String (Ascii.ascii_of_nat 34) EmptyString.

(** [d.get(key, default)] *)
Definition dict_get (d : dict) (key default : string) : string :=
  match d !! key with
  | Some v => v
  | None => default
  end.

(** The payload of [update_definition]. *)
Record Definition_ := mkDefinition {
  capabilities : string;
  maxRecordCount : Z;
  allowGeometryUpdates : bool
}.

(** The [CONFIG] dictionary.  [CONFIG["arcgis"]] is indexed directly, the
    keys ["metadata"] and ["default_share_level"] are read with [.get] and a
    default, so they may be absent. *)
Record Config := mkConfig {
  log_file : string;
  arcgis : dict;
  metadata : option dict;
  default_share_level : option string
}.

Definition CONFIG : Config := {|
  log_file := "logs_reports/arcgis_publish_log.txt";
  arcgis := {[ "shapefile" := ".shp"; "service_name" := "" ]};
  metadata := Some {[ "description" := "Service published using configuration settings.";
                      "tags" := "configured,arcgis,service";
                      "categories" := "Example" ]};
  default_share_level := Some "org"
|}.

(** What an SDK call answers: it returns, or it raises an exception (kept
    as its message). *)
Inductive reply (A : Type) : Type :=
| Returned (a : A)
| Raised (e : string).
Arguments Returned {A} a.
Arguments Raised {A} e.

Inductive Level := INFO | ERROR.

(** A value returned by one of the script's functions. *)
Inductive Value :=
| VBool (b : bool)
| VItem (fs : option Item).

(** One step of the run, with the answer the world gave. *)
Inductive Event :=
| ESearch (query item_type : string) (max_items : nat) (results : list Item)
| EDelete (item : Item) (r : reply unit)
| EPublish (item : Item) (name : string) (r : reply (option Item))
| EUpdate (item : Item) (props : dict) (r : reply unit)
| EUpdateDefinition (service_url : string) (defn : Definition_) (r : reply unit)
| EShare (item : Item) (everyone org : bool) (r : reply unit)
| ETime (t : Q)
| ESleep (secs : Q)
| EPrint (msg : string)
| ELog (lvl : Level) (msg : string)
| ECall (f : string)
| EReturn (f : string) (v : Value).

Definition Trace := list Event.

(** The outcome of one request.  The script has no result object: the
    outcome is the exit the loop body takes. [Published fs]: [fs] is appended
    to [published_services]; [SkippedTimeout]: [continue] after the timeout
    message; [Failed]: [continue] after the could-not-delete message;
    [SkippedConflict]: the final [else] branch. *)
Inductive Outcome :=
| Published (fs : Item)
| SkippedConflict
| SkippedTimeout
| Failed.

(** ** The world *)

(** The portal session [gis], the clock and [os.path.splitext], over a
    world state [W].  [search] always answers with a list; the calls the
    script guards with [try] may raise. *)
Record Portal (W : Type) := mkPortal {
  username : string;
  search : string -> string -> nat -> W -> list Item * W;
  delete : Item -> W -> reply unit * W;
  publish : Item -> string -> W -> reply (option Item) * W;
  update : Item -> dict -> W -> reply unit * W;
  update_definition : string -> Definition_ -> W -> reply unit * W;
  share : Item -> bool -> bool -> W -> reply unit * W;
  time : W -> Q * W;
  sleep : Q -> W -> W;
  splitext_root : string -> string
}.
Arguments username {W}.
Arguments search {W}.
Arguments delete {W}.
Arguments publish {W}.
Arguments update {W}.
Arguments update_definition {W}.
Arguments share {W}.
Arguments time {W}.
Arguments sleep {W}.
Arguments splitext_root {W}.

(** ** The monad *)

Inductive res (A : Type) : Type :=
| Ok (a : A)
| Raise (e : string)
| OutOfFuel.
Arguments Ok {A} a.
Arguments Raise {A} e.
Arguments OutOfFuel {A}.

Definition M (W A : Type) : Type := W -> res A * W * Trace.

Definition ret {W A} (a : A) : M W A := fun w => (Ok a, w, []).

Definition bind {W A B} (m : M W A) (k : A -> M W B) : M W B :=
  fun w =>
    match m w with
    | (Ok a, w1, t1) => let '(r, w2, t2) := k a w1 in (r, w2, t1 ++ t2)
    | (Raise e, w1, t1) => (Raise e, w1, t1)
    | (OutOfFuel, w1, t1) => (OutOfFuel, w1, t1)
    end.

(** [try: m  except Exception as e: h e] *)
Definition try_except {W A} (m : M W A) (h : string -> M W A) : M W A :=
  fun w =>
    match m w with
    | (Raise e, w1, t1) => let '(r, w2, t2) := h e w1 in (r, w2, t1 ++ t2)
    | other => other
    end.

Definition raise {W A} (e : string) : M W A := fun w => (Raise e, w, []).
Definition out_of_fuel {W A} : M W A := fun w => (OutOfFuel, w, []).
Definition emit {W} (e : Event) : M W unit := fun w => (Ok tt, w, [e]).

Notation "x <- m ;; k" := (bind m (fun x => k))
  (at level 62, m at next level, right associativity).
Notation "m ;;; k" := (bind m (fun _ => k))
  (at level 62, right associativity).

Definition of_reply {A} (r : reply A) : res A :=
  match r with
  | Returned a => Ok a
  | Raised e => Raise e
  end.

Definition print {W} (msg : string) : M W unit := emit (EPrint msg).
Definition logging_info {W} (msg : string) : M W unit := emit (ELog INFO msg).
Definition logging_error {W} (msg : string) : M W unit := emit (ELog ERROR msg).
Arguments print {W} msg%_string.
Arguments logging_info {W} msg%_string.
Arguments logging_error {W} msg%_string.
Arguments raise {W A} e%_string.

(** Entering and leaving one of the script's own functions. *)
Definition call {W A} (f : string) (repr : A -> Value) (body : M W A) : M W A :=
  emit (ECall f);;; r <- body;; emit (EReturn f (repr r));;; ret r.

Section Script.
Context {W : Type} (P : Portal W).

(** *** SDK calls *)

Definition gis_content_search (query item_type : string) (max_items : nat)
  : M W (list Item) :=
  fun w => let '(l, w') := search P query item_type max_items w in
           (Ok l, w', [ESearch query item_type max_items l]).

Definition item_delete (item : Item) : M W unit :=
  fun w => let '(r, w') := delete P item w in (of_reply r, w', [EDelete item r]).

Definition item_publish (item : Item) (name : string) : M W (option Item) :=
  fun w => let '(r, w') := publish P item name w in
           (of_reply r, w', [EPublish item name r]).

Definition item_update (item : Item) (props : dict) : M W unit :=
  fun w => let '(r, w') := update P item props w in
           (of_reply r, w', [EUpdate item props r]).

Definition manager_update_definition (service_url : string) (d : Definition_)
  : M W unit :=
  fun w => let '(r, w') := update_definition P service_url d w in
           (of_reply r, w', [EUpdateDefinition service_url d r]).

Definition item_share (item : Item) (everyone org : bool) : M W unit :=
  fun w => let '(r, w') := share P item everyone org w in
           (of_reply r, w', [EShare item everyone org r]).

Definition time_time : M W Q :=
  fun w => let '(t, w') := time P w in (Ok t, w', [ETime t]).

Definition time_sleep (secs : Q) : M W unit :=
  fun w => (Ok tt, sleep P secs w, [ESleep secs]).

(** [f'title:"{service_name}" AND owner:{gis.users.me.username}'] *)
Definition service_query (service_name : string) : string :=
  ("title:" ++ dquote ++ service_name ++ dquote ++ " AND owner:" ++ username P)%string.

(** *** The script's functions *)

(** The [for item in search_results] loop of [delete_existing_service]:
    the [except] branch returns [False] out of the function. *)
Fixpoint delete_each (search_results : list Item) : M W bool :=
  match search_results with
  | [] => ret true
  | item :: rest =>
      deleted <- try_except
        (item_delete item;;;
         print ("🗑️ Deleted existing service: " ++ title item);;;
         logging_info ("Deleted existing service: " ++ title item);;;
         ret true)
        (fun e =>
         print ("❌ Error deleting service " ++ title item ++ ": " ++ e);;;
         logging_error ("Error deleting service " ++ title item ++ ": " ++ e);;;
         ret false);;
      if deleted then delete_each rest else ret false
  end.

Definition delete_existing_service (service_name : string) : M W bool :=
  call "delete_existing_service" VBool
    (let query := service_query service_name in
     search_results <- gis_content_search query "Feature Service" 10;;
     match search_results with
     | _ :: _ => delete_each search_results
     | [] => ret true
     end).

(** The [while] loop of [wait_for_service_deletion]; [fuel] bounds the
    number of times its condition is evaluated. *)
Fixpoint wait_loop (fuel : nat) (service_name : string) (timeout start_time : Q)
    (query : string) : M W bool :=
  match fuel with
  | O => out_of_fuel
  | S fuel' =>
      now <- time_time;;
      if Qlt_le_dec (now - start_time) timeout then
        search_results <- gis_content_search query "Feature Service" 1;;
        match search_results with
        | [] => ret true
        | _ :: _ =>
            print ("Waiting for service '" ++ service_name ++ "' to be fully deleted...");;;
            time_sleep 5;;;
            wait_loop fuel' service_name timeout start_time query
        end
      else ret false
  end.

Definition wait_for_service_deletion (fuel : nat) (service_name : string)
    (timeout : Q) : M W bool :=
  call "wait_for_service_deletion" VBool
    (start_time <- time_time;;
     let query := service_query service_name in
     wait_loop fuel service_name timeout start_time query).

(** The default of the [timeout] parameter. *)
Definition default_timeout : Q := 180.

Definition get_user_metadata (cfg : Config) : dict :=
  match metadata cfg with
  | Some m => m
  | None => {[ "description" := ""; "tags" := ""; "categories" := "" ]}
  end.

Definition publish_feature_service (item : Item) (service_name : string)
    (metadata : dict) : M W (option Item) :=
  call "publish_feature_service" VItem
    (try_except
       (logging_info ("Attempting to publish item: " ++ title item);;;
        print ("✅ Uploading " ++ title item ++ "...");;;
        published_item <- item_publish item service_name;;
        match published_item with
        | None => raise "Publishing returned None"
        | Some published_item =>
            print ("✅ Published Feature Service: " ++ title published_item);;;
            logging_info ("Published Feature Service: " ++ title published_item);;;
            item_update published_item
              {[ "tags" := dict_get metadata "tags" "";
                 "description" := dict_get metadata "description" "";
                 "categories" := dict_get metadata "categories" "" ]};;;
            print ("✅ Updated metadata for " ++ title published_item);;;
            logging_info ("Updated metadata for " ++ title published_item);;;
            ret (Some published_item)
        end)
       (fun e =>
        logging_error ("Failed to publish service: " ++ e);;;
        print ("❌ Failed to publish service: " ++ e);;;
        ret None)).

(** *** The publish loop *)

Definition service_definition : Definition_ := {|
  capabilities := "Query, Editing, Extract";
  maxRecordCount := 5000;
  allowGeometryUpdates := true
|}.

(** Lines 216-249: what the loop body does with [fs] once the publish
    attempts are over. *)
Definition configure_and_share (cfg : Config) (service_name : string)
    (fs : option Item) : M W Outcome :=
  match fs with
  | Some fs =>
      try_except
        (manager_update_definition (url fs) service_definition;;;
         print ("✅ Service properties updated for " ++ title fs);;;
         logging_info ("Service properties updated for " ++ title fs))
        (fun e =>
         print ("❌ Failed to update service properties: " ++ e);;;
         logging_error ("Failed to update service properties for " ++ title fs ++ ": " ++ e));;;
      let share_level :=
        match default_share_level cfg with Some l => l | None => "org" end in
      try_except
        ((if String.eqb share_level "public" then item_share fs true false
          else if String.eqb share_level "org" then item_share fs false true
          else item_share fs false false);;;
         print ("✅ Permissions set to " ++ share_level ++ " for " ++ title fs);;;
         logging_info ("Permissions set to " ++ share_level ++ " for " ++ title fs))
        (fun e =>
         print ("❌ Failed to set permissions: " ++ e);;;
         logging_error ("Failed to set permissions for " ++ title fs ++ ": " ++ e));;;
      ret (Published fs)
  | None =>
      print ("❌ Failed to publish " ++ service_name);;;
      ret SkippedConflict
  end.

(** Lines 201-249: publish, the conflict branch, then the configuration. *)
Definition publish_and_configure (fuel : nat) (cfg : Config) (itm : Item)
    (service_name : string) (metadata : dict) : M W Outcome :=
  fs <- publish_feature_service itm service_name metadata;;
  match fs with
  | None =>
      print ("⚠️ Conflict detected for '" ++ service_name ++ "'. Attempting to delete and republish...");;;
      deleted <- delete_existing_service service_name;;
      if deleted then
        gone <- wait_for_service_deletion fuel service_name default_timeout;;
        if gone then
          fs <- publish_feature_service itm service_name metadata;;
          configure_and_share cfg service_name fs
        else
          print ("❌ Timeout waiting for deletion of '" ++ service_name ++ "'. Skipping this item.");;;
          ret SkippedTimeout
      else
        print ("❌ Could not delete existing service '" ++ service_name ++ "'. Skipping this item.");;;
        ret Failed
  | Some _ => configure_and_share cfg service_name fs
  end.

(** The body of [for itm in selected_items] (lines 178-249); each
    [continue] ends the body with the outcome it stands for. *)
Definition process_item (fuel : nat) (cfg : Config) (single_publish : bool)
    (itm : Item) : M W Outcome :=
  let service_name :=
    if single_publish
    then dict_get (arcgis cfg) "service_name" (splitext_root P (title itm))
    else splitext_root P (title itm) in
  let metadata := if single_publish then get_user_metadata cfg else ∅ in
  existing <- gis_content_search (service_query service_name) "Feature Service" 1;;
  match existing with
  | _ :: _ =>
      print ("⚠️ Service '" ++ service_name ++ "' already exists. Deleting it automatically...");;;
      deleted <- delete_existing_service service_name;;
      if deleted then
        gone <- wait_for_service_deletion fuel service_name default_timeout;;
        if gone then publish_and_configure fuel cfg itm service_name metadata
        else
          print ("❌ Timeout waiting for deletion of '" ++ service_name ++ "'. Skipping this item.");;;
          ret SkippedTimeout
      else
        print ("❌ Could not delete existing service '" ++ service_name ++ "'. Skipping this item.");;;
        ret Failed
  | [] => publish_and_configure fuel cfg itm service_name metadata
  end.

(** [for itm in selected_items]: an exception that escapes the body ends
    the loop. *)
Fixpoint for_each {A B} (l : list A) (body : A -> M W B) : M W (list B) :=
  match l with
  | [] => ret []
  | x :: rest => o <- body x;; os <- for_each rest body;; ret (o :: os)
  end.

Definition publish_loop (fuel : nat) (cfg : Config) (selected_items : list Item)
    : M W (list Outcome) :=
  let single_publish := Nat.eqb (length selected_items) 1 in
  for_each selected_items (process_item fuel cfg single_publish).

(** [published_services] after the loop. *)
Definition published_services (outcomes : list Outcome) : list Item :=
  omap (fun o => match o with Published fs => Some fs | _ => None end) outcomes.

End Script.

(** ** Classifying events *)

Definition is_search (e : Event) : bool :=
  match e with ESearch _ _ _ _ => true | _ => false end.
Definition is_delete (e : Event) : bool :=
  match e with EDelete _ _ => true | _ => false end.
Definition is_publish (e : Event) : bool :=
  match e with EPublish _ _ _ => true | _ => false end.
Definition is_update (e : Event) : bool :=
  match e with EUpdate _ _ _ => true | _ => false end.

(** Console and log output: the only events that are not a call to the
    SDK, to the clock or to one of the script's functions. *)
Definition is_output (e : Event) : bool :=
  match e with EPrint _ | ELog _ _ => true | _ => false end.

(** A call the script makes to the portal. *)
Definition is_sdk_call (e : Event) : bool :=
  match e with
  | ESearch _ _ _ _ | EDelete _ _ | EPublish _ _ _ | EUpdate _ _ _
  | EUpdateDefinition _ _ _ | EShare _ _ _ _ => true
  | _ => false
  end.

Definition is_failed_delete (e : Event) : bool :=
  match e with EDelete _ (Raised _) => true | _ => false end.

(** A publish call that gave no service: it raised, or returned [None]. *)
Definition publish_failed (r : reply (option Item)) : bool :=
  match r with Returned (Some _) => false | _ => true end.

Definition is_call_of (f : string) (e : Event) : bool :=
  match e with ECall g => String.eqb f g | _ => false end.

Definition is_return_of (f : string) (v : Value) (e : Event) : bool :=
  match e, v with
  | EReturn g (VBool b), VBool b' => String.eqb f g && Bool.eqb b b'
  | _, _ => false
  end.

(** [wait_for_service_deletion] returning [False]: the timeout elapsed. *)
Definition is_poll_timeout : Event -> bool :=
  is_return_of "wait_for_service_deletion" (VBool false).

(** ** Messages *)

Module Msg.
Definition deleted (item : Item) : string :=
  "Deleted existing service: " ++ title item.
Definition delete_error (item : Item) (e : string) : string :=
  "Error deleting service " ++ title item ++ ": " ++ e.
Definition waiting (service_name : string) : string :=
  "Waiting for service '" ++ service_name ++ "' to be fully deleted...".
Definition exists_ (service_name : string) : string :=
  "⚠️ Service '" ++ service_name ++ "' already exists. Deleting it automatically...".
Definition conflict (service_name : string) : string :=
  "⚠️ Conflict detected for '" ++ service_name ++ "'. Attempting to delete and republish...".
Definition timeout (service_name : string) : string :=
  "❌ Timeout waiting for deletion of '" ++ service_name ++ "'. Skipping this item.".
Definition could_not_delete (service_name : string) : string :=
  "❌ Could not delete existing service '" ++ service_name ++ "'. Skipping this item.".
Definition failed_to_publish (service_name : string) : string :=
  "❌ Failed to publish " ++ service_name.
End Msg.

(** ** The traces a run can leave *)

Section Traces.
Context {W : Type} (P : Portal W).

(** The loop over the matches: deletions in order, up to the first one
    that raises. *)
Inductive deletions : list Item -> bool -> Trace -> Prop :=
| deletions_done : deletions [] true []
| deletions_next item rest b tr :
    deletions rest b tr ->
    deletions (item :: rest) b
      (EDelete item (Returned tt)
         :: EPrint ("🗑️ " ++ Msg.deleted item)
         :: ELog INFO (Msg.deleted item) :: tr)
| deletions_raised item rest e :
    deletions (item :: rest) false
      [EDelete item (Raised e);
       EPrint ("❌ " ++ Msg.delete_error item e);
       ELog ERROR (Msg.delete_error item e)].

Inductive delete_call (service_name : string) : bool -> Trace -> Prop :=
| delete_call_intro search_results b tr :
    deletions search_results b tr ->
    delete_call service_name b
      (ECall "delete_existing_service"
         :: ESearch (service_query P service_name) "Feature Service" 10 search_results
         :: tr ++ [EReturn "delete_existing_service" (VBool b)]).

(** The polling loop, from its first clock reading on. *)
Inductive poll (service_name : string) (timeout start_time : Q)
  : res bool -> Trace -> Prop :=
| poll_out_of_fuel : poll service_name timeout start_time OutOfFuel []
| poll_timeout now :
    (timeout <= now - start_time)%Q ->
    poll service_name timeout start_time (Ok false) [ETime now]
| poll_gone now :
    (now - start_time < timeout)%Q ->
    poll service_name timeout start_time (Ok true)
      [ETime now; ESearch (service_query P service_name) "Feature Service" 1 []]
| poll_again now x xs r tr :
    (now - start_time < timeout)%Q ->
    poll service_name timeout start_time r tr ->
    poll service_name timeout start_time r
      (ETime now
         :: ESearch (service_query P service_name) "Feature Service" 1 (x :: xs)
         :: EPrint (Msg.waiting service_name)
         :: ESleep 5 :: tr).

Inductive wait_call (service_name : string) (timeout : Q)
  : res bool -> Trace -> Prop :=
| wait_call_returns start_time b tr :
    poll service_name timeout start_time (Ok b) tr ->
    wait_call service_name timeout (Ok b)
      (ECall "wait_for_service_deletion" :: ETime start_time
         :: tr ++ [EReturn "wait_for_service_deletion" (VBool b)])
| wait_call_out_of_fuel start_time tr :
    poll service_name timeout start_time OutOfFuel tr ->
    wait_call service_name timeout OutOfFuel
      (ECall "wait_for_service_deletion" :: ETime start_time :: tr).

Lemma delete_each_deletions (search_results : list Item) (w : W) :
  exists b w' tr,
    delete_each P search_results w = (Ok b, w', tr) /\
    deletions search_results b tr.
Proof.
  revert w. induction search_results as [|item rest IH]; intros w.
  - exists true, w, []. split; [reflexivity | constructor].
  - cbn. unfold bind, try_except, item_delete.
    destruct (delete P item w) as [[[]|e] w1] eqn:Hd; cbn.
    + destruct (IH w1) as (b & w' & tr & Hrun & Htr). rewrite Hrun.
      eexists _, _, _. split; [reflexivity|]. now constructor.
    + eexists _, _, _. split; [reflexivity|]. constructor.
Qed.

Lemma delete_existing_service_call (service_name : string) (w : W) :
  exists b w' tr,
    delete_existing_service P service_name w = (Ok b, w', tr) /\
    delete_call service_name b tr.
Proof.
  unfold delete_existing_service, call, bind, gis_content_search, emit. cbn.
  destruct (search P _ _ _ w) as [rs w1] eqn:Hs.
  destruct rs as [|x xs].
  - cbn. eexists _, _, _. split; [reflexivity|].
    apply (delete_call_intro _ [] true []). constructor.
  - destruct (delete_each_deletions (x :: xs) w1) as (b & w' & tr & Hrun & Htr).
    rewrite Hrun. cbn.
    eexists _, _, _. split; [reflexivity|]. now constructor.
Qed.

Lemma wait_loop_poll (service_name : string) (timeout start_time : Q)
    (fuel : nat) (w : W) :
  exists r w' tr,
    wait_loop P fuel service_name timeout start_time
      (service_query P service_name) w = (r, w', tr) /\
    poll service_name timeout start_time r tr /\
    (forall e, r <> Raise e).
Proof.
  revert w. induction fuel as [|fuel IH]; intros w.
  - exists OutOfFuel, w, []. repeat split; [constructor | discriminate].
  - cbn. unfold bind, time_time, gis_content_search, time_sleep, print, emit.
    destruct (time P w) as [now w1].
    destruct (Qlt_le_dec (now - start_time) timeout) as [Hlt|Hge].
    + destruct (search P _ _ _ w1) as [[|x xs] w2]; cbn.
      * eexists _, _, _. repeat split; [now constructor | discriminate].
      * destruct (IH (sleep P 5 w2)) as (r & w' & tr & Hrun & Htr & Hr).
        rewrite Hrun. destruct r as [b|e|]; cbn.
        -- eexists _, _, _. repeat split; [now constructor | discriminate].
        -- now destruct (Hr e).
        -- eexists _, _, _. repeat split; [now constructor | discriminate].
    + cbn. eexists _, _, _. repeat split; [now constructor | discriminate].
Qed.

Lemma wait_for_service_deletion_call (fuel : nat) (service_name : string)
    (timeout : Q) (w : W) :
  exists r w' tr,
    wait_for_service_deletion P fuel service_name timeout w = (r, w', tr) /\
    wait_call service_name timeout r tr.
Proof.
  unfold wait_for_service_deletion, call, bind, emit, time_time. cbn.
  destruct (time P w) as [start_time w1].
  destruct (wait_loop_poll service_name timeout start_time fuel w1)
    as (r & w' & tr & Hrun & Htr & Hr).
  rewrite Hrun. destruct r as [b|e|]; cbn.
  - eexists _, _, _. split; [reflexivity|]. now constructor.
  - now destruct (Hr e).
  - eexists _, _, _. split; [reflexivity|]. now constructor.
Qed.

End Traces.

(** ** The clock *)

(** What the clock shows in a state of the world. *)
Definition clock {W} (P : Portal W) (w : W) : Q := fst (time P w).

(** Time does not run backwards, and [time.sleep] suspends the script for
    at least the seconds asked for. *)
Record ClockOK {W} (P : Portal W) : Prop := {
  clock_after_time : forall w, (clock P w <= clock P (snd (time P w)))%Q;
  clock_after_search : forall q ty n w,
    (clock P w <= clock P (snd (search P q ty n w)))%Q;
  clock_after_sleep : forall secs w,
    (clock P w + secs <= clock P (sleep P secs w))%Q
}.

(** With a 5 second pause after every unsuccessful poll, 180 seconds are
    over after 36 polls: the loop condition is evaluated at most 37 times. *)
Definition polling_fuel : nat := 37.

Section Termination.
Context {W : Type} (P : Portal W) (HP : ClockOK P).

Lemma wait_loop_S (service_name query : string) (timeout start_time : Q)
    (fuel : nat) :
  wait_loop P (S fuel) service_name timeout start_time query =
  (now <- time_time P;;
   if Qlt_le_dec (now - start_time) timeout then
     search_results <- gis_content_search P query "Feature Service" 1;;
     match search_results with
     | [] => ret true
     | _ :: _ =>
         print ("Waiting for service '" ++ service_name ++ "' to be fully deleted...");;;
         time_sleep P 5;;;
         wait_loop P fuel service_name timeout start_time query
     end
   else ret false).
Proof. reflexivity. Qed.

Lemma wait_loop_returns (service_name query : string) (timeout start_time : Q)
    (n : nat) (w : W) :
  (timeout - (clock P w - start_time) <= 5 * inject_Z (Z.of_nat n))%Q ->
  exists b w' tr,
    wait_loop P (S n) service_name timeout start_time query w = (Ok b, w', tr).
Proof.
  revert w. induction n as [|n IH]; intros w Hinv.
  - cbn. unfold bind, time_time. unfold clock in Hinv.
    destruct (time P w) as [now w1]. cbn [fst] in Hinv.
    change (inject_Z (Z.of_nat 0)) with 0%Q in Hinv.
    destruct (Qlt_le_dec (now - start_time) timeout) as [Hlt|Hge].
    + exfalso. lra.
    + cbn. eauto.
  - rewrite wait_loop_S. unfold bind at 1. unfold time_time at 1.
    pose proof (clock_after_time P HP w) as Ht. unfold clock in Ht, Hinv.
    destruct (time P w) as [now w1]. cbn [fst snd] in Ht, Hinv.
    destruct (Qlt_le_dec (now - start_time) timeout) as [Hlt|Hge]; [|cbn; eauto].
    unfold bind at 1. unfold gis_content_search at 1.
    pose proof (clock_after_search P HP query "Feature Service" 1%nat w1) as Hs.
    unfold clock in Hs.
    destruct (search P query "Feature Service" 1 w1) as [[|x xs] w2]; [cbn; eauto|].
    cbn [fst snd] in Hs.
    pose proof (clock_after_sleep P HP 5 w2) as Hz. unfold clock in Hz.
    destruct (IH (sleep P 5 w2)) as (b & w' & tr & Hrun).
    { unfold clock. rewrite Nat2Z.inj_succ, <- Z.add_1_r, inject_Z_plus in Hinv.
      change (inject_Z 1) with 1%Q in Hinv. lra. }
    unfold bind, print, emit, time_sleep. cbn - [wait_loop]. rewrite Hrun.
    cbn. eauto.
Qed.

Lemma wait_for_service_deletion_returns (fuel : nat) (service_name : string)
    (w : W) :
  (polling_fuel <= fuel)%nat ->
  exists b w' tr,
    wait_for_service_deletion P fuel service_name default_timeout w
      = (Ok b, w', tr) /\
    wait_call P service_name default_timeout (Ok b) tr.
Proof.
  intros Hfuel.
  destruct (wait_for_service_deletion_call P fuel service_name default_timeout w)
    as (r & w' & tr & Hrun & Htr).
  enough (exists b, r = Ok b) as [b ->] by eauto.
  revert Hrun. unfold wait_for_service_deletion, call, bind, emit, time_time. cbn.
  pose proof (clock_after_time P HP w) as Ht. unfold clock in Ht.
  destruct (time P w) as [start_time w1] eqn:Hw. cbn [fst snd] in Ht.
  destruct fuel as [|n]; [unfold polling_fuel in Hfuel; lia|].
  destruct (wait_loop_returns service_name (service_query P service_name)
              default_timeout start_time n w1) as (b & w2 & tr2 & Hloop).
  { unfold default_timeout, polling_fuel in *.
    assert (36 <= Z.of_nat n)%Z as Hn by lia.
    rewrite Zle_Qle in Hn. change (inject_Z 36) with 36%Q in Hn.
    unfold clock. lra. }
  rewrite Hloop. cbn. intros [= <- _ _]. eauto.
Qed.

End Termination.

(** ** The traces of one request *)

Section Requests.
Context {W : Type} (P : Portal W).

(** The service name and the metadata the loop body works with. *)
Definition request_name (cfg : Config) (single_publish : bool) (itm : Item)
  : string :=
  if single_publish
  then dict_get (arcgis cfg) "service_name" (splitext_root P (title itm))
  else splitext_root P (title itm).

Definition request_metadata (cfg : Config) (single_publish : bool) : dict :=
  if single_publish then get_user_metadata cfg else ∅.

(** The dictionary [publish_feature_service] passes to [update]. *)
Definition update_payload (metadata : dict) : dict :=
  {[ "tags" := dict_get metadata "tags" "";
     "description" := dict_get metadata "description" "";
     "categories" := dict_get metadata "categories" "" ]}.

(** The [except] branch of [publish_feature_service]. *)
Definition publish_except (e : string) : Trace :=
  [ELog ERROR ("Failed to publish service: " ++ e);
   EPrint ("❌ Failed to publish service: " ++ e);
   EReturn "publish_feature_service" (VItem None)].

(** One call of [publish_feature_service], given what [publish] and (if
    it is reached) [update] answer. *)
Definition publish_trace (itm : Item) (service_name : string) (metadata : dict)
    (rp : reply (option Item)) (ru : reply unit) : Trace :=
  ECall "publish_feature_service"
    :: ELog INFO ("Attempting to publish item: " ++ title itm)
    :: EPrint ("✅ Uploading " ++ title itm ++ "...")
    :: EPublish itm service_name rp
    :: match rp with
       | Raised e => publish_except e
       | Returned None => publish_except "Publishing returned None"
       | Returned (Some published_item) =>
           EPrint ("✅ Published Feature Service: " ++ title published_item)
             :: ELog INFO ("Published Feature Service: " ++ title published_item)
             :: EUpdate published_item (update_payload metadata) ru
             :: match ru with
                | Returned _ =>
                    [EPrint ("✅ Updated metadata for " ++ title published_item);
                     ELog INFO ("Updated metadata for " ++ title published_item);
                     EReturn "publish_feature_service" (VItem (Some published_item))]
                | Raised e => publish_except e
                end
       end.

Definition publish_value (rp : reply (option Item)) (ru : reply unit)
  : option Item :=
  match rp, ru with
  | Returned (Some published_item), Returned _ => Some published_item
  | _, _ => None
  end.

Definition share_level (cfg : Config) : string :=
  match default_share_level cfg with Some l => l | None => "org" end.

(** Lines 216-249, given what [update_definition] and [share] answer. *)
Definition configure_trace (cfg : Config) (service_name : string)
    (fs : option Item) (rd rs : reply unit) : Trace :=
  match fs with
  | None => [EPrint (Msg.failed_to_publish service_name)]
  | Some fs =>
      EUpdateDefinition (url fs) service_definition rd
        :: match rd with
           | Returned _ =>
               [EPrint ("✅ Service properties updated for " ++ title fs);
                ELog INFO ("Service properties updated for " ++ title fs)]
           | Raised e =>
               [EPrint ("❌ Failed to update service properties: " ++ e);
                ELog ERROR ("Failed to update service properties for "
                            ++ title fs ++ ": " ++ e)]
           end
        ++ EShare fs (String.eqb (share_level cfg) "public")
             (negb (String.eqb (share_level cfg) "public")
              && String.eqb (share_level cfg) "org") rs
        :: match rs with
           | Returned _ =>
               [EPrint ("✅ Permissions set to " ++ share_level cfg ++ " for " ++ title fs);
                ELog INFO ("Permissions set to " ++ share_level cfg ++ " for " ++ title fs)]
           | Raised e =>
               [EPrint ("❌ Failed to set permissions: " ++ e);
                ELog ERROR ("Failed to set permissions for " ++ title fs ++ ": " ++ e)]
           end
  end.

Definition configure_outcome (fs : option Item) : Outcome :=
  match fs with
  | Some fs => Published fs
  | None => SkippedConflict
  end.

(** How a delete-and-wait step ends. *)
Inductive step := Proceed | Stop (o : Outcome) | Diverge.

Definition step_result (s : step) (r : res Outcome) : res Outcome :=
  match s with
  | Proceed => r
  | Stop o => Ok o
  | Diverge => OutOfFuel
  end.

(** Delete the matches, then wait until they are gone. *)
Inductive reconcile (service_name : string) : step -> Trace -> Prop :=
| reconcile_failed dtr :
    delete_call P service_name false dtr ->
    reconcile service_name (Stop Failed)
      (dtr ++ [EPrint (Msg.could_not_delete service_name)])
| reconcile_timeout dtr wtr :
    delete_call P service_name true dtr ->
    wait_call P service_name default_timeout (Ok false) wtr ->
    reconcile service_name (Stop SkippedTimeout)
      (dtr ++ wtr ++ [EPrint (Msg.timeout service_name)])
| reconcile_gone dtr wtr :
    delete_call P service_name true dtr ->
    wait_call P service_name default_timeout (Ok true) wtr ->
    reconcile service_name Proceed (dtr ++ wtr)
| reconcile_diverge dtr wtr :
    delete_call P service_name true dtr ->
    wait_call P service_name default_timeout OutOfFuel wtr ->
    reconcile service_name Diverge (dtr ++ wtr).

(** Lines 201-249: the first publish attempt, and the retry after a
    conflict. *)
Inductive attempt (cfg : Config) (itm : Item) (service_name : string)
    (metadata : dict) : res Outcome -> Trace -> Prop :=
| attempt_published rp ru fs rd rs :
    publish_value rp ru = Some fs ->
    attempt cfg itm service_name metadata (Ok (Published fs))
      (publish_trace itm service_name metadata rp ru
         ++ configure_trace cfg service_name (Some fs) rd rs)
| attempt_stopped rp ru s rtr :
    publish_value rp ru = None ->
    reconcile service_name s rtr ->
    s <> Proceed ->
    attempt cfg itm service_name metadata (step_result s OutOfFuel)
      (publish_trace itm service_name metadata rp ru
         ++ EPrint (Msg.conflict service_name) :: rtr)
| attempt_retried rp ru rtr rp' ru' rd rs :
    publish_value rp ru = None ->
    reconcile service_name Proceed rtr ->
    attempt cfg itm service_name metadata
      (Ok (configure_outcome (publish_value rp' ru')))
      (publish_trace itm service_name metadata rp ru
         ++ EPrint (Msg.conflict service_name) :: rtr
         ++ publish_trace itm service_name metadata rp' ru'
         ++ configure_trace cfg service_name (publish_value rp' ru') rd rs).

(** The whole loop body. *)
Inductive request (cfg : Config) (itm : Item) (service_name : string)
    (metadata : dict) : res Outcome -> Trace -> Prop :=
| request_fresh r atr :
    attempt cfg itm service_name metadata r atr ->
    request cfg itm service_name metadata r
      (ESearch (service_query P service_name) "Feature Service" 1 [] :: atr)
| request_stopped x xs s rtr :
    reconcile service_name s rtr ->
    s <> Proceed ->
    request cfg itm service_name metadata (step_result s OutOfFuel)
      (ESearch (service_query P service_name) "Feature Service" 1 (x :: xs)
         :: EPrint (Msg.exists_ service_name) :: rtr)
| request_replaced x xs rtr r atr :
    reconcile service_name Proceed rtr ->
    attempt cfg itm service_name metadata r atr ->
    request cfg itm service_name metadata r
      (ESearch (service_query P service_name) "Feature Service" 1 (x :: xs)
         :: EPrint (Msg.exists_ service_name) :: rtr ++ atr).

(** *** The script leaves these traces *)

Lemma publish_feature_service_trace (itm : Item) (service_name : string)
    (metadata : dict) (w : W) :
  exists rp ru w',
    publish_feature_service P itm service_name metadata w
    = (Ok (publish_value rp ru), w', publish_trace itm service_name metadata rp ru).
Proof.
  unfold publish_feature_service, call, try_except, bind, emit, print,
    logging_info, logging_error, item_publish, item_update, raise. cbn.
  destruct (publish P itm service_name w) as [[[pi|]|e] w1] eqn:Hp; cbn.
  - destruct (update P pi _ w1) as [[[]|e] w2] eqn:Hu; cbn.
    + exists (Returned (Some pi)), (Returned tt), w2. reflexivity.
    + exists (Returned (Some pi)), (Raised e), w2. reflexivity.
  - exists (Returned None), (Returned tt), w1. reflexivity.
  - exists (Raised e), (Returned tt), w1. reflexivity.
Qed.

Lemma share_by_level (cfg : Config) (fs : Item) (w : W) :
  exists rs w',
    (if String.eqb (share_level cfg) "public" then item_share P fs true false
     else if String.eqb (share_level cfg) "org" then item_share P fs false true
     else item_share P fs false false) w
    = (of_reply rs, w',
       [EShare fs (String.eqb (share_level cfg) "public")
          (negb (String.eqb (share_level cfg) "public")
           && String.eqb (share_level cfg) "org") rs]).
Proof.
  unfold item_share.
  destruct (String.eqb (share_level cfg) "public");
    [|destruct (String.eqb (share_level cfg) "org")]; cbn.
  - destruct (share P fs true false w) as [rs w']. now exists rs, w'.
  - destruct (share P fs false true w) as [rs w']. now exists rs, w'.
  - destruct (share P fs false false w) as [rs w']. now exists rs, w'.
Qed.

Lemma configure_and_share_trace (cfg : Config) (service_name : string)
    (fs : option Item) (w : W) :
  exists rd rs w',
    configure_and_share P cfg service_name fs w
    = (Ok (configure_outcome fs), w', configure_trace cfg service_name fs rd rs).
Proof.
  destruct fs as [fs|]; [|exists (Returned tt), (Returned tt), w; reflexivity].
  destruct (update_definition P (url fs) service_definition w) as [rd w1] eqn:Hd.
  destruct (share_by_level cfg fs w1) as (rs & w' & Hs).
  exists rd, rs, w'.
  unfold configure_and_share. fold (share_level cfg).
  unfold try_except, bind, manager_update_definition, print, logging_info,
    logging_error, emit.
  rewrite Hd.
  destruct rd as [[]|ed]; cbn -[item_share share_level String.eqb];
    rewrite Hs; destruct rs as [[]|es]; reflexivity.
Qed.

(** Every deletion-confirmation poll comes back. *)
Definition polls_return (fuel : nat) : Prop :=
  forall service_name w, exists b w' tr,
    wait_for_service_deletion P fuel service_name default_timeout w
    = (Ok b, w', tr).

(** The delete-and-wait step as it stands at both of its places in the
    loop body, followed by [k]. *)
Definition reconcile_then (fuel : nat) (service_name : string)
    (k : M W Outcome) : M W Outcome :=
  deleted <- delete_existing_service P service_name;;
  if deleted then
    gone <- wait_for_service_deletion P fuel service_name default_timeout;;
    if gone then k
    else
      print ("❌ Timeout waiting for deletion of '" ++ service_name ++ "'. Skipping this item.");;;
      ret SkippedTimeout
  else
    print ("❌ Could not delete existing service '" ++ service_name ++ "'. Skipping this item.");;;
    ret Failed.

Lemma reconcile_then_trace (fuel : nat) (service_name : string)
    (k : M W Outcome) (w : W) :
  exists s w1 rtr,
    reconcile service_name s rtr /\
    (polls_return fuel -> s <> Diverge) /\
    reconcile_then fuel service_name k w
    = match s with
      | Proceed => let '(r, w2, t2) := k w1 in (r, w2, rtr ++ t2)
      | Stop o => (Ok o, w1, rtr)
      | Diverge => (OutOfFuel, w1, rtr)
      end.
Proof.
  destruct (delete_existing_service_call P service_name w)
    as (deleted & w1 & dtr & Hd & Hdtr).
  unfold reconcile_then. unfold bind at 1. rewrite Hd.
  destruct deleted.
  - destruct (wait_for_service_deletion_call P fuel service_name default_timeout w1)
      as (r & w2 & wtr & Hw & Hwtr).
    unfold bind at 1. rewrite Hw. destruct r as [[]|e|].
    + exists Proceed, w2, (dtr ++ wtr). repeat split.
      * now constructor.
      * discriminate.
      * destruct (k w2) as [[r w3] t3]. now rewrite app_assoc.
    + exists (Stop SkippedTimeout), w2, (dtr ++ wtr ++ [EPrint (Msg.timeout service_name)]).
      repeat split; [now constructor | discriminate].
    + inversion Hwtr.
    + exists Diverge, w2, (dtr ++ wtr). repeat split.
      * now constructor.
      * intros Hret _. destruct (Hret service_name w1) as (b & w' & tr & Hb). congruence.
  - exists (Stop Failed), w1, (dtr ++ [EPrint (Msg.could_not_delete service_name)]).
    repeat split; [now constructor | discriminate].
Qed.

Lemma publish_and_configure_attempt (fuel : nat) (cfg : Config) (itm : Item)
    (service_name : string) (metadata : dict) (w : W) :
  exists r w' tr,
    publish_and_configure P fuel cfg itm service_name metadata w = (r, w', tr) /\
    attempt cfg itm service_name metadata r tr /\
    (polls_return fuel -> exists o, r = Ok o).
Proof.
  destruct (publish_feature_service_trace itm service_name metadata w)
    as (rp & ru & w1 & Hp).
  unfold publish_and_configure. unfold bind at 1. rewrite Hp.
  destruct (publish_value rp ru) as [fs|] eqn:Hv.
  - destruct (configure_and_share_trace cfg service_name (Some fs) w1)
      as (rd & rs & w2 & Hc).
    rewrite Hc. eexists _, _, _. split; [reflexivity|]. split; [|eauto].
    now apply attempt_published.
  - change (bind (print _) _) with
      (print ("⚠️ Conflict detected for '" ++ service_name
              ++ "'. Attempting to delete and republish...");;;
       reconcile_then fuel service_name
         (fs <- publish_feature_service P itm service_name metadata;;
          configure_and_share P cfg service_name fs)).
    unfold bind at 1. unfold print at 1, emit at 1.
    destruct (reconcile_then_trace fuel service_name
                (fs <- publish_feature_service P itm service_name metadata;;
                 configure_and_share P cfg service_name fs) w1)
      as (s & w2 & rtr & Hr & Hdiv & Heq).
    rewrite Heq. destruct s as [|o|].
    + destruct (publish_feature_service_trace itm service_name metadata w2)
        as (rp' & ru' & w3 & Hp').
      unfold bind at 1. rewrite Hp'.
      destruct (configure_and_share_trace cfg service_name (publish_value rp' ru') w3)
        as (rd & rs & w4 & Hc).
      rewrite Hc. eexists _, _, _. split; [reflexivity|]. split; [|eauto].
      cbn [app]. now apply attempt_retried.
    + eexists _, _, _. split; [reflexivity|]. split; [|eauto].
      cbn [app]. now apply (attempt_stopped _ _ _ _ rp ru (Stop o)).
    + eexists _, _, _. split; [reflexivity|]. split.
      * cbn [app]. now apply (attempt_stopped _ _ _ _ rp ru Diverge).
      * intros Hret. now destruct (Hdiv Hret).
Qed.

Lemma process_item_request (fuel : nat) (cfg : Config) (single_publish : bool)
    (itm : Item) (w : W) :
  exists r w' tr,
    process_item P fuel cfg single_publish itm w = (r, w', tr) /\
    request cfg itm (request_name cfg single_publish itm)
      (request_metadata cfg single_publish) r tr /\
    (polls_return fuel -> exists o, r = Ok o).
Proof.
  unfold process_item.
  fold (request_name cfg single_publish itm).
  fold (request_metadata cfg single_publish).
  set (service_name := request_name cfg single_publish itm).
  set (metadata := request_metadata cfg single_publish).
  unfold bind at 1. unfold gis_content_search at 1.
  destruct (search P (service_query P service_name) "Feature Service" 1 w)
    as [[|x xs] w1].
  - destruct (publish_and_configure_attempt fuel cfg itm service_name metadata w1)
      as (r & w2 & tr & Ha & Htr & Hr).
    rewrite Ha. eexists _, _, _. split; [reflexivity|]. split; [|exact Hr].
    now constructor.
  - change (bind (print _) _) with
      (print ("⚠️ Service '" ++ service_name
              ++ "' already exists. Deleting it automatically...");;;
       reconcile_then fuel service_name
         (publish_and_configure P fuel cfg itm service_name metadata)).
    unfold bind at 1. unfold print at 1, emit at 1.
    destruct (reconcile_then_trace fuel service_name
                (publish_and_configure P fuel cfg itm service_name metadata) w1)
      as (s & w2 & rtr & Hrt & Hdiv & Heq).
    rewrite Heq. destruct s as [|o|].
    + destruct (publish_and_configure_attempt fuel cfg itm service_name metadata w2)
        as (r & w3 & tr & Ha & Htr & Hr).
      rewrite Ha. eexists _, _, _. split; [reflexivity|]. split; [|exact Hr].
      cbn [app]. now apply request_replaced.
    + eexists _, _, _. split; [reflexivity|]. split; [|eauto].
      cbn [app]. now apply (request_stopped _ _ _ _ x xs (Stop o)).
    + eexists _, _, _. split; [reflexivity|]. split.
      * cbn [app]. now apply (request_stopped _ _ _ _ x xs Diverge).
      * intros Hret. now destruct (Hdiv Hret).
Qed.

Lemma bind_trace_prefix {A B} (m : M W A) (k : A -> M W B) (w : W) :
  exists rest, snd (bind m k w) = snd (m w) ++ rest.
Proof.
  unfold bind. destruct (m w) as [[[a|e|] w1] t1]; cbn.
  - destruct (k a w1) as [[r w2] t2]. now exists t2.
  - exists []. now rewrite app_nil_r.
  - exists []. now rewrite app_nil_r.
Qed.

(** The loop body begins with the existence query. *)
Lemma process_item_first_event (fuel : nat) (cfg : Config) (single_publish : bool)
    (itm : Item) (w : W) :
  exists rest,
    snd (process_item P fuel cfg single_publish itm w)
    = ESearch (service_query P (request_name cfg single_publish itm))
        "Feature Service" 1
        (fst (search P (service_query P (request_name cfg single_publish itm))
                "Feature Service" 1 w))
        :: rest.
Proof.
  unfold process_item. fold (request_name cfg single_publish itm).
  match goal with |- context [bind ?m ?k w] =>
    destruct (bind_trace_prefix m k w) as [rest ->] end.
  exists rest. unfold gis_content_search.
  now destruct (search P _ _ _ w) as [rs w1].
Qed.

End Requests.

(** ** A scripted portal *)

(** A portal that answers from a script, as a test double does: each kind
    of call takes its next answer from a list, and a default once the list
    is used up.  The clock moves only while the script sleeps. *)
Module Mock.

Record World := mkWorld {
  now : Q;
  searches : list (list Item);
  search_default : list Item;
  deletes : list (reply unit);
  publishes : list (reply (option Item));
  publish_default : reply (option Item);
  updates : list (reply unit);
  definitions : list (reply unit);
  shares : list (reply unit)
}.

Definition next {A} (default : A) (l : list A) : A * list A :=
  match l with
  | [] => (default, [])
  | x :: rest => (x, rest)
  end.

Fixpoint has_dot (s : string) : bool :=
  match s with
  | EmptyString => false
  | String c rest => Ascii.eqb c (Ascii.ascii_of_nat 46) || has_dot rest
  end.

(** The root of a plain file name: everything before its last dot. *)
Fixpoint root (s : string) : string :=
  match s with
  | EmptyString => EmptyString
  | String c rest =>
      if has_dot rest then String c (root rest)
      else if Ascii.eqb c (Ascii.ascii_of_nat 46) then EmptyString
      else s
  end.

(** Leading dots are not an extension. *)
Fixpoint file_root (s : string) : string :=
  match s with
  | String c rest =>
      if Ascii.eqb c (Ascii.ascii_of_nat 46) then String c (file_root rest) else root s
  | EmptyString => EmptyString
  end.

Fixpoint has_slash (s : string) : bool :=
  match s with
  | EmptyString => false
  | String c rest => Ascii.eqb c (Ascii.ascii_of_nat 47) || has_slash rest
  end.

(** [os.path.splitext(path)[0]]: the extension is looked for in the last
    component of the path. *)
Fixpoint path_root (s : string) : string :=
  match s with
  | EmptyString => EmptyString
  | String c rest =>
      if has_slash rest then String c (path_root rest)
      else if Ascii.eqb c (Ascii.ascii_of_nat 47) then String c (file_root rest)
      else file_root s
  end.

Definition portal : Portal World := {|
  username := "gis_admin";
  search := fun _ _ max_items w =>
    let '(r, rest) := next (search_default w) (searches w) in
    (take max_items r,
     mkWorld (now w) rest (search_default w) (deletes w) (publishes w)
       (publish_default w) (updates w) (definitions w) (shares w));
  delete := fun _ w =>
    let '(r, rest) := next (Returned tt) (deletes w) in
    (r, mkWorld (now w) (searches w) (search_default w) rest (publishes w)
          (publish_default w) (updates w) (definitions w) (shares w));
  publish := fun _ _ w =>
    let '(r, rest) := next (publish_default w) (publishes w) in
    (r, mkWorld (now w) (searches w) (search_default w) (deletes w) rest
          (publish_default w) (updates w) (definitions w) (shares w));
  update := fun _ _ w =>
    let '(r, rest) := next (Returned tt) (updates w) in
    (r, mkWorld (now w) (searches w) (search_default w) (deletes w) (publishes w)
          (publish_default w) rest (definitions w) (shares w));
  update_definition := fun _ _ w =>
    let '(r, rest) := next (Returned tt) (definitions w) in
    (r, mkWorld (now w) (searches w) (search_default w) (deletes w) (publishes w)
          (publish_default w) (updates w) rest (shares w));
  share := fun _ _ _ w =>
    let '(r, rest) := next (Returned tt) (shares w) in
    (r, mkWorld (now w) (searches w) (search_default w) (deletes w) (publishes w)
          (publish_default w) (updates w) (definitions w) rest);
  time := fun w => (now w, w);
  sleep := fun secs w =>
    mkWorld (now w + secs) (searches w) (search_default w) (deletes w)
      (publishes w) (publish_default w) (updates w) (definitions w) (shares w);
  splitext_root := path_root
|}.

(** The uploaded shapefile and the service published from it. *)
Definition shp : Item :=
  mkItem "a1b2" "Parcels2024.shp" "https://gis.czu.cz/portal/home/item.html?id=a1b2" "gis_admin".
Definition svc : Item :=
  mkItem "c3d4" "Parcels2024"
    "https://gis.czu.cz/server/rest/services/Hosted/Parcels2024/FeatureServer" "gis_admin".
Definition stale : Item :=
  mkItem "e5f6" "Parcels2024"
    "https://gis.czu.cz/server/rest/services/Hosted/Parcels2024/FeatureServer" "gis_admin".

(** A portal on which every call succeeds: [searches] are the answers of
    the first existence queries, later ones find nothing. *)
Definition fresh (searches : list (list Item)) : World :=
  mkWorld 0 searches [] [] [] (Returned (Some svc)) [] [] [].


End Mock.

(** ** Facts about lists of events *)

Section Splits.
Context {A : Type} (p : A -> bool).

(** No element of the list satisfies [p]. *)
Definition none (l : list A) : Prop := Forall (fun x => p x = false) l.

Lemma none_nil : none [].
Proof. constructor. Qed.

Lemma none_cons x l : p x = false -> none l -> none (x :: l).
Proof. now constructor. Qed.

Lemma none_app l1 l2 : none l1 -> none l2 -> none (l1 ++ l2).
Proof. intros H1 H2. apply Forall_app. now split. Qed.

Lemma none_app_inv l1 l2 : none (l1 ++ l2) -> none l1 /\ none l2.
Proof. intros H. now apply Forall_app in H. Qed.

Lemma none_filter l : none l -> filter (fun x => p x = true) l = [].
Proof.
  induction 1 as [|x l Hx _ IH]; [reflexivity|].
  rewrite filter_cons. destruct (decide (p x = true)); [congruence | exact IH].
Qed.

(** A list without [p] cannot be split at a [p]. *)
Lemma none_no_split l pre x post :
  none l -> l = pre ++ x :: post -> p x = true -> False.
Proof.
  intros Hl -> Hx. apply none_app_inv in Hl as [_ Hl].
  inversion Hl; congruence.
Qed.


(** The only [p] of a list is where it is. *)
Lemma only_split_unique l1 y l2 pre x post :
  none l1 -> none l2 ->
  l1 ++ y :: l2 = pre ++ x :: post -> p x = true ->
  pre = l1 /\ x = y /\ post = l2.
Proof.
  intros Hl1 Hl2. revert pre. induction l1 as [|a l1 IH]; intros pre Heq Hx.
  - destruct pre as [|b pre]; cbn in Heq.
    + now inversion Heq.
    + inversion Heq; subst. exfalso.
      eapply (none_no_split (pre ++ x :: post)); eauto.
  - inversion Hl1 as [|? ? Ha Hl1']; subst.
    destruct pre as [|b pre]; cbn in Heq.
    + inversion Heq; subst. congruence.
    + inversion Heq; subst.
      destruct (IH Hl1' pre) as (-> & -> & ->); auto.
Qed.

End Splits.

Arguments none {A} p l.

(** A run that stops right after its first [p]: the run splits at a [p]
    only when [stopped] holds, and then what follows the [p] is [suffix]. *)
Definition stops_at {A} (p : A -> bool) (suffix : A -> list A) (stopped : bool)
    (l : list A) : Prop :=
  if stopped
  then exists body y, l = body ++ y :: suffix y /\ p y = true /\
                      none p body /\ none p (suffix y)
  else none p l.

Lemma stops_at_prefix {A} (p : A -> bool) suffix stopped (l1 l2 : list A) :
  none p l1 -> stops_at p suffix stopped l2 -> stops_at p suffix stopped (l1 ++ l2).
Proof.
  intros H1. destruct stopped; cbn.
  - intros (body & y & -> & Hy & Hbody & Hsfx).
    exists (l1 ++ body), y. rewrite app_assoc. repeat split; auto using none_app.
  - now apply none_app.
Qed.

Lemma stops_at_cons {A} (p : A -> bool) suffix stopped (x : A) (l : list A) :
  p x = false -> stops_at p suffix stopped l -> stops_at p suffix stopped (x :: l).
Proof.
  intros Hx H. apply (stops_at_prefix p suffix stopped [x] l); [|exact H].
  now repeat constructor.
Qed.

Lemma stops_at_split {A} (p : A -> bool) suffix stopped (l pre post : list A) x :
  stops_at p suffix stopped l -> l = pre ++ x :: post -> p x = true ->
  stopped = true /\ post = suffix x /\ none p pre.
Proof.
  destruct stopped; cbn.
  - intros (body & y & -> & Hy & Hbody & Hsfx) Heq Hx.
    destruct (only_split_unique p body y (suffix y) pre x post) as (-> & -> & ->); auto.
  - intros Hl Heq Hx. destruct (none_no_split p l pre x post Hl Heq Hx).
Qed.

(** ** The events of each function *)

Definition delete_call_event (e : Event) : bool :=
  match e with
  | ECall f => String.eqb f "delete_existing_service"
  | ESearch _ _ n _ => Nat.eqb n 10
  | EDelete _ _ | EPrint _ | ELog _ _ => true
  | EReturn f (VBool _) => String.eqb f "delete_existing_service"
  | _ => false
  end.

Definition poll_event (e : Event) : bool :=
  match e with
  | ESearch _ _ n _ => Nat.eqb n 1
  | ETime _ | ESleep _ | EPrint _ => true
  | _ => false
  end.

Definition wait_call_event (r : res bool) (e : Event) : bool :=
  match e with
  | ECall f => String.eqb f "wait_for_service_deletion"
  | EReturn f (VBool b) =>
      String.eqb f "wait_for_service_deletion"
      && match r with Ok b' => Bool.eqb b b' | _ => false end
  | _ => poll_event e
  end.

Section Alphabets.
Context {W : Type} (P : Portal W).

Lemma deletions_events rs b tr :
  deletions rs b tr -> Forall (fun e => delete_call_event e = true) tr.
Proof. induction 1; repeat constructor; assumption. Qed.

Lemma delete_call_events name b tr :
  delete_call P name b tr -> Forall (fun e => delete_call_event e = true) tr.
Proof.
  intros [rs b' dtr Hd]. repeat constructor.
  apply Forall_app. split; [now apply deletions_events with rs b'|].
  repeat constructor.
Qed.

Lemma poll_events name timeout start r tr :
  poll P name timeout start r tr -> Forall (fun e => poll_event e = true) tr.
Proof. induction 1; repeat constructor; assumption. Qed.

Lemma wait_call_events name timeout r tr :
  wait_call P name timeout r tr -> Forall (fun e => wait_call_event r e = true) tr.
Proof.
  intros [start b ptr Hp | start ptr Hp]; repeat constructor.
  - apply Forall_app. split.
    + eapply Forall_impl; [exact (poll_events _ _ _ _ _ Hp)|].
      intros [] He; cbn in *; congruence.
    + repeat constructor. cbn. now destruct b.
  - eapply Forall_impl; [exact (poll_events _ _ _ _ _ Hp)|].
    intros [] He; cbn in *; congruence.
Qed.

End Alphabets.

(** [p] holds of no event of an alphabet. *)
Ltac outside_alphabet :=
  let e := fresh "e" in
  let He := fresh "He" in
  intros e He; destruct e; cbn in He |- *;
  repeat match goal with
         | v : Value |- _ => destruct v
         | b : bool |- _ => destruct b
         | r : res bool |- _ => destruct r
         | r : reply _ |- _ => destruct r
         end; cbn in He |- *;
  try reflexivity; try discriminate;
  repeat match goal with
         | H : (_ && _)%bool = true |- _ => apply andb_true_iff in H as [? ?]
         | H : String.eqb _ _ = true |- _ => apply String.eqb_eq in H; subst
         | H : Nat.eqb _ _ = true |- _ => apply Nat.eqb_eq in H; subst
         end;
  try reflexivity; try discriminate.

(** Both sides are the same list, up to the bracketing of [++]. *)
Ltac same_list :=
  repeat (progress (cbn [app]; rewrite <- ?app_assoc)); reflexivity.

(** Unfolds the traces that depend on replies, case by case. *)
Ltac by_replies :=
  unfold publish_trace, publish_except, configure_trace, configure_outcome,
    publish_value in *;
  repeat match goal with
         | |- context [match ?x with _ => _ end] => is_var x; destruct x
         | H : context [match ?x with _ => _ end] |- _ => is_var x; destruct x
         end;
  cbn [app] in *; try discriminate.

(** No event of the trace satisfies the predicate. *)
Ltac none_auto :=
  repeat match goal with
         | |- none _ [] => apply none_nil
         | |- none _ (_ :: _) => apply none_cons; [reflexivity|]
         | |- none _ (_ ++ _) => apply none_app
         | H : delete_call _ _ _ ?t |- none _ ?t =>
             solve [apply (Forall_impl _ _ _ (delete_call_events _ _ _ _ H));
                    outside_alphabet; try congruence]
         | H : wait_call _ _ _ _ ?t |- none _ ?t =>
             solve [apply (Forall_impl _ _ _ (wait_call_events _ _ _ _ _ H));
                    outside_alphabet; try congruence]
         | H : deletions _ _ ?t |- none _ ?t =>
             solve [apply (Forall_impl _ _ _ (deletions_events _ _ _ H));
                    outside_alphabet; try congruence]
         | H : poll _ _ _ _ _ ?t |- none _ ?t =>
             solve [apply (Forall_impl _ _ _ (poll_events _ _ _ _ _ _ H));
                    outside_alphabet; try congruence]
         | H : none ?p ?t |- none ?p ?t => exact H
         | |- none _ (publish_trace _ _ _ _ _) => by_replies
         | |- none _ (configure_trace _ _ _ _ _) => by_replies
         | |- none _ (match ?x with _ => _ end) => destruct x
         | |- none _ (publish_except _) => unfold publish_except
         end.

(** ** Runs that return *)

Section Returns.
Context {W : Type} (P : Portal W) (HP : ClockOK P).
Context (fuel : nat) (Hfuel : (polling_fuel <= fuel)%nat).

Lemma polls_return_of_clock : polls_return P fuel.
Proof.
  intros name w.
  destruct (wait_for_service_deletion_returns P HP fuel name w Hfuel)
    as (b & w' & tr & Hrun & _).
  eauto.
Qed.

Lemma process_item_returns (cfg : Config) (single_publish : bool) (itm : Item)
    (w : W) :
  exists o w' tr,
    process_item P fuel cfg single_publish itm w = (Ok o, w', tr) /\
    request P cfg itm (request_name P cfg single_publish itm)
      (request_metadata cfg single_publish) (Ok o) tr.
Proof.
  destruct (process_item_request P fuel cfg single_publish itm w)
    as (r & w' & tr & Hrun & Hreq & Hret).
  destruct (Hret polls_return_of_clock) as [o ->]. eauto.
Qed.

End Returns.

(** ** The claims *)

(** *** C9: nothing to delete is a success *)

(** C9.  When the search of [delete_existing_service] finds no match, the
    function returns [True] and its only call to the portal is that search:
    no delete is invoked. *)
Theorem delete_existing_service_no_match {W} (P : Portal W)
    (service_name : string) (w : W) :
  fst (search P (service_query P service_name) "Feature Service" 10 w) = [] ->
  exists w' tr,
    delete_existing_service P service_name w = (Ok true, w', tr) /\
    tr = [ECall "delete_existing_service";
          ESearch (service_query P service_name) "Feature Service" 10 [];
          EReturn "delete_existing_service" (VBool true)] /\
    none is_delete tr.
Proof.
  intros Hs.
  unfold delete_existing_service, call, bind, gis_content_search, emit. cbn.
  destruct (search P _ _ _ w) as [rs w1]. cbn in Hs. subst rs. cbn.
  eexists _, _. split; [reflexivity|]. split; [reflexivity|].
  repeat constructor.
Qed.

Lemma delete_existing_service_no_match_witness :
  exists w' tr,
    delete_existing_service Mock.portal "Parcels2024" (Mock.fresh []) = (Ok true, w', tr) /\
    tr = [ECall "delete_existing_service";
          ESearch (service_query Mock.portal "Parcels2024") "Feature Service" 10 [];
          EReturn "delete_existing_service" (VBool true)] /\
    none is_delete tr.
Proof.
  apply (delete_existing_service_no_match Mock.portal "Parcels2024" (Mock.fresh [])).
  reflexivity.
Defined.

(** *** C2: no delete before the first publish *)

(** C2.  When the initial existence query finds no service of the desired
    name and owner, the run goes on to a publish attempt, and nothing before
    that first attempt is a delete. *)
Theorem no_delete_before_first_publish {W} (P : Portal W) (fuel : nat)
    (cfg : Config) (single_publish : bool) (itm : Item) (w : W) :
  fst (search P (service_query P (request_name P cfg single_publish itm))
         "Feature Service" 1 w) = [] ->
  exists pre rp post,
    snd (process_item P fuel cfg single_publish itm w)
    = pre ++ EPublish itm (request_name P cfg single_publish itm) rp :: post /\
    none is_publish pre /\ none is_delete pre.
Proof.
  intros Hs.
  destruct (process_item_first_event P fuel cfg single_publish itm w) as [rest Hfirst].
  destruct (process_item_request P fuel cfg single_publish itm w)
    as (r & w' & tr & Hrun & Hreq & _).
  rewrite Hrun in Hfirst |- *. cbn [snd] in Hfirst |- *. rewrite Hs in Hfirst.
  inversion Hreq as [r0 atr Hatt | |]; subst; try discriminate.
  assert (exists rp ru tail,
            atr = publish_trace itm (request_name P cfg single_publish itm)
                    (request_metadata cfg single_publish) rp ru ++ tail)
    as (rp & ru & tail & ->).
  { inversion Hatt; subst; eauto. }
  exists [ESearch (service_query P (request_name P cfg single_publish itm))
            "Feature Service" 1 [];
          ECall "publish_feature_service";
          ELog INFO ("Attempting to publish item: " ++ title itm);
          EPrint ("✅ Uploading " ++ title itm ++ "...")], rp.
  eexists. split; [reflexivity|]. split; repeat constructor.
Qed.

Lemma no_delete_before_first_publish_witness :
  exists pre rp post,
    snd (process_item Mock.portal polling_fuel CONFIG false Mock.shp (Mock.fresh []))
    = pre ++ EPublish Mock.shp "Parcels2024" rp :: post /\
    none is_publish pre /\ none is_delete pre.
Proof.
  apply (no_delete_before_first_publish Mock.portal polling_fuel CONFIG false
           Mock.shp (Mock.fresh [])).
  reflexivity.
Defined.

(** *** C6: publish only after an existence query that found nothing *)

(** The most recent existence query of a trace, after [acc]. *)
Fixpoint last_search_from (acc : option Event) (tr : Trace) : option Event :=
  match tr with
  | [] => acc
  | e :: tr' => last_search_from (if is_search e then Some e else acc) tr'
  end.

Definition last_search (tr : Trace) : option Event := last_search_from None tr.

(** The existence query for [service_name] came back empty. *)
Definition found_nothing {W} (P : Portal W) (service_name : string)
    (acc : option Event) : Prop :=
  exists max_items,
    acc = Some (ESearch (service_query P service_name) "Feature Service" max_items []).

(** Every publish of the trace comes when the most recent existence query,
    starting from [acc], satisfies [good]. *)
Fixpoint publishes_guarded (good : option Event -> Prop) (acc : option Event)
    (tr : Trace) : Prop :=
  match tr with
  | [] => True
  | e :: tr' =>
      (is_publish e = true -> good acc) /\
      publishes_guarded good (if is_search e then Some e else acc) tr'
  end.

Section Guarded.
Context {W : Type} (P : Portal W).

Lemma last_search_from_app acc l1 l2 :
  last_search_from acc (l1 ++ l2) = last_search_from (last_search_from acc l1) l2.
Proof. revert acc. induction l1 as [|e l1 IH]; intros acc; cbn; auto. Qed.

Lemma last_search_from_none acc l :
  none is_search l -> last_search_from acc l = acc.
Proof.
  intros H. revert acc. induction H as [|e l He _ IH]; intros acc; cbn; auto.
  now rewrite He.
Qed.

Lemma publishes_guarded_app good acc l1 l2 :
  publishes_guarded good acc l1 ->
  publishes_guarded good (last_search_from acc l1) l2 ->
  publishes_guarded good acc (l1 ++ l2).
Proof.
  revert acc. induction l1 as [|e l1 IH]; intros acc; cbn; [auto|].
  intros [He H1] H2. split; auto.
Qed.

Lemma publishes_guarded_none good acc l :
  none is_publish l -> publishes_guarded good acc l.
Proof.
  intros H. revert acc. induction H as [|e l He _ IH]; intros acc; cbn; [exact I|].
  split; [congruence | apply IH].
Qed.

Lemma publishes_guarded_split good acc tr pre e post :
  publishes_guarded good acc tr -> tr = pre ++ e :: post -> is_publish e = true ->
  good (last_search_from acc pre).
Proof.
  intros H ->. revert acc H. induction pre as [|x pre IH]; intros acc; cbn.
  - intros [He _] Hp. auto.
  - intros [_ H] Hp. now apply IH.
Qed.

Lemma poll_gone_last_search name timeout start ptr acc :
  poll P name timeout start (Ok true) ptr ->
  found_nothing P name (last_search_from acc ptr).
Proof.
  remember (Ok true) as r eqn:Hr. intros H. revert acc.
  induction H as [| |now Hlt|now x xs r tr Hlt _ IH]; intros acc; try discriminate.
  - now exists 1%nat.
  - cbn. now apply IH.
Qed.

Lemma wait_gone_last_search name timeout wtr acc :
  wait_call P name timeout (Ok true) wtr ->
  found_nothing P name (last_search_from acc wtr).
Proof.
  inversion 1 as [start b ptr Hp|]; subst. cbn.
  rewrite last_search_from_app. cbn.
  now apply poll_gone_last_search with timeout start.
Qed.

Lemma reconcile_gone_last_search name rtr acc :
  reconcile P name Proceed rtr ->
  found_nothing P name (last_search_from acc rtr).
Proof.
  inversion 1 as [| |dtr wtr Hd Hw|]; subst.
  rewrite last_search_from_app. now apply wait_gone_last_search with default_timeout.
Qed.

Lemma reconcile_no_publish name s rtr :
  reconcile P name s rtr -> none is_publish rtr.
Proof. intros []; none_auto. Qed.

(** One call of [publish_feature_service], entered after an empty query. *)
Lemma publish_trace_guarded itm name md rp ru acc :
  found_nothing P name acc ->
  publishes_guarded (found_nothing P name) acc (publish_trace itm name md rp ru) /\
  last_search_from acc (publish_trace itm name md rp ru) = acc.
Proof.
  intros Hacc. split.
  - cbn. repeat (split; [discriminate|]). split; [auto|].
    apply publishes_guarded_none. none_auto.
  - apply last_search_from_none. none_auto.
Qed.

Lemma attempt_guarded cfg itm name md r atr acc :
  attempt P cfg itm name md r atr -> found_nothing P name acc ->
  publishes_guarded (found_nothing P name) acc atr.
Proof.
  intros [rp ru fs rd rs Hv | rp ru s rtr Hv Hr Hs | rp ru rtr rp' ru' rd rs Hv Hr] Hacc.
  - apply publishes_guarded_app; [now apply publish_trace_guarded|].
    apply publishes_guarded_none. none_auto.
  - apply publishes_guarded_app; [now apply publish_trace_guarded|].
    apply publishes_guarded_none. apply none_cons; [reflexivity|].
    now apply reconcile_no_publish with name s.
  - apply publishes_guarded_app; [now apply publish_trace_guarded|].
    change (?a :: ?l ++ ?m) with ((a :: l) ++ m).
    apply publishes_guarded_app.
    + apply publishes_guarded_none. apply none_cons; [reflexivity|].
      now apply reconcile_no_publish with name Proceed.
    + apply publishes_guarded_app.
      * apply publish_trace_guarded. cbn [last_search_from is_search].
        now apply reconcile_gone_last_search.
      * apply publishes_guarded_none. none_auto.
Qed.

Lemma request_guarded cfg itm name md r tr :
  request P cfg itm name md r tr ->
  publishes_guarded (found_nothing P name) None tr.
Proof.
  intros [r0 atr Ha | x xs s rtr Hr Hs | x xs rtr r0 atr Hr Ha].
  - cbn. split; [discriminate|].
    eapply attempt_guarded; [eassumption|]. now exists 1%nat.
  - apply publishes_guarded_none. do 2 (apply none_cons; [reflexivity|]).
    now apply reconcile_no_publish with name s.
  - change (?a :: ?b :: ?l ++ ?m) with ((a :: b :: l) ++ m).
    apply publishes_guarded_app.
    + apply publishes_guarded_none. do 2 (apply none_cons; [reflexivity|]).
      now apply reconcile_no_publish with name Proceed.
    + eapply attempt_guarded; [eassumption|]. cbn [last_search_from is_search].
      now apply reconcile_gone_last_search.
Qed.

(** Every publish of a request is for the item and the name of the request. *)
Lemma request_publishes cfg itm name md r tr :
  request P cfg itm name md r tr ->
  Forall (fun e => forall it nm rp, e = EPublish it nm rp -> it = itm /\ nm = name) tr.
Proof.
  assert (forall l, none is_publish l ->
            Forall (fun e => forall it nm rp, e = EPublish it nm rp ->
                               it = itm /\ nm = name) l) as Hnone.
  { intros l Hl. eapply Forall_impl; [exact Hl|].
    intros e He it nm rp ->. discriminate. }
  assert (forall rp ru,
            Forall (fun e => forall it nm rp, e = EPublish it nm rp ->
                               it = itm /\ nm = name)
              (publish_trace itm name md rp ru)) as Hpub.
  { intros rp ru. unfold publish_trace.
    do 3 (constructor; [intros ? ? ? [=]|]).
    constructor; [now intros ? ? ? [= -> -> _]|].
    apply Hnone. none_auto. }
  assert (forall r atr, attempt P cfg itm name md r atr ->
            Forall (fun e => forall it nm rp, e = EPublish it nm rp ->
                               it = itm /\ nm = name) atr) as Hatt.
  { intros r' atr [rp ru fs rd rs Hv | rp ru s rtr Hv Hr Hs
                  | rp ru rtr rp' ru' rd rs Hv Hr].
    - apply Forall_app. split; [apply Hpub | apply Hnone; none_auto].
    - apply Forall_app. split; [apply Hpub|]. apply Hnone.
      apply none_cons; [reflexivity|]. now apply reconcile_no_publish with name s.
    - apply Forall_app. split; [apply Hpub|].
      constructor; [intros ? ? ? [=]|].
      apply Forall_app. split.
      + apply Hnone. now apply reconcile_no_publish with name Proceed.
      + apply Forall_app. split; [apply Hpub | apply Hnone; none_auto]. }
  intros [r0 atr Ha | x xs s rtr Hr Hs | x xs rtr r0 atr Hr Ha].
  - constructor; [intros ? ? ? [=]|]. now apply Hatt with r0.
  - apply Hnone. do 2 (apply none_cons; [reflexivity|]).
    now apply reconcile_no_publish with name s.
  - do 2 (constructor; [intros ? ? ? [=]|]).
    apply Forall_app. split.
    + apply Hnone. now apply reconcile_no_publish with name Proceed.
    + now apply Hatt with r0.
Qed.

End Guarded.

(** C6.  Whenever the run of a request invokes publish, it is for the
    request's item and service name, and the most recent existence query
    before it, for that name and the current owner, returned no match: the
    initial check, or the last round of the deletion-confirmation poll. *)
Theorem publish_after_empty_search {W} (P : Portal W) (fuel : nat)
    (cfg : Config) (single_publish : bool) (itm : Item) (w : W)
    (pre post : Trace) (item : Item) (name : string) (rp : reply (option Item)) :
  snd (process_item P fuel cfg single_publish itm w)
  = pre ++ EPublish item name rp :: post ->
  item = itm /\ name = request_name P cfg single_publish itm /\
  exists max_items,
    last_search pre
    = Some (ESearch (service_query P (request_name P cfg single_publish itm))
              "Feature Service" max_items []).
Proof.
  intros Heq.
  destruct (process_item_request P fuel cfg single_publish itm w)
    as (r & w' & tr & Hrun & Hreq & _).
  rewrite Hrun in Heq. cbn [snd] in Heq.
  pose proof (request_publishes P _ _ _ _ _ _ Hreq) as Hall.
  rewrite Heq in Hall. apply Forall_app in Hall as [_ Hall].
  inversion Hall as [|? ? He _]; subst.
  destruct (He item name rp eq_refl) as [-> ->].
  split; [reflexivity|]. split; [reflexivity|].
  apply request_guarded in Hreq.
  exact (publishes_guarded_split _ None _ pre _ post Hreq eq_refl eq_refl).
Qed.

(** A portal with a stale service that is gone at the second poll. *)
Definition world_stale_then_gone : Mock.World :=
  Mock.fresh [[Mock.stale]; [Mock.stale]; [Mock.stale]; []].

Lemma publish_after_empty_search_witness :
  exists pre post,
    snd (process_item Mock.portal polling_fuel CONFIG false Mock.shp world_stale_then_gone)
    = pre ++ EPublish Mock.shp "Parcels2024" (Returned (Some Mock.svc)) :: post /\
    Mock.shp = Mock.shp /\ "Parcels2024" = "Parcels2024" /\
    exists max_items,
      last_search pre
      = Some (ESearch (service_query Mock.portal "Parcels2024")
                "Feature Service" max_items []).
Proof.
  eexists _, _.
  assert (snd (process_item Mock.portal polling_fuel CONFIG false Mock.shp
                 world_stale_then_gone)
          = firstn 20 (snd (process_item Mock.portal polling_fuel CONFIG false Mock.shp
                              world_stale_then_gone))
            ++ EPublish Mock.shp "Parcels2024" (Returned (Some Mock.svc))
            :: skipn 21 (snd (process_item Mock.portal polling_fuel CONFIG false Mock.shp
                                world_stale_then_gone))) as Hsplit
    by (vm_compute; reflexivity).
  split; [exact Hsplit|].
  exact (publish_after_empty_search Mock.portal polling_fuel CONFIG false Mock.shp
           world_stale_then_gone _ _ _ _ _ Hsplit).
Defined.

(** A second shapefile. *)
Definition roads : Item :=
  mkItem "0f9e" "Roads.shp" "https://gis.czu.cz/portal/home/item.html?id=0f9e" "gis_admin".

(** *** C10: the metadata of a run with several items *)

(** Every metadata update of the trace carries [payload]. *)
Definition updates_carry (payload : dict) (tr : Trace) : Prop :=
  Forall (fun e => forall item props r, e = EUpdate item props r -> props = payload) tr.

Section Metadata.
Context {W : Type} (P : Portal W).

Lemma updates_carry_none payload l : none is_update l -> updates_carry payload l.
Proof.
  intros Hl. unfold updates_carry. eapply Forall_impl; [exact Hl|].
  cbn beta. intros e He item props r ->. discriminate.
Qed.

Lemma updates_carry_app payload l1 l2 :
  updates_carry payload l1 -> updates_carry payload l2 ->
  updates_carry payload (l1 ++ l2).
Proof. intros H1 H2. apply Forall_app. now split. Qed.

Lemma publish_trace_updates itm name md rp ru :
  updates_carry (update_payload md) (publish_trace itm name md rp ru).
Proof.
  unfold publish_trace, updates_carry.
  do 4 (constructor; [intros ? ? ? [=]|]).
  destruct rp as [[pi|]|e]; try solve [apply updates_carry_none; none_auto].
  do 2 (constructor; [intros ? ? ? [=]|]).
  constructor; [now intros ? ? ? [= _ <- _]|].
  apply updates_carry_none. none_auto.
Qed.

Lemma reconcile_no_update name s rtr :
  reconcile P name s rtr -> none is_update rtr.
Proof. intros []; none_auto. Qed.

Lemma attempt_updates cfg itm name md r atr :
  attempt P cfg itm name md r atr -> updates_carry (update_payload md) atr.
Proof.
  intros [rp ru fs rd rs Hv | rp ru s rtr Hv Hr Hs | rp ru rtr rp' ru' rd rs Hv Hr].
  - apply updates_carry_app; [apply publish_trace_updates|].
    apply updates_carry_none. none_auto.
  - apply updates_carry_app; [apply publish_trace_updates|].
    apply updates_carry_none. apply none_cons; [reflexivity|].
    now apply reconcile_no_update with name s.
  - apply updates_carry_app; [apply publish_trace_updates|].
    constructor; [intros ? ? ? [=]|].
    apply updates_carry_app.
    + apply updates_carry_none. now apply reconcile_no_update with name Proceed.
    + apply updates_carry_app; [apply publish_trace_updates|].
      apply updates_carry_none. none_auto.
Qed.

Lemma request_updates cfg itm name md r tr :
  request P cfg itm name md r tr -> updates_carry (update_payload md) tr.
Proof.
  intros [r0 atr Ha | x xs s rtr Hr Hs | x xs rtr r0 atr Hr Ha].
  - constructor; [intros ? ? ? [=]|]. now apply attempt_updates with cfg itm name r0.
  - apply updates_carry_none. do 2 (apply none_cons; [reflexivity|]).
    now apply reconcile_no_update with name s.
  - do 2 (constructor; [intros ? ? ? [=]|]).
    apply updates_carry_app.
    + apply updates_carry_none. now apply reconcile_no_update with name Proceed.
    + now apply attempt_updates with cfg itm name r0.
Qed.

Lemma process_item_updates fuel cfg single itm w :
  updates_carry (update_payload (request_metadata cfg single))
    (snd (process_item P fuel cfg single itm w)).
Proof.
  destruct (process_item_request P fuel cfg single itm w)
    as (r & w' & tr & Hrun & Hreq & _).
  rewrite Hrun. cbn [snd]. eapply request_updates; eassumption.
Qed.


End Metadata.





(** *** C4: one retry after a conflict *)

Definition is_call (e : Event) : bool :=
  match e with ECall _ => true | _ => false end.

(** How many events of the trace satisfy [p]. *)
Definition count (p : Event -> bool) (tr : Trace) : nat := length (List.filter p tr).

Lemma count_app p l1 l2 : count p (l1 ++ l2) = (count p l1 + count p l2)%nat.
Proof. unfold count. now rewrite List.filter_app, length_app. Qed.

Lemma filter_none p (l : Trace) : none p l -> List.filter p l = [].
Proof.
  induction 1 as [|e l He _ IH]; [reflexivity|]. cbn. now rewrite He.
Qed.

Lemma count_none p l : none p l -> count p l = 0%nat.
Proof. intros H. unfold count. now rewrite filter_none. Qed.

Lemma count_cons_true p e l : p e = true -> count p (e :: l) = S (count p l).
Proof. intros H. unfold count. cbn. now rewrite H. Qed.

Lemma count_cons_false p e l : p e = false -> count p (e :: l) = count p l.
Proof. intros H. unfold count. cbn. now rewrite H. Qed.

(** What [publish_feature_service] does after the publish call. *)
Definition publish_tail (metadata : dict) (rp : reply (option Item))
    (ru : reply unit) : Trace :=
  match rp with
  | Raised e => publish_except e
  | Returned None => publish_except "Publishing returned None"
  | Returned (Some published_item) =>
      EPrint ("✅ Published Feature Service: " ++ title published_item)
        :: ELog INFO ("Published Feature Service: " ++ title published_item)
        :: EUpdate published_item (update_payload metadata) ru
        :: match ru with
           | Returned _ =>
               [EPrint ("✅ Updated metadata for " ++ title published_item);
                ELog INFO ("Updated metadata for " ++ title published_item);
                EReturn "publish_feature_service" (VItem (Some published_item))]
           | Raised e => publish_except e
           end
  end.

Lemma publish_trace_split itm name md rp ru :
  publish_trace itm name md rp ru
  = [ECall "publish_feature_service";
     ELog INFO ("Attempting to publish item: " ++ title itm);
     EPrint ("✅ Uploading " ++ title itm ++ "...")]
    ++ EPublish itm name rp :: publish_tail md rp ru.
Proof. reflexivity. Qed.

Lemma publish_failed_value rp ru : publish_failed rp = true -> publish_value rp ru = None.
Proof. now destruct rp as [[pi|]|e]. Qed.

Lemma publish_failed_tail md rp ru :
  publish_failed rp = true ->
  exists e, publish_tail md rp ru = publish_except e.
Proof. destruct rp as [[pi|]|e]; [discriminate| |]; eauto. Qed.

Section Retry.
Context {W : Type} (P : Portal W).

Lemma deletions_no_call rs b tr : deletions rs b tr -> none is_call tr.
Proof. induction 1; none_auto. Qed.

Lemma delete_call_calls name b dtr :
  delete_call P name b dtr ->
  List.filter is_call dtr = [ECall "delete_existing_service"] /\
  none is_publish dtr.
Proof.
  intros H. split; [|none_auto].
  inversion H as [rs b' tr Hd]; subst. cbn.
  rewrite List.filter_app. cbn. rewrite app_nil_r. f_equal.
  apply filter_none. now apply deletions_no_call with rs b.
Qed.

Lemma wait_call_calls name timeout r wtr :
  wait_call P name timeout r wtr ->
  List.filter is_call wtr = [ECall "wait_for_service_deletion"] /\
  none is_publish wtr.
Proof.
  intros H. split; [|none_auto].
  inversion H as [start b ptr Hp | start ptr Hp]; subst; cbn.
  - rewrite List.filter_app. cbn. rewrite app_nil_r. f_equal.
    apply filter_none. none_auto.
  - f_equal. apply filter_none. none_auto.
Qed.

(** A request is a prefix without a publish, then the publish attempts. *)
Lemma request_attempt cfg itm name md o tr :
  request P cfg itm name md (Ok o) tr ->
  none is_publish tr \/
  exists pre atr,
    tr = pre ++ atr /\ none is_publish pre /\
    attempt P cfg itm name md (Ok o) atr.
Proof.
  inversion 1 as [r0 atr Ha | x xs s rtr Hr Hs | x xs rtr r0 atr Hr Ha]; subst.
  - right. exists [ESearch (service_query P name) "Feature Service" 1 []], atr.
    repeat split; [none_auto | assumption].
  - left. do 2 (apply none_cons; [reflexivity|]).
    now apply (reconcile_no_publish P name s).
  - right.
    exists (ESearch (service_query P name) "Feature Service" 1 (x :: xs)
              :: EPrint (Msg.exists_ name) :: rtr), atr.
    repeat split; [|assumption].
    do 2 (apply none_cons; [reflexivity|]).
    now apply (reconcile_no_publish P name Proceed).
Qed.

End Retry.

(** The calls to the script's own functions, in order. *)
Definition calls (tr : Trace) : Trace := List.filter is_call tr.

Lemma calls_app l1 l2 : calls (l1 ++ l2) = calls l1 ++ calls l2.
Proof. apply List.filter_app. Qed.

Lemma calls_none l : none is_call l -> calls l = [].
Proof. apply filter_none. Qed.

Lemma count_call_of f tr : count (is_call_of f) tr = count (is_call_of f) (calls tr).
Proof.
  unfold count, calls. induction tr as [|e tr IH]; [reflexivity|].
  destruct e; cbn; try exact IH.
  destruct (String.eqb f f0); cbn; now rewrite IH.
Qed.

(** What follows a first publish attempt that failed: one call of
    [delete_existing_service], at most one poll and at most one more publish;
    and when that second publish fails too, the calls before it were the
    deletion, the poll and the publish of the one retry cycle, the outcome is
    [SkippedConflict], and no call follows. *)
Definition one_retry_cycle (o : Outcome) (post : Trace) : Prop :=
  count (is_call_of "delete_existing_service") post = 1%nat /\
  (count (is_call_of "wait_for_service_deletion") post <= 1)%nat /\
  (count is_publish post <= 1)%nat /\
  forall pre' item' name' rp' post',
    post = pre' ++ EPublish item' name' rp' :: post' ->
    publish_failed rp' = true ->
    o = SkippedConflict /\
    calls pre' = [ECall "delete_existing_service";
                  ECall "wait_for_service_deletion";
                  ECall "publish_feature_service"] /\
    none is_sdk_call post' /\ none is_call post'.

Section RetryCycle.
Context {W : Type} (P : Portal W).

Lemma reconcile_calls name s rtr :
  reconcile P name s rtr ->
  none is_publish rtr /\
  (s = Stop Failed /\ calls rtr = [ECall "delete_existing_service"] \/
   s <> Stop Failed /\
   calls rtr = [ECall "delete_existing_service"; ECall "wait_for_service_deletion"]).
Proof.
  intros H. split; [now apply (reconcile_no_publish P name s)|].
  destruct H as [dtr Hd | dtr wtr Hd Hw | dtr wtr Hd Hw | dtr wtr Hd Hw];
    [left | right | right | right];
    (split; [congruence|]);
    repeat rewrite calls_app; unfold calls;
    rewrite (proj1 (delete_call_calls P _ _ _ Hd));
    try rewrite (proj1 (wait_call_calls P _ _ _ _ Hw)); reflexivity.
Qed.

Lemma publish_tail_no_publish md rp ru : none is_publish (publish_tail md rp ru).
Proof. destruct rp as [[pi|]|e]; cbn; none_auto. Qed.

Lemma calls_publish_trace itm name md rp ru :
  calls (publish_trace itm name md rp ru) = [ECall "publish_feature_service"].
Proof. destruct rp as [[pi|]|e]; [destruct ru as [[]|e]|..]; reflexivity. Qed.

Lemma count_publish_trace itm name md rp ru :
  count is_publish (publish_trace itm name md rp ru) = 1%nat.
Proof. destruct rp as [[pi|]|e]; [destruct ru as [[]|e]|..]; reflexivity. Qed.

(** A stopped retry: no second publish. *)
Lemma stopped_one_retry o name e s rtr :
  reconcile P name s rtr -> s <> Proceed ->
  one_retry_cycle o (publish_except e ++ EPrint (Msg.conflict name) :: rtr).
Proof.
  intros Hr Hs. destruct (reconcile_calls name s rtr Hr) as [Hnp Hcalls].
  assert (none is_publish (publish_except e ++ EPrint (Msg.conflict name) :: rtr))
    as Hnone by (apply none_app; [none_auto | now apply none_cons]).
  assert (calls (publish_except e ++ EPrint (Msg.conflict name) :: rtr) = calls rtr)
    as Hc by reflexivity.
  split; [|split; [|split]].
  - rewrite count_call_of, Hc. destruct Hcalls as [[_ ->] | [_ ->]]; reflexivity.
  - rewrite count_call_of, Hc. destruct Hcalls as [[_ ->] | [_ ->]]; cbn; lia.
  - rewrite count_none; [lia | exact Hnone].
  - intros pre' item' name' rp' post' Heq Hf.
    destruct (none_no_split is_publish _ pre' _ post' Hnone Heq eq_refl).
Qed.

(** A completed retry: deletion, poll, second publish. *)
Lemma retried_one_retry cfg itm name md e rtr rp' ru' rd rs :
  reconcile P name Proceed rtr ->
  one_retry_cycle (configure_outcome (publish_value rp' ru'))
    (publish_except e ++ EPrint (Msg.conflict name)
       :: rtr ++ publish_trace itm name md rp' ru'
       ++ configure_trace cfg name (publish_value rp' ru') rd rs).
Proof.
  intros Hr.
  destruct (reconcile_calls name Proceed rtr Hr) as [Hnp [[Hs _] | [_ Hcalls]]];
    [discriminate|].
  set (before := publish_except e ++ EPrint (Msg.conflict name)
                   :: rtr ++ [ECall "publish_feature_service";
                              ELog INFO ("Attempting to publish item: " ++ title itm);
                              EPrint ("✅ Uploading " ++ title itm ++ "...")]).
  set (after := publish_tail md rp' ru'
                  ++ configure_trace cfg name (publish_value rp' ru') rd rs).
  assert (publish_except e ++ EPrint (Msg.conflict name)
            :: rtr ++ publish_trace itm name md rp' ru'
            ++ configure_trace cfg name (publish_value rp' ru') rd rs
          = before ++ EPublish itm name rp' :: after) as ->.
  { subst before after. rewrite publish_trace_split. same_list. }
  assert (none is_publish before) as Hbefore.
  { subst before. apply none_app; [none_auto|]. apply none_cons; [reflexivity|].
    apply none_app; [exact Hnp | none_auto]. }
  assert (none is_publish after) as Hafter.
  { subst after. apply none_app; [apply publish_tail_no_publish | none_auto]. }
  assert (calls before = [ECall "delete_existing_service";
                          ECall "wait_for_service_deletion";
                          ECall "publish_feature_service"]) as Hcb.
  { subst before. rewrite calls_app. cbn [publish_except calls List.filter is_call app].
    fold (calls (rtr ++ [ECall "publish_feature_service";
                         ELog INFO ("Attempting to publish item: " ++ title itm);
                         EPrint ("✅ Uploading " ++ title itm ++ "...")])).
    now rewrite calls_app, Hcalls. }
  assert (none is_call after) as Hca.
  { subst after. apply none_app; [|none_auto].
    destruct rp' as [[pi|]|e']; cbn; none_auto. }
  assert (calls (before ++ EPublish itm name rp' :: after)
          = [ECall "delete_existing_service";
             ECall "wait_for_service_deletion";
             ECall "publish_feature_service"]) as Hc.
  { rewrite calls_app, Hcb. cbn [calls List.filter is_call].
    fold (calls after). now rewrite (calls_none after Hca). }
  split; [|split; [|split]].
  - now rewrite count_call_of, Hc.
  - rewrite count_call_of, Hc. cbn. lia.
  - rewrite count_app, (count_none _ before Hbefore).
    rewrite count_cons_true by reflexivity.
    rewrite (count_none _ after Hafter). lia.
  - intros pre' item' name' rp'' post' Heq Hf.
    destruct (only_split_unique is_publish before _ after pre' _ post'
                Hbefore Hafter Heq eq_refl) as (-> & Hx & ->).
    injection Hx as -> -> ->.
    rewrite (publish_failed_value rp' ru' Hf). split; [reflexivity|].
    split; [exact Hcb|]. split; [|exact Hca].
    subst after. rewrite (publish_failed_value rp' ru' Hf).
    destruct (publish_failed_tail md rp' ru' Hf) as [e' ->].
    apply none_app; none_auto.
Qed.

Lemma attempt_one_retry cfg itm name md o atr :
  attempt P cfg itm name md (Ok o) atr ->
  exists rp ru rest,
    atr = publish_trace itm name md rp ru ++ rest /\
    (count is_publish rest <= 1)%nat /\
    (publish_failed rp = true -> one_retry_cycle o (publish_tail md rp ru ++ rest)).
Proof.
  inversion 1 as [rp ru fs rd rs Hv | rp ru s rtr Hv Hr Hs Hres
                 | rp ru rtr rp' ru' rd rs Hv Hr]; subst.
  - exists rp, ru, (configure_trace cfg name (Some fs) rd rs).
    split; [reflexivity|]. split.
    + rewrite count_none; [lia | none_auto].
    + intros Hf. rewrite (publish_failed_value rp ru Hf) in Hv. discriminate.
  - exists rp, ru, (EPrint (Msg.conflict name) :: rtr).
    split; [reflexivity|]. split.
    + rewrite count_none; [lia|]. apply none_cons; [reflexivity|].
      now apply (reconcile_no_publish P name s).
    + intros Hf. destruct (publish_failed_tail md rp ru Hf) as [e ->].
      now apply stopped_one_retry with s.
  - exists rp, ru,
      (EPrint (Msg.conflict name) :: rtr ++ publish_trace itm name md rp' ru'
         ++ configure_trace cfg name (publish_value rp' ru') rd rs).
    split; [reflexivity|]. split.
    + rewrite count_cons_false by reflexivity.
      rewrite count_app, (count_none _ rtr (reconcile_no_publish P name _ _ Hr)).
      rewrite count_app, count_publish_trace.
      rewrite (count_none is_publish (configure_trace _ _ _ _ _)) by none_auto.
      lia.
    + intros Hf. destruct (publish_failed_tail md rp ru Hf) as [e ->].
      now apply retried_one_retry.
Qed.

End RetryCycle.


(** A portal on which publish always answers [None]. *)
Definition world_always_conflict : Mock.World :=
  Mock.mkWorld 0 [[]; [Mock.stale]] [] [] [] (Returned None) [] [] [].


(** On that portal the request ends as [SkippedConflict] after two publish
    attempts. *)
Example always_conflict_run :
  let run := process_item Mock.portal polling_fuel CONFIG false Mock.shp
               world_always_conflict in
  fst (fst run) = Ok SkippedConflict /\ count is_publish (snd run) = 2%nat.
Proof. vm_compute. split; reflexivity. Qed.

(** ** A failed metadata update *)

Section MetadataFailure.
Context {W : Type} (P : Portal W).

(** [published_item.update] stands inside the [try] of
    [publish_feature_service]: when it raises, the [except] branch
    returns [None] although the service has been published. *)
Lemma update_failure_returns_none itm name md w pi w1 e w2 :
  publish P itm name w = (Returned (Some pi), w1) ->
  update P pi (update_payload md) w1 = (Raised e, w2) ->
  publish_feature_service P itm name md w
  = (Ok None, w2, publish_trace itm name md (Returned (Some pi)) (Raised e)).
Proof.
  intros Hp Hu. unfold update_payload in Hu.
  unfold publish_feature_service, call, try_except, bind, print,
    logging_info, logging_error, item_publish, item_update, raise, ret, emit.
  cbn beta iota. rewrite Hp. cbn beta iota delta [of_reply]. rewrite Hu. reflexivity.
Qed.

Lemma reconcile_begins name s rtr :
  reconcile P name s rtr ->
  exists rest, rtr = ECall "delete_existing_service" :: rest.
Proof.
  intros [dtr Hd | dtr wtr Hd _ | dtr wtr Hd _ | dtr wtr Hd _];
    inversion Hd; subst; cbn [app]; eexists; reflexivity.
Qed.

Lemma reconcile_stop_not_published name o rtr fs :
  reconcile P name (Stop o) rtr -> o <> Published fs.
Proof. inversion 1; discriminate. Qed.

End MetadataFailure.

(** C1.  The code departs from the claim at the metadata update.  When the
    initial query finds no service, publish succeeds and the metadata update
    then raises, [publish_feature_service] returns [None] and the loop body
    takes the conflict path: it prints the conflict message and calls
    [delete_existing_service]; the outcome is [Published] only when publish
    is invoked a second time. *)
Theorem metadata_failure_enters_conflict_path {W} (P : Portal W) (fuel : nat)
    (cfg : Config) (single_publish : bool) (itm published_item : Item)
    (e : string) (w w0 w1 w2 : W) :
  search P (service_query P (request_name P cfg single_publish itm))
    "Feature Service" 1 w = ([], w0) ->
  publish P itm (request_name P cfg single_publish itm) w0
    = (Returned (Some published_item), w1) ->
  update P published_item (update_payload (request_metadata cfg single_publish)) w1
    = (Raised e, w2) ->
  exists rest,
    snd (process_item P fuel cfg single_publish itm w)
    = ESearch (service_query P (request_name P cfg single_publish itm))
        "Feature Service" 1 []
        :: publish_trace itm (request_name P cfg single_publish itm)
             (request_metadata cfg single_publish)
             (Returned (Some published_item)) (Raised e)
        ++ EPrint (Msg.conflict (request_name P cfg single_publish itm))
        :: ECall "delete_existing_service" :: rest /\
    forall fs,
      fst (fst (process_item P fuel cfg single_publish itm w)) = Ok (Published fs) ->
      count is_publish rest = 1%nat.
Proof.
  intros Hs Hp Hu.
  destruct (process_item P fuel cfg single_publish itm w) as [[r w'] tr] eqn:Hrun.
  cbn [fst snd]. revert Hrun.
  unfold process_item.
  fold (request_name P cfg single_publish itm).
  fold (request_metadata cfg single_publish).
  set (name := request_name P cfg single_publish itm) in *.
  set (md := request_metadata cfg single_publish) in *.
  unfold bind at 1. unfold gis_content_search at 1. rewrite Hs.
  unfold publish_and_configure. unfold bind at 1.
  rewrite (update_failure_returns_none P itm name md w0 published_item w1 e w2 Hp Hu).
  cbv beta iota.
  change (bind (print _) _) with
    (print ("⚠️ Conflict detected for '" ++ name
            ++ "'. Attempting to delete and republish...");;;
     reconcile_then P fuel name
       (fs <- publish_feature_service P itm name md;;
        configure_and_share P cfg name fs)).
  unfold bind at 1. unfold print at 1, emit at 1.
  destruct (reconcile_then_trace P fuel name
              (fs <- publish_feature_service P itm name md;;
               configure_and_share P cfg name fs) w2)
    as (s & w3 & rtr & Hr & _ & Heq).
  rewrite Heq.
  pose proof (reconcile_no_publish P name s rtr Hr) as Hnone.
  destruct (reconcile_begins P name s rtr Hr) as [rest0 ->].
  apply Forall_inv_tail in Hnone.
  destruct s as [|o|].
  - destruct (publish_feature_service_trace P itm name md w3)
      as (rp' & ru' & w4 & Hp').
    unfold bind at 1. rewrite Hp'.
    destruct (configure_and_share_trace P cfg name (publish_value rp' ru') w4)
      as (rd & rs & w5 & Hc).
    rewrite Hc. intros [= <- <- <-].
    exists (rest0 ++ publish_trace itm name md rp' ru'
              ++ configure_trace cfg name (publish_value rp' ru') rd rs).
    split; [reflexivity|]. intros _ _.
    rewrite count_app, (count_none _ rest0 Hnone), count_app, count_publish_trace.
    rewrite (count_none is_publish (configure_trace _ _ _ _ _)) by none_auto.
    reflexivity.
  - intros [= <- <- <-]. exists rest0. split; [reflexivity|]. intros fs [= ->].
    now destruct (reconcile_stop_not_published P name _ _ fs Hr).
  - intros [= <- <- <-]. exists rest0. split; [reflexivity|]. discriminate.
Qed.

(** A portal that publishes the service and then fails to update its
    metadata, on both attempts; the service it has published is what the
    deletion step finds. *)
Definition world_update_fails : Mock.World :=
  Mock.mkWorld 0 [[]; [Mock.svc]; []] [] [] []
    (Returned (Some Mock.svc))
    [Raised "Connection reset"; Raised "Connection reset"] [] [].

Lemma metadata_failure_enters_conflict_path_witness :
  exists rest,
    snd (process_item Mock.portal polling_fuel CONFIG false Mock.shp world_update_fails)
    = ESearch (service_query Mock.portal (request_name Mock.portal CONFIG false Mock.shp))
        "Feature Service" 1 []
        :: publish_trace Mock.shp (request_name Mock.portal CONFIG false Mock.shp)
             (request_metadata CONFIG false)
             (Returned (Some Mock.svc)) (Raised "Connection reset")
        ++ EPrint (Msg.conflict (request_name Mock.portal CONFIG false Mock.shp))
        :: ECall "delete_existing_service" :: rest /\
    forall fs,
      fst (fst (process_item Mock.portal polling_fuel CONFIG false Mock.shp
                  world_update_fails)) = Ok (Published fs) ->
      count is_publish rest = 1%nat.
Proof.
  eapply (metadata_failure_enters_conflict_path Mock.portal polling_fuel CONFIG
            false Mock.shp Mock.svc "Connection reset" world_update_fails);
    vm_compute; reflexivity.
Defined.

(** On that portal the request ends as [SkippedConflict]: the service the
    first attempt published is deleted, and the second attempt fails the
    same way. *)
Example metadata_failure_run :
  let run := process_item Mock.portal polling_fuel CONFIG false Mock.shp
               world_update_fails in
  fst (fst run) = Ok SkippedConflict /\
  count is_publish (snd run) = 2%nat /\
  List.filter is_delete (snd run) = [EDelete Mock.svc (Returned tt)] /\
  List.filter is_update (snd run)
  = [EUpdate Mock.svc (update_payload ∅) (Raised "Connection reset");
     EUpdate Mock.svc (update_payload ∅) (Raised "Connection reset")].
Proof. vm_compute. repeat split; reflexivity. Qed.

(** *** C3: the deletion-confirmation poll *)

Definition is_timeout_outcome (r : res Outcome) : bool :=
  match r with Ok SkippedTimeout => true | _ => false end.

Section PollTimeout.
Context {W : Type} (P : Portal W).

Lemma is_poll_timeout_inv (e : Event) :
  is_poll_timeout e = true ->
  e = EReturn "wait_for_service_deletion" (VBool false).
Proof.
  destruct e as [| | | | | | | | | | |f [b|]]; try discriminate.
  unfold is_poll_timeout, is_return_of. intros H.
  apply andb_true_iff in H as [Hf Hb].
  apply String.eqb_eq in Hf. destruct b; [discriminate|]. now subst.
Qed.

Lemma reconcile_stops_at_timeout name s rtr :
  reconcile P name s rtr ->
  stops_at is_poll_timeout (fun _ => [EPrint (Msg.timeout name)])
    (is_timeout_outcome (step_result s OutOfFuel)) rtr.
Proof.
  intros [dtr Hd | dtr wtr Hd Hw | dtr wtr Hd Hw | dtr wtr Hd Hw]; cbn.
  - none_auto.
  - inversion Hw as [start b ptr Hp|]; subst.
    exists (dtr ++ ECall "wait_for_service_deletion" :: ETime start :: ptr),
      (EReturn "wait_for_service_deletion" (VBool false)).
    split; [same_list|]. repeat split; none_auto.
  - none_auto.
  - none_auto.
Qed.

Lemma attempt_stops_at_timeout cfg itm name md r atr :
  attempt P cfg itm name md r atr ->
  stops_at is_poll_timeout (fun _ => [EPrint (Msg.timeout name)])
    (is_timeout_outcome r) atr.
Proof.
  intros [rp ru fs rd rs Hv | rp ru s rtr Hv Hr Hs | rp ru rtr rp' ru' rd rs Hv Hr].
  - cbn. none_auto.
  - apply stops_at_prefix; [none_auto|]. apply stops_at_cons; [reflexivity|].
    destruct s; [congruence| |]; now apply reconcile_stops_at_timeout.
  - apply reconcile_stops_at_timeout in Hr. cbn in Hr.
    replace (is_timeout_outcome _) with false
      by now destruct (publish_value rp' ru').
    cbn. none_auto.
Qed.

Lemma request_stops_at_timeout cfg itm name md r tr :
  request P cfg itm name md r tr ->
  stops_at is_poll_timeout (fun _ => [EPrint (Msg.timeout name)])
    (is_timeout_outcome r) tr.
Proof.
  intros [r0 atr Ha | x xs s rtr Hr Hs | x xs rtr r0 atr Hr Ha].
  - apply stops_at_cons; [reflexivity|].
    eapply attempt_stops_at_timeout; eassumption.
  - do 2 (apply stops_at_cons; [reflexivity|]).
    destruct s; [congruence| |]; now apply reconcile_stops_at_timeout.
  - do 2 (apply stops_at_cons; [reflexivity|]).
    apply reconcile_stops_at_timeout in Hr. cbn in Hr.
    apply stops_at_prefix; [exact Hr|].
    eapply attempt_stops_at_timeout; eassumption.
Qed.

End PollTimeout.

Section SplitCases.
Context {A : Type} (p : A -> bool).

(** A split of [l1 ++ l2] falls in [l1] or in [l2]. *)
Lemma split_app_cases (l1 l2 pre post : list A) (x : A) :
  l1 ++ l2 = pre ++ x :: post ->
  (exists mid, l1 = pre ++ x :: mid /\ post = mid ++ l2) \/
  (exists mid, pre = l1 ++ mid /\ l2 = mid ++ x :: post).
Proof.
  revert pre. induction l1 as [|a l1 IH]; intros pre Heq.
  - right. exists pre. split; [reflexivity | exact Heq].
  - destruct pre as [|b pre]; cbn in Heq.
    + injection Heq as -> <-. left. now exists l1.
    + injection Heq as -> Heq.
      destruct (IH pre Heq) as [(mid & -> & ->) | (mid & -> & ->)].
      * left. now exists mid.
      * right. now exists mid.
Qed.

(** A split at a [p] falls after a prefix without [p]. *)
Lemma split_after (l1 l2 pre post : list A) (x : A) :
  none p l1 -> p x = true -> l1 ++ l2 = pre ++ x :: post ->
  exists mid, pre = l1 ++ mid /\ l2 = mid ++ x :: post.
Proof.
  intros Hl1 Hx Heq.
  destruct (split_app_cases _ _ _ _ _ Heq) as [(mid & Hl & _) | H]; [|exact H].
  destruct (none_no_split p l1 pre x mid Hl1 Hl Hx).
Qed.

End SplitCases.

(** *** Where a request that is skipped stops *)

(** [delete_existing_service] returning [True]. *)
Definition is_deleted : Event -> bool :=
  is_return_of "delete_existing_service" (VBool true).

(** The deletion-confirmation poll, from its call on: the clock is read, and
    while less than [default_timeout] seconds have passed since then the
    portal is queried; no match ends the poll with [True], a match is followed
    by the waiting message, a 5 second sleep and the next round; a reading of
    [default_timeout] seconds or more ends it with [False]. *)
Definition poll_follows {W} (P : Portal W) (service_name : string)
    (post : Trace) : Prop :=
  exists start_time r tr rest,
    post = ECall "wait_for_service_deletion" :: ETime start_time :: tr ++ rest /\
    poll P service_name default_timeout start_time r tr /\
    match r with
    | Ok gone =>
        exists rest', rest = EReturn "wait_for_service_deletion" (VBool gone) :: rest'
    | _ => rest = []
    end.

Definition polls_follow {W} (P : Portal W) (service_name : string)
    (tr : Trace) : Prop :=
  forall pre post,
    tr = pre ++ EReturn "delete_existing_service" (VBool true) :: post ->
    poll_follows P service_name post.

Section StopShapes.
Context {W : Type} (P : Portal W).

Lemma polls_follow_none name tr : none is_deleted tr -> polls_follow P name tr.
Proof.
  intros Hnone pre post Heq.
  destruct (none_no_split is_deleted tr pre _ post Hnone Heq eq_refl).
Qed.

Lemma polls_follow_prefix name l tr :
  none is_deleted l -> polls_follow P name tr -> polls_follow P name (l ++ tr).
Proof.
  intros Hl Htr pre post Heq.
  destruct (split_after is_deleted l tr pre post
              (EReturn "delete_existing_service" (VBool true)) Hl eq_refl Heq)
    as (mid & _ & Hmid).
  exact (Htr mid post Hmid).
Qed.

Lemma wait_call_follows name r wtr tail :
  wait_call P name default_timeout r wtr ->
  (r = OutOfFuel -> tail = []) ->
  poll_follows P name (wtr ++ tail).
Proof.
  intros [start b ptr Hp | start ptr Hp] Htail.
  - exists start, (Ok b), ptr, (EReturn "wait_for_service_deletion" (VBool b) :: tail).
    split; [same_list|]. split; [exact Hp|]. now exists tail.
  - rewrite (Htail eq_refl), app_nil_r.
    exists start, OutOfFuel, ptr, []. rewrite app_nil_r. now repeat split.
Qed.

Lemma deletions_not_deleted rs b del : deletions rs b del -> none is_deleted del.
Proof. induction 1; none_auto. Qed.

(** A deletion that returned [True] and the poll after it. *)
Lemma delete_then_wait name dtr r wtr tail :
  delete_call P name true dtr ->
  wait_call P name default_timeout r wtr ->
  (r = OutOfFuel -> tail = []) ->
  polls_follow P name tail ->
  polls_follow P name (dtr ++ wtr ++ tail).
Proof.
  intros Hd Hw Hcut Htail pre post Heq.
  assert (none is_deleted wtr) as Hwtr by none_auto.
  inversion Hd as [rs b del Hdel]; subst.
  set (body := ECall "delete_existing_service"
                 :: ESearch (service_query P name) "Feature Service" 10 rs :: del) in *.
  assert (none is_deleted body) as Hbody.
  { subst body. do 2 (apply none_cons; [reflexivity|]).
    now apply deletions_not_deleted with rs true. }
  assert ((ECall "delete_existing_service"
             :: ESearch (service_query P name) "Feature Service" 10 rs
             :: del ++ [EReturn "delete_existing_service" (VBool true)])
            ++ wtr ++ tail
          = body ++ EReturn "delete_existing_service" (VBool true) :: wtr ++ tail)
    as Hshape by (subst body; same_list).
  rewrite Hshape in Heq. clear Hshape.
  destruct (split_after is_deleted body _ pre post
              (EReturn "delete_existing_service" (VBool true)) Hbody eq_refl Heq)
    as (mid & _ & Hmid).
  destruct mid as [|m mid]; cbn [app] in Hmid.
  - injection Hmid as <-. now apply wait_call_follows with r.
  - injection Hmid as _ Hmid.
    destruct (split_after is_deleted wtr tail mid post
                (EReturn "delete_existing_service" (VBool true)) Hwtr eq_refl Hmid)
      as (mid' & _ & Hmid').
    exact (Htail mid' post Hmid').
Qed.

Lemma delete_call_failed_none name dtr :
  delete_call P name false dtr -> none is_deleted dtr.
Proof.
  inversion 1 as [rs b del Hdel]; subst.
  do 2 (apply none_cons; [reflexivity|]).
  apply none_app; [now apply deletions_not_deleted with rs false | none_auto].
Qed.

Lemma reconcile_polls_follow name s rtr tail :
  reconcile P name s rtr ->
  (s <> Proceed -> tail = []) ->
  polls_follow P name tail ->
  polls_follow P name (rtr ++ tail).
Proof.
  intros [dtr Hd | dtr wtr Hd Hw | dtr wtr Hd Hw | dtr wtr Hd Hw] Hcut Htail.
  - rewrite Hcut by discriminate. apply polls_follow_none.
    apply none_app; [|none_auto].
    apply none_app; [now apply delete_call_failed_none with name | none_auto].
  - rewrite Hcut by discriminate. rewrite app_nil_r.
    apply delete_then_wait with (Ok false); try assumption; [discriminate|].
    apply polls_follow_none. none_auto.
  - rewrite <- app_assoc.
    apply delete_then_wait with (Ok true); try assumption. discriminate.
  - rewrite Hcut by discriminate. rewrite app_nil_r.
    rewrite <- (app_nil_r wtr).
    apply delete_then_wait with OutOfFuel; try assumption; [reflexivity|].
    apply polls_follow_none. none_auto.
Qed.

Lemma publish_trace_not_deleted itm name md rp ru :
  none is_deleted (publish_trace itm name md rp ru).
Proof. destruct rp as [[pi|]|e]; [destruct ru as [[]|e]|..]; cbn; none_auto. Qed.

Lemma configure_trace_not_deleted cfg name fs rd rs :
  none is_deleted (configure_trace cfg name fs rd rs).
Proof. destruct fs as [fs|], rd as [[]|ed], rs as [[]|es]; cbn; none_auto. Qed.

Lemma attempt_polls_follow cfg itm name md r atr :
  attempt P cfg itm name md r atr -> polls_follow P name atr.
Proof.
  intros [rp ru fs rd rs Hv | rp ru s rtr Hv Hr Hs | rp ru rtr rp' ru' rd rs Hv Hr].
  - apply polls_follow_none.
    apply none_app; [apply publish_trace_not_deleted | apply configure_trace_not_deleted].
  - apply polls_follow_prefix; [apply publish_trace_not_deleted|].
    apply (polls_follow_prefix name [_]); [none_auto|].
    rewrite <- (app_nil_r rtr).
    apply reconcile_polls_follow with s; [assumption | reflexivity |].
    apply polls_follow_none. none_auto.
  - apply polls_follow_prefix; [apply publish_trace_not_deleted|].
    apply (polls_follow_prefix name [_]); [none_auto|].
    apply reconcile_polls_follow with Proceed; [assumption | congruence |].
    apply polls_follow_none.
    apply none_app; [apply publish_trace_not_deleted | apply configure_trace_not_deleted].
Qed.

(** In a request every deletion that returned [True] is followed by the
    poll. *)
Lemma request_polls_follow cfg itm name md r tr :
  request P cfg itm name md r tr -> polls_follow P name tr.
Proof.
  intros [r0 atr Ha | x xs s rtr Hr Hs | x xs rtr r0 atr Hr Ha].
  - apply (polls_follow_prefix name [_]); [none_auto|].
    eapply attempt_polls_follow; eassumption.
  - apply (polls_follow_prefix name [_; _]); [none_auto|].
    rewrite <- (app_nil_r rtr).
    apply reconcile_polls_follow with s; [assumption | reflexivity |].
    apply polls_follow_none. none_auto.
  - apply (polls_follow_prefix name [_; _]); [none_auto|].
    apply reconcile_polls_follow with Proceed; [assumption | congruence |].
    eapply attempt_polls_follow; eassumption.
Qed.

Lemma publish_trace_publishes itm name md rp ru :
  List.filter is_publish (publish_trace itm name md rp ru) = [EPublish itm name rp].
Proof. destruct rp as [[pi|]|e]; [destruct ru as [[]|e]|..]; reflexivity. Qed.

(** A publish attempt that ends the request as skipped: one publish call,
    the conflict message, and the delete-and-wait step that stopped. *)
Lemma attempt_stop_shape cfg itm name md o atr :
  attempt P cfg itm name md (Ok o) atr ->
  o = SkippedTimeout \/ o = Failed ->
  exists rp ru rtr,
    atr = publish_trace itm name md rp ru ++ EPrint (Msg.conflict name) :: rtr /\
    reconcile P name (Stop o) rtr /\
    publish_value rp ru = None /\
    List.filter is_publish atr = [EPublish itm name rp].
Proof.
  inversion 1 as [rp ru fs rd rs Hv | rp ru s rtr Hv Hr Hs Hres
                 | rp ru rtr rp' ru' rd rs Hv Hr]; subst; intros Ho.
  - destruct Ho; discriminate.
  - destruct s as [|o'|]; [congruence| |discriminate].
    injection Hres as ->. exists rp, ru, rtr. repeat split; try assumption.
    rewrite List.filter_app, publish_trace_publishes. cbn.
    now rewrite (filter_none _ rtr (reconcile_no_publish P name _ _ Hr)).
  - exfalso. destruct (publish_value rp' ru'), Ho; discriminate.
Qed.

(** A request that ends as skipped: the delete-and-wait step that stopped
    is the one after the initial check, and the request has made no publish
    call; or it is the one of the retry cycle, and the request has made one
    publish call, before it. *)
Lemma request_stop_shape cfg itm name md o tr :
  request P cfg itm name md (Ok o) tr ->
  o = SkippedTimeout \/ o = Failed ->
  exists rtr,
    reconcile P name (Stop o) rtr /\
    ((exists x xs,
        tr = ESearch (service_query P name) "Feature Service" 1 (x :: xs)
               :: EPrint (Msg.exists_ name) :: rtr /\
        none is_publish tr) \/
     (exists before rp ru,
        tr = before ++ publish_trace itm name md rp ru
               ++ EPrint (Msg.conflict name) :: rtr /\
        publish_value rp ru = None /\
        List.filter is_publish tr = [EPublish itm name rp])).
Proof.
  inversion 1 as [r0 atr Ha | x xs s rtr Hr Hs Hres | x xs rtr r0 atr Hr Ha];
    subst; intros Ho.
  - destruct (attempt_stop_shape _ _ _ _ _ _ Ha Ho) as (rp & ru & rtr & -> & Hr & Hv & Hf).
    exists rtr. split; [exact Hr|]. right.
    exists [ESearch (service_query P name) "Feature Service" 1 []], rp, ru.
    repeat split; [exact Hv|]. cbn [app List.filter is_publish]. exact Hf.
  - destruct s as [|o'|]; [congruence| |discriminate].
    injection Hres as ->. exists rtr. split; [exact Hr|]. left. exists x, xs.
    split; [reflexivity|].
    do 2 (apply none_cons; [reflexivity|]).
    now apply (reconcile_no_publish P name (Stop o)).
  - destruct (attempt_stop_shape _ _ _ _ _ _ Ha Ho) as (rp & ru & rtr' & -> & Hr' & Hv & Hf).
    exists rtr'. split; [exact Hr'|]. right.
    exists (ESearch (service_query P name) "Feature Service" 1 (x :: xs)
              :: EPrint (Msg.exists_ name) :: rtr), rp, ru.
    split; [same_list|]. split; [exact Hv|].
    cbn [List.filter is_publish]. rewrite List.filter_app.
    now rewrite (filter_none _ rtr (reconcile_no_publish P name _ _ Hr)).
Qed.

End StopShapes.

(** C3 (amended).  In a request every call of [delete_existing_service]
    that returns [True] is followed by the deletion-confirmation poll: the
    clock is read, and while less than 180 seconds have passed since then the
    portal is queried for the service; no match ends the poll with [True], a
    match is followed by a 5 second sleep and the next round, and a reading
    of 180 seconds or more ends it with [False].  When a poll ends with
    [False], the request's outcome is [SkippedTimeout] and only the timeout
    message follows.  When that poll is the one after the initial check, the
    request has invoked no publish at all; when it is the one of the retry
    cycle, the request has invoked publish once, before the deletion and the
    poll, and not again.  A request ends as [SkippedTimeout] only in this
    way. *)
Theorem poll_timeout_skips_request {W} (P : Portal W) (fuel : nat)
    (cfg : Config) (single_publish : bool) (itm : Item) (w : W) :
  let service_name := request_name P cfg single_publish itm in
  let metadata := request_metadata cfg single_publish in
  let query := service_query P service_name in
  let run := process_item P fuel cfg single_publish itm w in
  (forall pre post,
     snd run = pre ++ EReturn "delete_existing_service" (VBool true) :: post ->
     exists start_time r tr rest,
       post = ECall "wait_for_service_deletion" :: ETime start_time :: tr ++ rest /\
       poll P service_name 180 start_time r tr /\
       match r with
       | Ok gone =>
           exists rest', rest = EReturn "wait_for_service_deletion" (VBool gone) :: rest'
       | _ => rest = []
       end) /\
  (forall pre post,
     snd run = pre ++ EReturn "wait_for_service_deletion" (VBool false) :: post ->
     fst (fst run) = Ok SkippedTimeout /\
     post = [EPrint (Msg.timeout service_name)] /\
     exists dtr wtr,
       delete_call P service_name true dtr /\
       wait_call P service_name 180 (Ok false) wtr /\
       ((exists x xs,
           snd run = ESearch query "Feature Service" 1 (x :: xs)
                       :: EPrint (Msg.exists_ service_name)
                       :: dtr ++ wtr ++ [EPrint (Msg.timeout service_name)] /\
           none is_publish (snd run)) \/
        (exists before rp ru,
           snd run = before ++ publish_trace itm service_name metadata rp ru
                       ++ EPrint (Msg.conflict service_name)
                       :: dtr ++ wtr ++ [EPrint (Msg.timeout service_name)] /\
           publish_value rp ru = None /\
           List.filter is_publish (snd run) = [EPublish itm service_name rp]))) /\
  (fst (fst run) = Ok SkippedTimeout ->
   exists pre,
     snd run = pre ++ [EReturn "wait_for_service_deletion" (VBool false);
                       EPrint (Msg.timeout service_name)]).
Proof.
  intros service_name metadata query run.
  destruct (process_item_request P fuel cfg single_publish itm w)
    as (r & w' & tr & Hrun & Hreq & _).
  subst run. rewrite Hrun. cbn [fst snd].
  pose proof (request_stops_at_timeout P _ _ _ _ _ _ Hreq) as Hstop.
  split; [|split].
  - exact (request_polls_follow P _ _ _ _ _ _ Hreq).
  - intros pre post Heq.
    destruct (stops_at_split _ _ _ _ _ _ _ Hstop Heq eq_refl) as (Ho & Hpost & _).
    assert (r = Ok SkippedTimeout) as ->
      by (destruct r as [[]| |]; cbn in Ho; congruence).
    split; [reflexivity|]. split; [exact Hpost|].
    destruct (request_stop_shape P _ _ _ _ _ _ Hreq (or_introl eq_refl))
      as (rtr & Hr & Hshape).
    inversion Hr as [|dtr wtr Hd Hw| |]; subst rtr.
    exists dtr, wtr. split; [exact Hd|]. split; [exact Hw|]. exact Hshape.
  - intros ->. cbn in Hstop. destruct Hstop as (body & y & -> & Hy & _).
    apply is_poll_timeout_inv in Hy. subst y. now exists body.
Qed.

(** A portal on which the stale service never disappears. *)
Definition world_stuck : Mock.World :=
  Mock.mkWorld 0 [] [Mock.stale] [] [] (Returned (Some Mock.svc)) [] [] [].

Lemma poll_timeout_skips_request_witness :
  let run := process_item Mock.portal polling_fuel CONFIG false Mock.shp world_stuck in
  exists pre post,
    snd run = pre ++ EReturn "wait_for_service_deletion" (VBool false) :: post /\
    fst (fst run) = Ok SkippedTimeout /\
    post = [EPrint (Msg.timeout "Parcels2024")] /\
    exists dtr wtr,
      delete_call Mock.portal "Parcels2024" true dtr /\
      wait_call Mock.portal "Parcels2024" 180 (Ok false) wtr /\
      ((exists x xs,
          snd run = ESearch (service_query Mock.portal "Parcels2024")
                      "Feature Service" 1 (x :: xs)
                      :: EPrint (Msg.exists_ "Parcels2024")
                      :: dtr ++ wtr ++ [EPrint (Msg.timeout "Parcels2024")] /\
          none is_publish (snd run)) \/
       (exists before rp ru,
          snd run = before ++ publish_trace Mock.shp "Parcels2024"
                                (request_metadata CONFIG false) rp ru
                      ++ EPrint (Msg.conflict "Parcels2024")
                      :: dtr ++ wtr ++ [EPrint (Msg.timeout "Parcels2024")] /\
          publish_value rp ru = None /\
          List.filter is_publish (snd run) = [EPublish Mock.shp "Parcels2024" rp])).
Proof.
  intros run.
  assert (snd run
          = firstn 155 (snd run)
              ++ EReturn "wait_for_service_deletion" (VBool false)
              :: skipn 156 (snd run)) as Hsplit by (vm_compute; reflexivity).
  exists (firstn 155 (snd run)), (skipn 156 (snd run)). split; [exact Hsplit|].
  exact (proj1 (proj2 (poll_timeout_skips_request Mock.portal polling_fuel CONFIG
                         false Mock.shp world_stuck)) _ _ Hsplit).
Defined.

(** The portal of the counterexample: nothing is found at first, publish
    answers [None], and the service found afterwards never disappears. *)
Definition world_conflict_then_stuck : Mock.World :=
  Mock.mkWorld 0 [[]] [Mock.stale] [] [Returned None] (Returned (Some Mock.svc)) [] [] [].

(** C3, as stated, fails: the poll of the retry cycle times out, the outcome
    is [SkippedTimeout], and publish has been invoked for the request. *)
Lemma timeout_after_publish_attempt :
  let run := process_item Mock.portal polling_fuel CONFIG false Mock.shp
               world_conflict_then_stuck in
  fst (fst run) = Ok SkippedTimeout /\
  length (List.filter is_poll_timeout (snd run)) = 1%nat /\
  List.filter is_publish (snd run) = [EPublish Mock.shp "Parcels2024" (Returned None)].
Proof. vm_compute. repeat split. Qed.

(** *** C5: a deletion that fails *)

Definition is_failed_outcome (r : res Outcome) : bool :=
  match r with Ok Failed => true | _ => false end.

Definition ok_delete (item : Item) : Event := EDelete item (Returned tt).

(** What the run does after a deletion has raised. *)
Definition after_failed_delete (service_name : string) (e : Event) : Trace :=
  match e with
  | EDelete item (Raised err) =>
      [EPrint ("❌ " ++ Msg.delete_error item err);
       ELog ERROR (Msg.delete_error item err);
       EReturn "delete_existing_service" (VBool false);
       EPrint (Msg.could_not_delete service_name)]
  | _ => []
  end.

Section FailedDelete.
Context {W : Type} (P : Portal W).

Lemma is_failed_delete_inv (e : Event) :
  is_failed_delete e = true -> exists item err, e = EDelete item (Raised err).
Proof. destruct e as [|item [|err]| | | | | | | | | |]; try discriminate. eauto. Qed.

(** Every match is deleted, in the order of the search results. *)
Lemma deletions_all rs dtr :
  deletions rs true dtr -> List.filter is_delete dtr = map ok_delete rs.
Proof.
  remember true as b eqn:Hb. induction 1 as [|item rest b tr _ IH|]; cbn.
  - reflexivity.
  - now rewrite IH.
  - discriminate.
Qed.

(** The loop stops at the first deletion that raises. *)
Lemma deletions_until_failure rs dtr :
  deletions rs false dtr ->
  exists done item err rest,
    rs = done ++ item :: rest /\
    List.filter is_delete dtr = map ok_delete done ++ [EDelete item (Raised err)].
Proof.
  remember false as b eqn:Hb. induction 1 as [|item rest b tr _ IH|item rest err].
  - discriminate.
  - destruct (IH Hb) as (done & item' & err & rest' & -> & Hf).
    exists (item :: done), item', err, rest'. cbn. now rewrite Hf.
  - now exists [], item, err, rest.
Qed.

Lemma deletions_ok_none rs dtr :
  deletions rs true dtr -> none is_failed_delete dtr.
Proof.
  remember true as b eqn:Hb. induction 1; [constructor| |discriminate].
  repeat (apply none_cons; [reflexivity|]). auto.
Qed.

Lemma deletions_failed_split rs dtr :
  deletions rs false dtr ->
  exists body item err,
    dtr = body ++ [EDelete item (Raised err);
                   EPrint ("❌ " ++ Msg.delete_error item err);
                   ELog ERROR (Msg.delete_error item err)] /\
    none is_failed_delete body.
Proof.
  remember false as b eqn:Hb. induction 1 as [|item rest b tr _ IH|item rest err].
  - discriminate.
  - destruct (IH Hb) as (body & item' & err & -> & Hbody).
    eexists (_ :: _ :: _ :: body), item', err. split; [reflexivity|].
    repeat (apply none_cons; [reflexivity|]). exact Hbody.
  - exists [], item, err. split; [reflexivity | constructor].
Qed.

Lemma delete_call_ok_none name dtr :
  delete_call P name true dtr -> none is_failed_delete dtr.
Proof.
  inversion 1 as [rs b tr Hd]; subst.
  repeat (apply none_cons; [reflexivity|]). apply none_app.
  - now apply deletions_ok_none with rs.
  - none_auto.
Qed.

Lemma reconcile_stops_at_failure name s rtr :
  reconcile P name s rtr ->
  stops_at is_failed_delete (after_failed_delete name)
    (is_failed_outcome (step_result s OutOfFuel)) rtr.
Proof.
  intros [dtr Hd | dtr wtr Hd Hw | dtr wtr Hd Hw | dtr wtr Hd Hw]; cbn.
  - inversion Hd as [rs b tr Hdel]; subst.
    destruct (deletions_failed_split rs tr Hdel) as (body & item & err & -> & Hbody).
    exists (ECall "delete_existing_service"
              :: ESearch (service_query P name) "Feature Service" 10 rs :: body),
      (EDelete item (Raised err)).
    split; [same_list|]. repeat split; cbn [after_failed_delete]; none_auto.
  - apply none_app; [now apply delete_call_ok_none with name | none_auto].
  - apply none_app; [now apply delete_call_ok_none with name | none_auto].
  - apply none_app; [now apply delete_call_ok_none with name | none_auto].
Qed.

Lemma attempt_stops_at_failure cfg itm name md r atr :
  attempt P cfg itm name md r atr ->
  stops_at is_failed_delete (after_failed_delete name) (is_failed_outcome r) atr.
Proof.
  intros [rp ru fs rd rs Hv | rp ru s rtr Hv Hr Hs | rp ru rtr rp' ru' rd rs Hv Hr].
  - cbn. none_auto.
  - apply stops_at_prefix; [none_auto|]. apply stops_at_cons; [reflexivity|].
    destruct s; [congruence| |]; now apply reconcile_stops_at_failure.
  - apply reconcile_stops_at_failure in Hr. cbn in Hr.
    replace (is_failed_outcome _) with false
      by now destruct (publish_value rp' ru').
    cbn. none_auto.
Qed.

Lemma request_stops_at_failure cfg itm name md r tr :
  request P cfg itm name md r tr ->
  stops_at is_failed_delete (after_failed_delete name) (is_failed_outcome r) tr.
Proof.
  intros [r0 atr Ha | x xs s rtr Hr Hs | x xs rtr r0 atr Hr Ha].
  - apply stops_at_cons; [reflexivity|].
    eapply attempt_stops_at_failure; eassumption.
  - do 2 (apply stops_at_cons; [reflexivity|]).
    destruct s; [congruence| |]; now apply reconcile_stops_at_failure.
  - do 2 (apply stops_at_cons; [reflexivity|]).
    apply reconcile_stops_at_failure in Hr. cbn in Hr.
    apply stops_at_prefix; [exact Hr|].
    eapply attempt_stops_at_failure; eassumption.
Qed.

End FailedDelete.

Section FoundMatch.
Context {W : Type} (P : Portal W).

(** A delete-and-wait step begins with the call of
    [delete_existing_service], its own query, and the deletions. *)
Lemma reconcile_deletes name s rtr :
  reconcile P name s rtr ->
  exists rs b dtr rest,
    rtr = ECall "delete_existing_service"
            :: ESearch (service_query P name) "Feature Service" 10 rs
            :: dtr ++ EReturn "delete_existing_service" (VBool b) :: rest /\
    deletions rs b dtr.
Proof.
  intros [dtr Hd | dtr wtr Hd _ | dtr wtr Hd _ | dtr wtr Hd _];
    inversion Hd as [rs b del Hdel]; subst;
    eexists rs, _, del, _; (split; [same_list | exact Hdel]).
Qed.

(** A request whose initial check finds a match goes on to the deletion. *)
Lemma request_found_deletes cfg itm name md r tr x xs rest :
  request P cfg itm name md r tr ->
  tr = ESearch (service_query P name) "Feature Service" 1 (x :: xs) :: rest ->
  exists rs b dtr rest',
    rest = EPrint (Msg.exists_ name)
             :: ECall "delete_existing_service"
             :: ESearch (service_query P name) "Feature Service" 10 rs
             :: dtr ++ EReturn "delete_existing_service" (VBool b) :: rest' /\
    deletions rs b dtr.
Proof.
  intros [r0 atr Ha | x' xs' s rtr Hr Hs | x' xs' rtr r0 atr Hr Ha] Heq;
    try discriminate;
    injection Heq as _ _ <-;
    destruct (reconcile_deletes name _ rtr Hr) as (rs & b & dtr & rest' & -> & Hdel).
  - exists rs, b, dtr, rest'. now split.
  - exists rs, b, dtr, (rest' ++ atr). split; [same_list | exact Hdel].
Qed.

End FoundMatch.

(** C5 (amended).  When the initial existence query finds a match, the
    request calls [delete_existing_service], which makes its own query, for
    up to 10 items, and requests the deletion of the items that query
    returns, in their order, up to the first deletion that raises: of all of
    them when none raises, and of none after one that raised.  When a
    deletion raises, the error is printed and logged, [delete_existing_service]
    returns [False], the request's outcome is [Failed], and only the skip
    message follows.  When that deletion is the one after the initial check,
    the request has invoked no publish at all; when it is the one of the
    retry cycle, the request has invoked publish once, before the deletion,
    and not again.  A request ends as [Failed] only in this way. *)
Theorem failed_deletion_fails_request {W} (P : Portal W) (fuel : nat)
    (cfg : Config) (single_publish : bool) (itm : Item) (w : W) :
  let service_name := request_name P cfg single_publish itm in
  let metadata := request_metadata cfg single_publish in
  let query := service_query P service_name in
  let run := process_item P fuel cfg single_publish itm w in
  (forall x xs rest,
     snd run = ESearch query "Feature Service" 1 (x :: xs) :: rest ->
     exists rs b dtr rest',
       rest = EPrint (Msg.exists_ service_name)
                :: ECall "delete_existing_service"
                :: ESearch query "Feature Service" 10 rs
                :: dtr ++ EReturn "delete_existing_service" (VBool b) :: rest' /\
       deletions rs b dtr /\
       if b then List.filter is_delete dtr = map ok_delete rs
       else exists done item err left,
           rs = done ++ item :: left /\
           List.filter is_delete dtr
           = map ok_delete done ++ [EDelete item (Raised err)]) /\
  (forall pre item err post,
     snd run = pre ++ EDelete item (Raised err) :: post ->
     fst (fst run) = Ok Failed /\
     post = [EPrint ("❌ " ++ Msg.delete_error item err);
             ELog ERROR (Msg.delete_error item err);
             EReturn "delete_existing_service" (VBool false);
             EPrint (Msg.could_not_delete service_name)] /\
     exists dtr,
       delete_call P service_name false dtr /\
       ((exists x xs,
           snd run = ESearch query "Feature Service" 1 (x :: xs)
                       :: EPrint (Msg.exists_ service_name)
                       :: dtr ++ [EPrint (Msg.could_not_delete service_name)] /\
           none is_publish (snd run)) \/
        (exists before rp ru,
           snd run = before ++ publish_trace itm service_name metadata rp ru
                       ++ EPrint (Msg.conflict service_name)
                       :: dtr ++ [EPrint (Msg.could_not_delete service_name)] /\
           publish_value rp ru = None /\
           List.filter is_publish (snd run) = [EPublish itm service_name rp]))) /\
  (fst (fst run) = Ok Failed ->
   exists pre item err post, snd run = pre ++ EDelete item (Raised err) :: post).
Proof.
  intros service_name metadata query run.
  destruct (process_item_request P fuel cfg single_publish itm w)
    as (r & w' & tr & Hrun & Hreq & _).
  subst run. rewrite Hrun. cbn [fst snd].
  pose proof (request_stops_at_failure P _ _ _ _ _ _ Hreq) as Hstop.
  split; [|split].
  - intros x xs rest Heq.
    destruct (request_found_deletes P _ _ _ _ _ _ _ _ _ Hreq Heq)
      as (rs & b & dtr & rest' & Hrest & Hdel).
    exists rs, b, dtr, rest'. split; [exact Hrest|]. split; [exact Hdel|].
    destruct b; [now apply deletions_all | now apply deletions_until_failure].
  - intros pre item err post Heq.
    destruct (stops_at_split _ _ _ _ _ _ _ Hstop Heq eq_refl) as (Ho & Hpost & _).
    assert (r = Ok Failed) as ->
      by (destruct r as [[]| |]; cbn in Ho; congruence).
    split; [reflexivity|]. split; [exact Hpost|].
    destruct (request_stop_shape P _ _ _ _ _ _ Hreq (or_intror eq_refl))
      as (rtr & Hr & Hshape).
    inversion Hr as [dtr Hd| | |]; subst rtr.
    exists dtr. split; [exact Hd | exact Hshape].
  - intros ->. cbn in Hstop. destruct Hstop as (body & y & -> & Hy & _).
    apply is_failed_delete_inv in Hy as (item & err & ->). eauto.
Qed.

(** A second service of the same title. *)
Definition stale_copy : Item :=
  mkItem "0a9b" "Parcels2024"
    "https://gis.czu.cz/server/rest/services/Hosted/Parcels2024_1/FeatureServer"
    "gis_admin".

(** A portal on which the query of the deletion step finds two services,
    and the first deletion raises. *)
Definition world_delete_fails_first : Mock.World :=
  Mock.mkWorld 0 [[Mock.stale]; [Mock.stale; stale_copy]] []
    [Raised "403 Forbidden"] [] (Returned (Some Mock.svc)) [] [] [].

(** A portal on which a stale service is found and deleted, publish answers
    [None], and the deletion of the retry cycle raises. *)
Definition world_retry_delete_fails : Mock.World :=
  Mock.mkWorld 0 [[Mock.stale]; [Mock.stale]; []; [Mock.stale]] []
    [Returned tt; Raised "403 Forbidden"] [Returned None]
    (Returned (Some Mock.svc)) [] [] [].

(** C5, as stated, fails twice.  On the first portal the deletion step finds
    two matches and the deletion of the first raises: the request ends as
    [Failed] and the deletion of the second match is never requested.  On the
    second portal a pre-existing match is found, a deletion call of the retry
    cycle fails, the outcome is [Failed], and a publish has been attempted for
    the request. *)
Lemma failed_deletion_leaves_match :
  let first := process_item Mock.portal polling_fuel CONFIG false Mock.shp
                 world_delete_fails_first in
  let second := process_item Mock.portal polling_fuel CONFIG false Mock.shp
                  world_retry_delete_fails in
  (fst (fst first) = Ok Failed /\
   List.filter is_search (snd first)
   = [ESearch (service_query Mock.portal "Parcels2024") "Feature Service" 1
        [Mock.stale];
      ESearch (service_query Mock.portal "Parcels2024") "Feature Service" 10
        [Mock.stale; stale_copy]] /\
   List.filter is_delete (snd first) = [EDelete Mock.stale (Raised "403 Forbidden")]) /\
  (fst (fst second) = Ok Failed /\
   head (snd second)
   = Some (ESearch (service_query Mock.portal "Parcels2024") "Feature Service" 1
             [Mock.stale]) /\
   List.filter is_failed_delete (snd second)
   = [EDelete Mock.stale (Raised "403 Forbidden")] /\
   List.filter is_publish (snd second)
   = [EPublish Mock.shp "Parcels2024" (Returned None)]).
Proof. vm_compute. repeat split. Qed.

(** A portal on which the deletion of the stale service raises. *)
Definition world_delete_fails : Mock.World :=
  Mock.mkWorld 0 [[Mock.stale]; [Mock.stale]] [] [Raised "403 Forbidden"] []
    (Returned (Some Mock.svc)) [] [] [].

Lemma failed_deletion_fails_request_witness :
  let run := process_item Mock.portal polling_fuel CONFIG false Mock.shp
               world_delete_fails in
  exists pre post,
    snd run = pre ++ EDelete Mock.stale (Raised "403 Forbidden") :: post /\
    fst (fst run) = Ok Failed /\
    post = [EPrint ("❌ " ++ Msg.delete_error Mock.stale "403 Forbidden");
            ELog ERROR (Msg.delete_error Mock.stale "403 Forbidden");
            EReturn "delete_existing_service" (VBool false);
            EPrint (Msg.could_not_delete "Parcels2024")] /\
    exists dtr,
      delete_call Mock.portal "Parcels2024" false dtr /\
      ((exists x xs,
          snd run = ESearch (service_query Mock.portal "Parcels2024")
                      "Feature Service" 1 (x :: xs)
                      :: EPrint (Msg.exists_ "Parcels2024")
                      :: dtr ++ [EPrint (Msg.could_not_delete "Parcels2024")] /\
          none is_publish (snd run)) \/
       (exists before rp ru,
          snd run = before ++ publish_trace Mock.shp "Parcels2024"
                                (request_metadata CONFIG false) rp ru
                      ++ EPrint (Msg.conflict "Parcels2024")
                      :: dtr ++ [EPrint (Msg.could_not_delete "Parcels2024")] /\
          publish_value rp ru = None /\
          List.filter is_publish (snd run) = [EPublish Mock.shp "Parcels2024" rp])).
Proof.
  intros run.
  assert (snd run
          = firstn 4 (snd run)
              ++ EDelete Mock.stale (Raised "403 Forbidden")
              :: skipn 5 (snd run)) as Hsplit by (vm_compute; reflexivity).
  exists (firstn 4 (snd run)), (skipn 5 (snd run)). split; [exact Hsplit|].
  exact (proj1 (proj2 (failed_deletion_fails_request Mock.portal polling_fuel CONFIG
                         false Mock.shp world_delete_fails)) _ _ _ _ Hsplit).
Defined.

(** *** C7: the share level *)





Section Sharing.
Context {W : Type} (P : Portal W).







End Sharing.




Section AfterPublish.
Context {W : Type} (P : Portal W).










End AfterPublish.





(** *** C8: every request of a run is processed *)

(** The existence queries stand outside every [try] (lines 50-52, 73-76 and
    188-190): reading [gis.users.me.username] and calling
    [gis.content.search] may raise, for instance when the connection to the
    portal is lost, and nothing in the script catches that exception.  [Gis]
    adds this to the portal: before the user name is read [me_error] says
    whether reading it raises, before a query is answered [search_error] says
    whether the query raises, and both say with what message and in which
    state they leave the world. *)
Record Gis (W : Type) := mkGis {
  gis_portal :> Portal W;
  me_error : W -> option (string * W);
  search_error : string -> string -> nat -> W -> option (string * W)
}.
Arguments gis_portal {W}.
Arguments me_error {W}.
Arguments search_error {W}.

(** The functions of the script that query the portal, with queries that
    may raise.  The functions that make no query are those of the first
    embedding. *)
Module Outage.

Section Script.
Context {W : Type} (G : Gis W).

(** [gis.users.me.username] *)
Definition users_me_username : M W string :=
  fun w => match me_error G w with
           | Some (e, w') => (Raise e, w', [])
           | None => (Ok (username G), w, [])
           end.

(** [gis.content.search(query=..., item_type=..., max_items=...)] *)
Definition gis_content_search (query item_type : string) (max_items : nat)
  : M W (list Item) :=
  fun w => match search_error G query item_type max_items w with
           | Some (e, w') => (Raise e, w', [])
           | None =>
               let '(l, w') := search G query item_type max_items w in
               (Ok l, w', [ESearch query item_type max_items l])
           end.

(** [f'title:"{service_name}" AND owner:{gis.users.me.username}'] *)
Definition service_query (service_name : string) : M W string :=
  u <- users_me_username;;
  ret ("title:" ++ dquote ++ service_name ++ dquote ++ " AND owner:" ++ u)%string.

Definition delete_existing_service (service_name : string) : M W bool :=
  call "delete_existing_service" VBool
    (query <- service_query service_name;;
     search_results <- gis_content_search query "Feature Service" 10;;
     match search_results with
     | _ :: _ => delete_each G search_results
     | [] => ret true
     end).

Fixpoint wait_loop (fuel : nat) (service_name : string) (timeout start_time : Q)
    (query : string) : M W bool :=
  match fuel with
  | O => out_of_fuel
  | S fuel' =>
      now <- time_time G;;
      if Qlt_le_dec (now - start_time) timeout then
        search_results <- gis_content_search query "Feature Service" 1;;
        match search_results with
        | [] => ret true
        | _ :: _ =>
            print ("Waiting for service '" ++ service_name ++ "' to be fully deleted...");;;
            time_sleep G 5;;;
            wait_loop fuel' service_name timeout start_time query
        end
      else ret false
  end.

Definition wait_for_service_deletion (fuel : nat) (service_name : string)
    (timeout : Q) : M W bool :=
  call "wait_for_service_deletion" VBool
    (start_time <- time_time G;;
     query <- service_query service_name;;
     wait_loop fuel service_name timeout start_time query).

Definition publish_and_configure (fuel : nat) (cfg : Config) (itm : Item)
    (service_name : string) (metadata : dict) : M W Outcome :=
  fs <- publish_feature_service G itm service_name metadata;;
  match fs with
  | None =>
      print ("⚠️ Conflict detected for '" ++ service_name ++ "'. Attempting to delete and republish...");;;
      deleted <- delete_existing_service service_name;;
      if deleted then
        gone <- wait_for_service_deletion fuel service_name default_timeout;;
        if gone then
          fs <- publish_feature_service G itm service_name metadata;;
          configure_and_share G cfg service_name fs
        else
          print ("❌ Timeout waiting for deletion of '" ++ service_name ++ "'. Skipping this item.");;;
          ret SkippedTimeout
      else
        print ("❌ Could not delete existing service '" ++ service_name ++ "'. Skipping this item.");;;
        ret Failed
  | Some _ => configure_and_share G cfg service_name fs
  end.

Definition process_item (fuel : nat) (cfg : Config) (single_publish : bool)
    (itm : Item) : M W Outcome :=
  let service_name :=
    if single_publish
    then dict_get (arcgis cfg) "service_name" (splitext_root G (title itm))
    else splitext_root G (title itm) in
  let metadata := if single_publish then get_user_metadata cfg else ∅ in
  query <- service_query service_name;;
  existing <- gis_content_search query "Feature Service" 1;;
  match existing with
  | _ :: _ =>
      print ("⚠️ Service '" ++ service_name ++ "' already exists. Deleting it automatically...");;;
      deleted <- delete_existing_service service_name;;
      if deleted then
        gone <- wait_for_service_deletion fuel service_name default_timeout;;
        if gone then publish_and_configure fuel cfg itm service_name metadata
        else
          print ("❌ Timeout waiting for deletion of '" ++ service_name ++ "'. Skipping this item.");;;
          ret SkippedTimeout
      else
        print ("❌ Could not delete existing service '" ++ service_name ++ "'. Skipping this item.");;;
        ret Failed
  | [] => publish_and_configure fuel cfg itm service_name metadata
  end.

Definition publish_loop (fuel : nat) (cfg : Config) (selected_items : list Item)
    : M W (list Outcome) :=
  let single_publish := Nat.eqb (length selected_items) 1 in
  for_each selected_items (process_item fuel cfg single_publish).

End Script.

End Outage.

(** *** Runs with failing queries and runs without *)

(** The exception [e] is one that reading the user name or a query raised,
    leaving the world in [w']. *)
Definition failure {W} (G : Gis W) (e : string) (w' : W) : Prop :=
  (exists w, me_error G w = Some (e, w')) \/
  (exists query item_type max_items w,
     search_error G query item_type max_items w = Some (e, w')).

(** A run with failing queries is the run without them, or it is cut short
    by the exception of a query. *)
Definition cut {W A} (G : Gis W) (new old : res A * W * Trace) : Prop :=
  new = old \/
  exists e w' tr rest,
    new = (Raise e, w', tr) /\ snd old = tr ++ rest /\ failure G e w'.

Definition sim {W A} (G : Gis W) (m' m : M W A) : Prop :=
  forall w, cut G (m' w) (m w).

Section Simulation.
Context {W : Type} (G : Gis W).

Lemma sim_refl {A} (m : M W A) : sim G m m.
Proof. intros w. now left. Qed.

Lemma sim_bind {A B} (m' m : M W A) (k' k : A -> M W B) :
  sim G m' m -> (forall a, sim G (k' a) (k a)) -> sim G (bind m' k') (bind m k).
Proof.
  intros Hm Hk w. unfold bind.
  destruct (Hm w) as [Heq | (e & w' & tr & rest & Hnew & Hold & Hf)].
  - rewrite Heq. destruct (m w) as [[[a|e|] w1] t1]; try (now left).
    destruct (Hk a w1) as [Heq' | (e & w' & tr & rest & Hnew & Hold & Hf)].
    + rewrite Heq'. now left.
    + rewrite Hnew. right. exists e, w', (t1 ++ tr), rest.
      split; [reflexivity|]. split; [|exact Hf].
      destruct (k a w1) as [[r w2] t2]. cbn [snd] in *. rewrite Hold. same_list.
  - rewrite Hnew. right.
    destruct (bind_trace_prefix m k w) as [more Hmore]. unfold bind in Hmore.
    exists e, w', tr, (rest ++ more). split; [reflexivity|]. split; [|exact Hf].
    rewrite Hmore, Hold. same_list.
Qed.

(** A step that leaves no event when it returns. *)
Lemma sim_bind_ret {A B} (m' : M W A) (a : A) (k' : A -> M W B) (m : M W B) :
  sim G m' (ret a) -> sim G (k' a) m -> sim G (bind m' k') m.
Proof.
  intros Hm Hk w. unfold bind.
  destruct (Hm w) as [Heq | (e & w' & tr & rest & Hnew & Hold & Hf)].
  - rewrite Heq. cbn.
    destruct (Hk w) as [Heq' | (e & w' & tr & rest & Hnew & Hold & Hf)].
    + rewrite Heq'. left. now destruct (m w) as [[r w2] t2].
    + rewrite Hnew. right. now exists e, w', tr, rest.
  - rewrite Hnew. right. cbn in Hold.
    destruct tr; [|discriminate].
    exists e, w', [], (snd (m w)). now repeat split.
Qed.

Lemma sim_call {A} (f : string) (repr : A -> Value) (body' body : M W A) :
  sim G body' body -> sim G (call f repr body') (call f repr body).
Proof.
  intros H. unfold call.
  apply sim_bind; [apply sim_refl|]. intros _.
  apply sim_bind; [exact H|]. intros r. apply sim_refl.
Qed.

Lemma sim_gis_content_search (query item_type : string) (max_items : nat) :
  sim G (Outage.gis_content_search G query item_type max_items)
    (gis_content_search G query item_type max_items).
Proof.
  intros w. unfold Outage.gis_content_search, gis_content_search.
  destruct (search_error G query item_type max_items w) as [[e w']|] eqn:He.
  - right. exists e, w', [], (snd (let '(l, w'0) := search G query item_type max_items w in
                                   (Ok l, w'0, [ESearch query item_type max_items l]))).
    repeat split. right. now exists query, item_type, max_items, w.
  - now left.
Qed.

Lemma sim_service_query (service_name : string) :
  sim G (Outage.service_query G service_name) (ret (service_query G service_name)).
Proof.
  intros w. unfold Outage.service_query, Outage.users_me_username, bind, ret.
  destruct (me_error G w) as [[e w']|] eqn:He.
  - right. exists e, w', [], []. repeat split. left. now exists w.
  - now left.
Qed.

Lemma sim_delete_existing_service (service_name : string) :
  sim G (Outage.delete_existing_service G service_name)
    (delete_existing_service G service_name).
Proof.
  unfold Outage.delete_existing_service, delete_existing_service.
  apply sim_call. cbv zeta.
  apply sim_bind_ret with (service_query G service_name);
    [apply sim_service_query|].
  apply sim_bind; [apply sim_gis_content_search|].
  intros [|x xs]; apply sim_refl.
Qed.

Lemma sim_wait_loop (fuel : nat) (service_name : string) (timeout start_time : Q)
    (query : string) :
  sim G (Outage.wait_loop G fuel service_name timeout start_time query)
    (wait_loop G fuel service_name timeout start_time query).
Proof.
  induction fuel as [|fuel IH]; [apply sim_refl|].
  cbn [Outage.wait_loop wait_loop].
  apply sim_bind; [apply sim_refl|]. intros now.
  destruct (Qlt_le_dec (now - start_time) timeout); [|apply sim_refl].
  apply sim_bind; [apply sim_gis_content_search|].
  intros [|x xs]; [apply sim_refl|].
  apply sim_bind; [apply sim_refl|]. intros _.
  apply sim_bind; [apply sim_refl|]. intros _. exact IH.
Qed.

Lemma sim_wait_for_service_deletion (fuel : nat) (service_name : string)
    (timeout : Q) :
  sim G (Outage.wait_for_service_deletion G fuel service_name timeout)
    (wait_for_service_deletion G fuel service_name timeout).
Proof.
  unfold Outage.wait_for_service_deletion, wait_for_service_deletion.
  apply sim_call. apply sim_bind; [apply sim_refl|]. intros start_time. cbv zeta.
  apply sim_bind_ret with (service_query G service_name);
    [apply sim_service_query|].
  apply sim_wait_loop.
Qed.

Lemma sim_publish_and_configure (fuel : nat) (cfg : Config) (itm : Item)
    (service_name : string) (metadata : dict) :
  sim G (Outage.publish_and_configure G fuel cfg itm service_name metadata)
    (publish_and_configure G fuel cfg itm service_name metadata).
Proof.
  unfold Outage.publish_and_configure, publish_and_configure.
  apply sim_bind; [apply sim_refl|]. intros [fs|]; [apply sim_refl|].
  apply sim_bind; [apply sim_refl|]. intros _.
  apply sim_bind; [apply sim_delete_existing_service|].
  intros [|]; [|apply sim_refl].
  apply sim_bind; [apply sim_wait_for_service_deletion|].
  intros [|]; apply sim_refl.
Qed.

Lemma sim_process_item (fuel : nat) (cfg : Config) (single_publish : bool)
    (itm : Item) :
  sim G (Outage.process_item G fuel cfg single_publish itm)
    (process_item G fuel cfg single_publish itm).
Proof.
  unfold Outage.process_item, process_item. cbv zeta.
  match goal with
  | |- sim _ (bind (Outage.service_query _ ?name) _) _ =>
      apply sim_bind_ret with (service_query G name); [apply sim_service_query|]
  end.
  apply sim_bind; [apply sim_gis_content_search|].
  intros [|x xs]; [apply sim_publish_and_configure|].
  apply sim_bind; [apply sim_refl|]. intros _.
  apply sim_bind; [apply sim_delete_existing_service|].
  intros [|]; [|apply sim_refl].
  apply sim_bind; [apply sim_wait_for_service_deletion|].
  intros [|]; [apply sim_publish_and_configure | apply sim_refl].
Qed.

Lemma sim_for_each {A B} (l : list A) (body' body : A -> M W B) :
  (forall x, sim G (body' x) (body x)) ->
  sim G (for_each l body') (for_each l body).
Proof.
  intros H. induction l as [|x rest IH]; [apply sim_refl|].
  cbn [for_each]. apply sim_bind; [apply H|]. intros o.
  apply sim_bind; [exact IH|]. intros os. apply sim_refl.
Qed.

Lemma sim_publish_loop (fuel : nat) (cfg : Config) (selected_items : list Item) :
  sim G (Outage.publish_loop G fuel cfg selected_items)
    (publish_loop G fuel cfg selected_items).
Proof.
  unfold Outage.publish_loop, publish_loop. cbv zeta.
  apply sim_for_each. intros itm. apply sim_process_item.
Qed.


End Simulation.

(** The requests of a run processed one after the other, each from the
    world its predecessor left. *)
Inductive processed {W} (G : Gis W) (fuel : nat) (cfg : Config)
    (single_publish : bool)
  : list Item -> W -> list Outcome -> W -> Trace -> Prop :=
| processed_none w : processed G fuel cfg single_publish [] w [] w []
| processed_next itm rest w o w1 t1 os w2 t2 :
    Outage.process_item G fuel cfg single_publish itm w = (Ok o, w1, t1) ->
    processed G fuel cfg single_publish rest w1 os w2 t2 ->
    processed G fuel cfg single_publish (itm :: rest) w (o :: os) w2 (t1 ++ t2).

Lemma processed_length {W} (G : Gis W) fuel cfg single items w os w' tr :
  processed G fuel cfg single items w os w' tr -> length os = length items.
Proof. induction 1; cbn; congruence. Qed.


Section Loop.
Context {W : Type} (G : Gis W) (HG : ClockOK G).
Context (fuel : nat) (Hfuel : (polling_fuel <= fuel)%nat).



End Loop.


(** A portal whose queries never raise. *)
Definition reliable {W} (P : Portal W) : Gis W := {|
  gis_portal := P;
  me_error := fun _ => None;
  search_error := fun _ _ _ _ => None
|}.

(** *** A portal that loses the connection *)

(** The scripted portal, with a connection that is lost after a number of
    queries: [Some n] allows [n] more queries, [None] any number. *)
Module Flaky.

Definition World : Type := Mock.World * option nat.

Definition lift {A} (f : Mock.World -> A * Mock.World) (w : World)
  : A * World :=
  let '(a, w') := f (fst w) in (a, (w', snd w)).

Definition portal : Portal World := {|
  username := username Mock.portal;
  search := fun query item_type max_items w =>
    let '(l, w') := search Mock.portal query item_type max_items (fst w) in
    (l, (w', option_map Nat.pred (snd w)));
  delete := fun item => lift (delete Mock.portal item);
  publish := fun item name => lift (publish Mock.portal item name);
  update := fun item props => lift (update Mock.portal item props);
  update_definition := fun service_url d =>
    lift (update_definition Mock.portal service_url d);
  share := fun item everyone org => lift (share Mock.portal item everyone org);
  time := lift (time Mock.portal);
  sleep := fun secs w => (sleep Mock.portal secs (fst w), snd w);
  splitext_root := splitext_root Mock.portal
|}.

Definition gis : Gis World := {|
  gis_portal := portal;
  me_error := fun _ => None;
  search_error := fun _ _ _ w =>
    match snd w with
    | Some O => Some ("ConnectionError: connection to the portal lost", w)
    | _ => None
    end
|}.

Lemma flaky_clock_ok : ClockOK portal.
Proof.
  split.
  - intros [w k]. unfold clock. cbn. apply Qle_refl.
  - intros q ty n [w k]. unfold clock. cbn.
    destruct (Mock.next (Mock.search_default w) (Mock.searches w)). cbn.
    apply Qle_refl.
  - intros secs [w k]. unfold clock. cbn. apply Qle_refl.
Qed.

End Flaky.



(** On that portal the first request ends as [Failed] and the second is
    published. *)
Example failed_request_then_published :
  fst (fst (Outage.publish_loop (reliable Mock.portal) polling_fuel CONFIG
              [Mock.shp; roads] world_delete_fails))
  = Ok [Failed; Published Mock.svc].
Proof. vm_compute. reflexivity. Qed.

(** * Further properties of the publishing script *)

(** ** How long a deletion-confirmation poll can take *)

(** The rounds of a poll that found the service: each reads the clock
    before the timeout is over, queries the portal, finds the service, prints
    the waiting message and sleeps 5 seconds. *)
Inductive poll_rounds {W} (P : Portal W) (service_name : string) (start_time : Q)
  : nat -> Trace -> Prop :=
| poll_rounds_none : poll_rounds P service_name start_time 0 []
| poll_rounds_next now x xs n tr :
    (now - start_time < default_timeout)%Q ->
    poll_rounds P service_name start_time n tr ->
    poll_rounds P service_name start_time (S n)
      (ETime now
         :: ESearch (service_query P service_name) "Feature Service" 1 (x :: xs)
         :: EPrint (Msg.waiting service_name)
         :: ESleep 5 :: tr).

(** The last evaluation of the loop condition, with the number of queries
    it makes: the query finds nothing, the timeout is over, or the query
    raises. *)
Inductive poll_end {W} (G : Gis W) (service_name : string) (start_time : Q)
  : res bool -> W -> nat -> Trace -> Prop :=
| poll_end_gone now w' :
    (now - start_time < default_timeout)%Q ->
    poll_end G service_name start_time (Ok true) w' 1
      [ETime now; ESearch (service_query G service_name) "Feature Service" 1 []]
| poll_end_timeout now w' :
    (default_timeout <= now - start_time)%Q ->
    poll_end G service_name start_time (Ok false) w' 0 [ETime now]
| poll_end_raised now e w0 w' :
    (now - start_time < default_timeout)%Q ->
    search_error G (service_query G service_name) "Feature Service" 1 w0
    = Some (e, w') ->
    poll_end G service_name start_time (Raise e) w' 1 [ETime now].

Section PollBound.
Context {W : Type} (G : Gis W) (HG : ClockOK G).

Lemma outage_wait_loop_S (service_name query : string) (timeout start_time : Q)
    (fuel : nat) :
  Outage.wait_loop G (S fuel) service_name timeout start_time query =
  (now <- time_time G;;
   if Qlt_le_dec (now - start_time) timeout then
     search_results <- Outage.gis_content_search G query "Feature Service" 1;;
     match search_results with
     | [] => ret true
     | _ :: _ =>
         print ("Waiting for service '" ++ service_name ++ "' to be fully deleted...");;;
         time_sleep G 5;;;
         Outage.wait_loop G fuel service_name timeout start_time query
     end
   else ret false).
Proof. reflexivity. Qed.

(** When at most [5 * n] seconds are left of the timeout, the loop ends
    after at most [n] queries. *)
Lemma wait_loop_rounds (service_name : string) (start_time : Q) (n : nat) :
  forall (fuel : nat) (w : W),
    (default_timeout - (clock G w - start_time) <= 5 * inject_Z (Z.of_nat n))%Q ->
    (S n <= fuel)%nat ->
    exists r w' k m rounds ending,
      Outage.wait_loop G fuel service_name default_timeout start_time
        (service_query G service_name) w = (r, w', rounds ++ ending) /\
      poll_rounds G service_name start_time k rounds /\
      poll_end G service_name start_time r w' m ending /\
      (k + m <= n)%nat.
Proof.
  induction n as [|n IH]; intros fuel w Hinv Hfuel;
    (destruct fuel as [|fuel]; [lia|]); rewrite outage_wait_loop_S;
    unfold bind at 1; unfold time_time at 1;
    pose proof (clock_after_time G HG w) as Ht; unfold clock in Ht, Hinv;
    destruct (time G w) as [now w1]; cbn [fst snd] in Ht, Hinv.
  - change (inject_Z (Z.of_nat 0)) with 0%Q in Hinv.
    destruct (Qlt_le_dec (now - start_time) default_timeout) as [Hlt|Hge];
      [exfalso; lra|].
    exists (Ok false), w1, 0%nat, 0%nat, [], [ETime now].
    split; [reflexivity|]. split; [constructor|]. split; [now constructor | lia].
  - destruct (Qlt_le_dec (now - start_time) default_timeout) as [Hlt|Hge].
    2:{ exists (Ok false), w1, 0%nat, 0%nat, [], [ETime now].
        split; [reflexivity|]. split; [constructor|]. split; [now constructor | lia]. }
    unfold bind at 1. unfold Outage.gis_content_search at 1.
    destruct (search_error G (service_query G service_name) "Feature Service" 1 w1)
      as [[e w2]|] eqn:He.
    { exists (Raise e), w2, 0%nat, 1%nat, [], [ETime now].
      split; [reflexivity|]. split; [constructor|].
      split; [now apply poll_end_raised with w1 | lia]. }
    pose proof (clock_after_search G HG (service_query G service_name)
                  "Feature Service" 1%nat w1) as Hs.
    unfold clock in Hs.
    destruct (search G (service_query G service_name) "Feature Service" 1 w1)
      as [[|x xs] w2].
    { exists (Ok true), w2, 0%nat, 1%nat, [],
        [ETime now; ESearch (service_query G service_name) "Feature Service" 1 []].
      split; [reflexivity|]. split; [constructor|]. split; [now constructor | lia]. }
    cbn [fst snd] in Hs.
    pose proof (clock_after_sleep G HG 5 w2) as Hz. unfold clock in Hz.
    destruct (IH fuel (sleep G 5 w2))
      as (r & w' & k & m & rounds & ending & Hrun & Hrounds & Hend & Hcount); [|lia|].
    { unfold clock. rewrite Nat2Z.inj_succ, <- Z.add_1_r, inject_Z_plus in Hinv.
      change (inject_Z 1) with 1%Q in Hinv. lra. }
    unfold bind, print, emit, time_sleep. cbn - [Outage.wait_loop]. rewrite Hrun.
    exists r, w', (S k), m,
      (ETime now
         :: ESearch (service_query G service_name) "Feature Service" 1 (x :: xs)
         :: EPrint (Msg.waiting service_name) :: ESleep 5 :: rounds), ending.
    split; [now destruct r|]. split; [now constructor|]. split; [exact Hend | lia].
Qed.

Lemma call_run {A} (f : string) (repr : A -> Value) (body : M W A) (w : W) :
  call f repr body w
  = match body w with
    | (Ok r, w1, t1) => (Ok r, w1, ECall f :: t1 ++ [EReturn f (repr r)])
    | (Raise e, w1, t1) => (Raise e, w1, ECall f :: t1)
    | (OutOfFuel, w1, t1) => (OutOfFuel, w1, ECall f :: t1)
    end.
Proof.
  unfold call, bind, emit, ret.
  destruct (body w) as [[[r|e|] w1] t1]; cbn; rewrite ?app_nil_r; reflexivity.
Qed.

Lemma service_query_run (service_name : string) (w : W) :
  Outage.service_query G service_name w
  = match me_error G w with
    | Some (e, w') => (Raise e, w', [])
    | None => (Ok (service_query G service_name), w, [])
    end.
Proof.
  unfold Outage.service_query, Outage.users_me_username, bind, ret.
  now destruct (me_error G w) as [[e w']|].
Qed.

End PollBound.

(** X1.  With a clock that does not run backwards and a sleep that lasts at
    least as long as asked, a call of [wait_for_service_deletion] with the
    default timeout ends after at most 36 existence queries.  It reads the
    clock, and then goes through rounds in which the clock shows less than
    180 seconds since the start, the query finds the service, the waiting
    message is printed and the script sleeps 5 seconds.  The call returns
    [True] after a query that found nothing, [False] after a clock reading of
    180 seconds or more since the start, without a further query; and it ends
    with an exception when reading the user name or a query raises. *)
Theorem wait_for_service_deletion_bounded {W} (G : Gis W) (HG : ClockOK G)
    (fuel : nat) (Hfuel : (polling_fuel <= fuel)%nat)
    (service_name : string) (w : W) :
  exists r w' start_time k rounds ending,
    Outage.wait_for_service_deletion G fuel service_name default_timeout w
    = (r, w',
       ECall "wait_for_service_deletion" :: ETime start_time :: rounds ++ ending) /\
    poll_rounds G service_name start_time k rounds /\
    match r with
    | Ok true =>
        exists now,
          ending = [ETime now;
                    ESearch (service_query G service_name) "Feature Service" 1 [];
                    EReturn "wait_for_service_deletion" (VBool true)] /\
          (now - start_time < 180)%Q /\ (k + 1 <= 36)%nat
    | Ok false =>
        exists now,
          ending = [ETime now; EReturn "wait_for_service_deletion" (VBool false)] /\
          (180 <= now - start_time)%Q /\ (k <= 36)%nat
    | Raise e =>
        (rounds = [] /\ ending = [] /\ exists w0, me_error G w0 = Some (e, w')) \/
        (exists now w0,
           ending = [ETime now] /\
           (now - start_time < 180)%Q /\ (k + 1 <= 36)%nat /\
           search_error G (service_query G service_name) "Feature Service" 1 w0
           = Some (e, w'))
    | OutOfFuel => False
    end.
Proof.
  unfold Outage.wait_for_service_deletion. rewrite call_run.
  unfold bind at 1. unfold time_time at 1.
  pose proof (clock_after_time G HG w) as Ht. unfold clock in Ht.
  destruct (time G w) as [start_time w1] eqn:Hw. cbn [fst snd] in Ht.
  unfold bind at 1. rewrite service_query_run.
  destruct (me_error G w1) as [[e w2]|] eqn:Hme.
  - exists (Raise e), w2, start_time, 0%nat, [], [].
    split; [reflexivity|]. split; [constructor|]. left.
    repeat split. now exists w1.
  - destruct (wait_loop_rounds G HG service_name start_time 36 fuel w1)
      as (r & w' & k & m & rounds & ending & Hrun & Hrounds & Hend & Hcount).
    { unfold default_timeout, clock. change (inject_Z (Z.of_nat 36)) with 36%Q. lra. }
    { unfold polling_fuel in Hfuel. lia. }
    rewrite Hrun. unfold default_timeout in *.
    inversion Hend as [now w0 Hlt | now w0 Hge | now e w0 w0' Hlt He]; subst.
    + exists (Ok true), w', start_time, k, rounds,
        [ETime now; ESearch (service_query G service_name) "Feature Service" 1 [];
         EReturn "wait_for_service_deletion" (VBool true)].
      split; [cbn; f_equal; f_equal; f_equal; same_list|].
      split; [exact Hrounds|]. exists now. repeat split; [exact Hlt | lia].
    + exists (Ok false), w', start_time, k, rounds,
        [ETime now; EReturn "wait_for_service_deletion" (VBool false)].
      split; [cbn; f_equal; f_equal; f_equal; same_list|].
      split; [exact Hrounds|]. exists now. repeat split; [exact Hge | lia].
    + exists (Raise e), w', start_time, k, rounds, [ETime now].
      split; [reflexivity|]. split; [exact Hrounds|]. right.
      exists now, w0. repeat split; [exact Hlt | lia | exact He].
Qed.

Lemma wait_for_service_deletion_bounded_witness :
  exists r w' start_time k rounds ending,
    Outage.wait_for_service_deletion Flaky.gis polling_fuel "Parcels2024"
      default_timeout (world_stuck, Some 3%nat)
    = (r, w',
       ECall "wait_for_service_deletion" :: ETime start_time :: rounds ++ ending) /\
    poll_rounds Flaky.gis "Parcels2024" start_time k rounds /\
    match r with
    | Ok true =>
        exists now,
          ending = [ETime now;
                    ESearch (service_query Flaky.gis "Parcels2024") "Feature Service" 1 [];
                    EReturn "wait_for_service_deletion" (VBool true)] /\
          (now - start_time < 180)%Q /\ (k + 1 <= 36)%nat
    | Ok false =>
        exists now,
          ending = [ETime now; EReturn "wait_for_service_deletion" (VBool false)] /\
          (180 <= now - start_time)%Q /\ (k <= 36)%nat
    | Raise e =>
        (rounds = [] /\ ending = [] /\
         exists w0, me_error Flaky.gis w0 = Some (e, w')) \/
        (exists now w0,
           ending = [ETime now] /\
           (now - start_time < 180)%Q /\ (k + 1 <= 36)%nat /\
           search_error Flaky.gis (service_query Flaky.gis "Parcels2024")
             "Feature Service" 1 w0
           = Some (e, w'))
    | OutOfFuel => False
    end.
Proof.
  apply (wait_for_service_deletion_bounded Flaky.gis Flaky.flaky_clock_ok polling_fuel
           (le_n polling_fuel) "Parcels2024" (world_stuck, Some 3%nat)).
Defined.

(** On that portal the connection is lost after three queries: the poll
    goes through three rounds, and the fourth query raises. *)
Example poll_cut_by_lost_connection :
  let run := Outage.wait_for_service_deletion Flaky.gis polling_fuel "Parcels2024"
               default_timeout (world_stuck, Some 3%nat) in
  fst (fst run) = Raise "ConnectionError: connection to the portal lost" /\
  count is_search (snd run) = 3%nat /\
  last (snd run) = Some (ETime 15).
Proof. vm_compute. repeat split. Qed.

(** ** What one call of [publish_feature_service] does *)

(** X2.  [publish_feature_service] never raises: it makes one publish call
    and at most one metadata update, deletes nothing, and returns an item
    exactly when publish returned that item and the update with the tags,
    description and categories of the metadata went through. *)
Theorem publish_feature_service_returns {W} (P : Portal W) (item : Item)
    (service_name : string) (metadata : dict) (w : W) :
  exists fs w' tr,
    publish_feature_service P item service_name metadata w = (Ok fs, w', tr) /\
    count is_publish tr = 1%nat /\
    (count is_update tr <= 1)%nat /\
    none is_delete tr /\
    forall published_item,
      fs = Some published_item <->
      In (EPublish item service_name (Returned (Some published_item))) tr /\
      In (EUpdate published_item (update_payload metadata) (Returned tt)) tr.
Proof.
  destruct (publish_feature_service_trace P item service_name metadata w)
    as (rp & ru & w' & Hrun).
  exists (publish_value rp ru), w', (publish_trace item service_name metadata rp ru).
  split; [exact Hrun|]. split; [apply count_publish_trace|].
  split; [|split; [none_auto|]].
  - destruct rp as [[pi|]|e]; [destruct ru as [[]|e]|..]; cbn; lia.
  - intros published_item.
    destruct rp as [[pi|]|e]; [destruct ru as [[]|e]|..]; cbn; split;
      try discriminate;
      try (intros [= ->]; split; tauto);
      intros [Hp Hu];
      repeat match goal with
             | H : _ \/ _ |- _ => destruct H as [H|H]; try discriminate
             | H : False |- _ => destruct H
             end;
      congruence.
Qed.

(** ** Configuring a published service *)

(** X3.  Once a service is published, neither a failure of the definition
    update nor a failure of the share call changes the outcome: the body
    makes one definition update with the fixed settings, then one share
    call, and ends as [Published] whatever the two calls answer. *)
Theorem configuration_failures_keep_published {W} (P : Portal W) (cfg : Config)
    (service_name : string) (fs : Item) (w : W) :
  exists rd everyone org rs w' tr,
    configure_and_share P cfg service_name (Some fs) w = (Ok (Published fs), w', tr) /\
    List.filter is_sdk_call tr
    = [EUpdateDefinition (url fs)
         {| capabilities := "Query, Editing, Extract";
            maxRecordCount := 5000;
            allowGeometryUpdates := true |} rd;
       EShare fs everyone org rs].
Proof.
  destruct (configure_and_share_trace P cfg service_name (Some fs) w)
    as (rd & rs & w' & Hrun).
  exists rd, (String.eqb (share_level cfg) "public"),
    (negb (String.eqb (share_level cfg) "public") && String.eqb (share_level cfg) "org"),
    rs, w', (configure_trace cfg service_name (Some fs) rd rs).
  split; [exact Hrun|].
  destruct rd as [[]|ed], rs as [[]|es]; reflexivity.
Qed.

(** ** What a request asks the portal about *)

(** The queries and the publish calls of a request for [itm] under
    [service_name]. *)
Definition on_target {W} (P : Portal W) (itm : Item) (service_name : string)
    (e : Event) : Prop :=
  match e with
  | ESearch query item_type _ _ =>
      query = service_query P service_name /\ item_type = "Feature Service"
  | EPublish item name _ => item = itm /\ name = service_name
  | _ => True
  end.

Section OnTarget.
Context {W : Type} (P : Portal W).

Lemma publish_trace_on_target itm name md rp ru :
  Forall (on_target P itm name) (publish_trace itm name md rp ru).
Proof. by_replies; repeat (constructor; [cbn; auto|]); constructor. Qed.

Lemma configure_trace_on_target cfg itm name fs rd rs :
  Forall (on_target P itm name) (configure_trace cfg name fs rd rs).
Proof. by_replies; repeat (constructor; [cbn; auto|]); constructor. Qed.

Ltac on_target_auto :=
  repeat first
    [ assumption
    | apply publish_trace_on_target
    | apply configure_trace_on_target
    | apply List.Forall_nil
    | apply Forall_app; split
    | apply List.Forall_cons; [cbn; auto|] ].

Lemma deletions_on_target itm name rs b tr :
  deletions rs b tr -> Forall (on_target P itm name) tr.
Proof. induction 1; on_target_auto. Qed.

Lemma delete_call_on_target itm name b tr :
  delete_call P name b tr -> Forall (on_target P itm name) tr.
Proof.
  intros [rs b' dtr Hd]. pose proof (deletions_on_target itm name _ _ _ Hd).
  on_target_auto.
Qed.

Lemma poll_on_target itm name timeout start r tr :
  poll P name timeout start r tr -> Forall (on_target P itm name) tr.
Proof. induction 1; on_target_auto. Qed.

Lemma wait_call_on_target itm name timeout r tr :
  wait_call P name timeout r tr -> Forall (on_target P itm name) tr.
Proof.
  intros [start b ptr Hp | start ptr Hp];
    pose proof (poll_on_target itm name _ _ _ _ Hp); on_target_auto.
Qed.

Lemma reconcile_on_target itm name s rtr :
  reconcile P name s rtr -> Forall (on_target P itm name) rtr.
Proof.
  intros [dtr Hd | dtr wtr Hd Hw | dtr wtr Hd Hw | dtr wtr Hd Hw];
    pose proof (delete_call_on_target itm name _ _ Hd);
    try pose proof (wait_call_on_target itm name _ _ _ Hw);
    on_target_auto.
Qed.

Lemma attempt_on_target cfg itm name md r atr :
  attempt P cfg itm name md r atr -> Forall (on_target P itm name) atr.
Proof.
  intros [rp ru fs rd rs Hv | rp ru s rtr Hv Hr Hs | rp ru rtr rp' ru' rd rs Hv Hr];
    try pose proof (reconcile_on_target itm name _ _ Hr);
    on_target_auto.
Qed.

Lemma request_on_target cfg itm name md r tr :
  request P cfg itm name md r tr -> Forall (on_target P itm name) tr.
Proof.
  intros [r' atr Ha | x xs s rtr Hr Hs | x xs rtr r' atr Hr Ha];
    try pose proof (reconcile_on_target itm name _ _ Hr);
    try pose proof (attempt_on_target _ _ _ _ _ _ Ha);
    on_target_auto.
Qed.

End OnTarget.

(** X4.  Whatever the portal answers, every query a request makes is the
    query for its own service name among the feature services of the current
    user, and every publish call publishes the selected item under that
    name. *)
Theorem request_stays_on_target {W} (P : Portal W) (fuel : nat) (cfg : Config)
    (single_publish : bool) (itm : Item) (w : W) :
  Forall (on_target P itm (request_name P cfg single_publish itm))
    (snd (process_item P fuel cfg single_publish itm w)).
Proof.
  destruct (process_item_request P fuel cfg single_publish itm w)
    as (r & w' & tr & -> & Hreq & _).
  now apply request_on_target with cfg (request_metadata cfg single_publish) r.
Qed.

(** ** The services a run reports as published *)

Section PublishedServices.
Context {W : Type} (P : Portal W).





End PublishedServices.

Section PublishedLoop.
Context {W : Type} (P : Portal W).



End PublishedLoop.



(** ** What failing queries do not change *)

Section FailingQueries.
Context {W : Type} (G : Gis W).

(** The trace of a request with failing queries begins the trace of the
    request without them. *)
Lemma outage_trace_prefix (fuel : nat) (cfg : Config) (single_publish : bool)
    (itm : Item) (w : W) :
  exists rest,
    snd (process_item G fuel cfg single_publish itm w)
    = snd (Outage.process_item G fuel cfg single_publish itm w) ++ rest.
Proof.
  destruct (sim_process_item G fuel cfg single_publish itm w)
    as [-> | (e & w' & tr & rest & -> & Hold & _)].
  - exists []. now rewrite app_nil_r.
  - now exists rest.
Qed.

Lemma process_item_publishes (HG : ClockOK G) (fuel : nat)
    (Hfuel : (polling_fuel <= fuel)%nat) (cfg : Config) (single_publish : bool)
    (itm : Item) (w : W) :
  (count is_publish (snd (process_item G fuel cfg single_publish itm w)) <= 2)%nat.
Proof.
  destruct (process_item_returns G HG fuel Hfuel cfg single_publish itm w)
    as (o & w' & tr & -> & Hreq). cbn [snd].
  destruct (request_attempt G _ _ _ _ _ _ Hreq)
    as [Hnone | (before & atr & -> & Hbefore & Hatt)].
  - rewrite count_none; [lia | exact Hnone].
  - destruct (attempt_one_retry G _ _ _ _ _ _ Hatt)
      as (rp0 & ru0 & rest & -> & Hcount & _).
    rewrite !count_app, (count_none _ before Hbefore), count_publish_trace. lia.
Qed.

End FailingQueries.

(** X21.  Also when queries may raise, whenever the run of a request
    invokes publish it is for the request's item and service name, and the
    most recent existence query before it, for that name and the current
    owner, returned no match. *)
Theorem failing_queries_keep_publish_guarded {W} (G : Gis W) (fuel : nat)
    (cfg : Config) (single_publish : bool) (itm : Item) (w : W)
    (pre post : Trace) (item : Item) (name : string) (rp : reply (option Item)) :
  snd (Outage.process_item G fuel cfg single_publish itm w)
  = pre ++ EPublish item name rp :: post ->
  item = itm /\ name = request_name G cfg single_publish itm /\
  exists max_items,
    last_search pre
    = Some (ESearch (service_query G (request_name G cfg single_publish itm))
              "Feature Service" max_items []).
Proof.
  intros Heq.
  destruct (outage_trace_prefix G fuel cfg single_publish itm w) as [rest Hold].
  rewrite Heq in Hold.
  destruct (process_item_request G fuel cfg single_publish itm w)
    as (r & w' & tr & Hrun & Hreq & _).
  rewrite Hrun in Hold. cbn [snd] in Hold.
  assert (tr = pre ++ EPublish item name rp :: (post ++ rest)) as Htr
    by (rewrite Hold; same_list).
  pose proof (request_publishes G _ _ _ _ _ _ Hreq) as Hall.
  rewrite Htr in Hall. apply Forall_app in Hall as [_ Hall].
  inversion Hall as [|? ? He _]; subst.
  destruct (He item name rp eq_refl) as [-> ->].
  split; [reflexivity|]. split; [reflexivity|].
  apply request_guarded in Hreq.
  exact (publishes_guarded_split _ None _ pre _ (post ++ rest) Hreq Htr eq_refl).
Qed.

(** A portal on which nothing is found at first and publish answers
    [None]; the connection is lost after the first query. *)
Definition world_conflict_then_outage : Flaky.World :=
  (Mock.mkWorld 0 [[]] [Mock.stale] [] [Returned None] (Returned (Some Mock.svc))
     [] [] [], Some 1%nat).

Lemma failing_queries_keep_publish_guarded_witness :
  let run := Outage.process_item Flaky.gis polling_fuel CONFIG false Mock.shp
               world_conflict_then_outage in
  fst (fst run) = Raise "ConnectionError: connection to the portal lost" /\
  exists pre post,
    snd run = pre ++ EPublish Mock.shp "Parcels2024" (Returned None) :: post /\
    Mock.shp = Mock.shp /\
    "Parcels2024" = request_name Flaky.gis CONFIG false Mock.shp /\
    exists max_items,
      last_search pre
      = Some (ESearch (service_query Flaky.gis
                         (request_name Flaky.gis CONFIG false Mock.shp))
                "Feature Service" max_items []).
Proof.
  intros run. split; [vm_compute; reflexivity|].
  assert (snd run
          = firstn 4 (snd run)
              ++ EPublish Mock.shp "Parcels2024" (Returned None)
              :: skipn 5 (snd run)) as Hsplit by (vm_compute; reflexivity).
  exists (firstn 4 (snd run)), (skipn 5 (snd run)). split; [exact Hsplit|].
  exact (failing_queries_keep_publish_guarded Flaky.gis polling_fuel CONFIG false
           Mock.shp world_conflict_then_outage _ _ _ _ _ Hsplit).
Defined.

(** X22.  Also when queries may raise, every query a request makes is the
    query for its own service name among the feature services of the current
    user, every publish call publishes the selected item under that name, and
    every metadata update carries the tags, the description and the
    categories of the request's metadata. *)
Theorem failing_queries_keep_request_on_target {W} (G : Gis W) (fuel : nat)
    (cfg : Config) (single_publish : bool) (itm : Item) (w : W) :
  Forall (on_target G itm (request_name G cfg single_publish itm))
    (snd (Outage.process_item G fuel cfg single_publish itm w)) /\
  updates_carry (update_payload (request_metadata cfg single_publish))
    (snd (Outage.process_item G fuel cfg single_publish itm w)).
Proof.
  destruct (outage_trace_prefix G fuel cfg single_publish itm w) as [rest Hold].
  pose proof (process_item_updates G fuel cfg single_publish itm w) as Hup.
  destruct (process_item_request G fuel cfg single_publish itm w)
    as (r & w' & tr & Hrun & Hreq & _).
  rewrite Hrun in Hold. cbn [snd] in Hold.
  apply request_on_target in Hreq.
  rewrite Hold in Hreq. apply Forall_app in Hreq as [Hreq _].
  unfold updates_carry in Hup. rewrite Hrun in Hup. cbn [snd] in Hup.
  rewrite Hold in Hup. apply Forall_app in Hup as [Hup _].
  split; [exact Hreq | exact Hup].
Qed.

(** X23.  Also when queries may raise, with a clock that does not run
    backwards publish is invoked at most twice for a request. *)
Theorem failing_queries_keep_single_retry {W} (G : Gis W) (HG : ClockOK G)
    (fuel : nat) (Hfuel : (polling_fuel <= fuel)%nat)
    (cfg : Config) (single_publish : bool) (itm : Item) (w : W) :
  (count is_publish (snd (Outage.process_item G fuel cfg single_publish itm w))
   <= 2)%nat.
Proof.
  destruct (outage_trace_prefix G fuel cfg single_publish itm w) as [rest Hold].
  pose proof (process_item_publishes G HG fuel Hfuel cfg single_publish itm w)
    as Hcount.
  rewrite Hold, count_app in Hcount. lia.
Qed.

Lemma failing_queries_keep_single_retry_witness :
  (count is_publish
     (snd (Outage.process_item Flaky.gis polling_fuel CONFIG false Mock.shp
             world_conflict_then_outage)) <= 2)%nat.
Proof.
  apply (failing_queries_keep_single_retry Flaky.gis Flaky.flaky_clock_ok
           polling_fuel (le_n polling_fuel) CONFIG false Mock.shp
           world_conflict_then_outage).
Defined.

(** * Discovery, selection and preview *)

(** ** The console and the built-ins *)

(** [input] and [webbrowser.open], over the same world as the portal, and
    the [type] attribute of a portal item. *)
Record Console (W : Type) := mkConsole {
  input : string -> W -> reply string * W;
  webbrowser_open : string -> W -> reply bool * W;
  type_ : Item -> string
}.
Arguments input {W}.
Arguments webbrowser_open {W}.
Arguments type_ {W}.

(** [str.strip], [str.lower] and [int]; [int] answers [None] where Python
    raises [ValueError]. *)
Record Builtins := mkBuiltins {
  strip : string -> string;
  lower : string -> string;
  int : string -> option Z
}.

(** [s.split(sep)] for a separator of one character. *)
Fixpoint split (sep : Ascii.ascii) (s : string) : list string :=
  match s with
  | EmptyString => [EmptyString]
  | String c rest =>
      if Ascii.eqb c sep then EmptyString :: split sep rest
      else match split sep rest with
           | piece :: pieces => String c piece :: pieces
           | [] => [String c EmptyString]
           end
  end.

Definition comma : Ascii.ascii := Ascii.ascii_of_nat 44.
Definition newline : string := String (Ascii.ascii_of_nat 10) EmptyString.

(** [l[i]] with Python's negative indices; [None] is [IndexError]. *)
Definition getitem {A} (l : list A) (i : Z) : option A :=
  if (0 <=? i)%Z then l !! Z.to_nat i
  else if (- Z.of_nat (length l) <=? i)%Z then l !! Z.to_nat (Z.of_nat (length l) + i)
  else None.

(** [[int(x.strip()) for x in pieces]] *)
Fixpoint parse_indices (B : Builtins) (pieces : list string) : option (list Z) :=
  match pieces with
  | [] => Some []
  | x :: rest =>
      match int B (strip B x) with
      | Some i =>
          match parse_indices B rest with
          | Some indices => Some (i :: indices)
          | None => None
          end
      | None => None
      end
  end.

(** [[options[i] for i in indices if i < len(options)]] *)
Fixpoint pick {A} (options : list A) (indices : list Z) : option (list A) :=
  match indices with
  | [] => Some []
  | i :: rest =>
      if (i <? Z.of_nat (length options))%Z then
        match getitem options i with
        | Some opt =>
            match pick options rest with
            | Some picked => Some (opt :: picked)
            | None => None
            end
        | None => None
        end
      else pick options rest
  end.

Section Selection.
Context {W : Type} (P : Portal W) (C : Console W) (B : Builtins).

Definition console_input (prompt : string) : M W string :=
  fun w => let '(r, w') := input C prompt w in (of_reply r, w', []).

Definition open_browser (address : string) : M W bool :=
  fun w => let '(r, w') := webbrowser_open C address w in (of_reply r, w', []).

(** [f'type:"{ftype}" AND owner:{username}'] *)
Definition type_query (ftype : string) : string :=
  ("type:" ++ dquote ++ ftype ++ dquote ++ " AND owner:" ++ username P)%string.

(** The loop of [get_portal_files]; the search leaves [item_type] at its
    default, written as the empty string. *)
Fixpoint search_each (file_types : list string) (items : list Item)
  : M W (list Item) :=
  match file_types with
  | [] => ret items
  | ftype :: rest =>
      results <- gis_content_search P (type_query ftype) "" 100;;
      search_each rest (items ++ results)
  end.

Definition get_portal_files (file_types : list string) : M W (list Item) :=
  search_each file_types [].

(** [for idx, opt in enumerate(options): print(...)], from index [idx] on. *)
Fixpoint print_listing (idx : nat) (options : list Item) : M W unit :=
  match options with
  | [] => ret tt
  | opt :: rest =>
      print ("[" ++ pretty idx ++ "] " ++ title opt ++ " (" ++ type_ C opt ++ ")");;;
      print_listing (S idx) rest
  end.

Definition interactive_selection (options : list Item) : M W (list Item) :=
  match options with
  | [] => ret []
  | _ :: _ =>
      print (newline ++ "Discovered items:");;;
      print_listing 0 options;;;
      answer <- console_input "Enter the indices to publish (e.g., 0,2,3) or 'all': ";;
      let choice := strip B answer in
      if String.eqb (lower B choice) "all" then ret options
      else
        match parse_indices B (split comma choice) with
        | Some indices =>
            match pick options indices with
            | Some picked => ret picked
            | None =>
                print "Invalid input. Publishing all discovered items.";;;
                ret options
            end
        | None =>
            print "Invalid input. Publishing all discovered items.";;;
            ret options
        end
  end.

(** Lines 252-261: the preview offered for each published service. *)
Fixpoint preview_each (services : list Item) : M W unit :=
  match services with
  | [] => ret tt
  | service :: rest =>
      answer <- console_input
        ("Do you want to preview the map for " ++ title service ++ "? (y/n): ");;
      let preview_choice := lower B (strip B answer) in
      (if String.eqb preview_choice "y" then
         let map_viewer_url :=
           ("https://www.arcgis.com/apps/mapviewer/index.html?url=" ++ url service
              ++ "&source=sd")%string in
         try_except
           (open_browser map_viewer_url;;;
            print ("🔍 Opening map preview: " ++ map_viewer_url))
           (fun e =>
            print ("❌ Failed to open map preview: " ++ e);;;
            logging_error ("Failed to open map preview for " ++ title service
                           ++ ": " ++ e))
       else ret tt);;;
      preview_each rest
  end.

(** Lines 161-263, the script from the discovery on.  [None] stands for
    the [sys.exit()] taken when nothing is discovered. *)
Definition main (fuel : nat) (cfg : Config) : M W (option (list Item)) :=
  discovered_items <- get_portal_files ["Shapefile"];;
  match discovered_items with
  | [] =>
      print "No matching items found in your portal content.";;;
      ret None
  | _ :: _ =>
      selected_items <- interactive_selection discovered_items;;
      print (newline ++ "Selected items to publish:");;;
      print_listing 0 selected_items;;;
      outcomes <- publish_loop P fuel cfg selected_items;;
      preview_each (published_services outcomes);;;
      print "🚀 Publishing process completed.";;;
      ret (Some (published_services outcomes))
  end.

End Selection.

(** ** Picking by index *)

Lemma getitem_In {A} (l : list A) (i : Z) (x : A) : getitem l i = Some x -> In x l.
Proof.
  unfold getitem. intros H. apply list_elem_of_In.
  destruct (0 <=? i)%Z; [now apply list_elem_of_lookup_2 in H|].
  destruct (- Z.of_nat (length l) <=? i)%Z; [|discriminate].
  now apply list_elem_of_lookup_2 in H.
Qed.

Lemma pick_In {A} (options : list A) (indices : list Z) :
  forall picked, pick options indices = Some picked ->
    forall x, In x picked -> In x options.
Proof.
  induction indices as [|i rest IH]; intros picked; cbn.
  - intros [= <-] x [].
  - destruct (i <? Z.of_nat (length options))%Z; [|exact (IH picked)].
    destruct (getitem options i) as [opt|] eqn:Hopt; [|discriminate].
    destruct (pick options rest) as [picked'|]; [|discriminate].
    intros [= <-] x [<- | Hx]; [now apply getitem_In with i | now apply (IH picked')].
Qed.

(** An index from [-len] up to [len - 1] counts modulo the length. *)
Lemma getitem_mod {A} (l : list A) (i : Z) :
  (- Z.of_nat (length l) <= i < Z.of_nat (length l))%Z ->
  getitem l i = l !! Z.to_nat (i mod Z.of_nat (length l)) /\
  is_Some (getitem l i).
Proof.
  intros Hi. unfold getitem.
  destruct (Z.leb_spec 0 i) as [Hpos|Hneg].
  - rewrite Z.mod_small by lia. split; [reflexivity|].
    apply lookup_lt_is_Some. lia.
  - destruct (Z.leb_spec (- Z.of_nat (length l)) i) as [_|Hlow]; [|lia].
    replace (i mod Z.of_nat (length l))%Z with (Z.of_nat (length l) + i)%Z.
    + split; [reflexivity|]. apply lookup_lt_is_Some. lia.
    + apply Z.mod_unique with (-1)%Z; lia.
Qed.

(** Without an [IndexError] the comprehension keeps the indices below the
    length and takes each modulo the length; an index below [-len] raises. *)
Lemma pick_spec {A} (options : list A) (indices : list Z) :
  pick options indices
  = if forallb (fun i => - Z.of_nat (length options) <=? i)%Z indices
    then Some (omap (fun i => options !! Z.to_nat (i mod Z.of_nat (length options)))
                 (List.filter (fun i => i <? Z.of_nat (length options))%Z indices))
    else None.
Proof.
  induction indices as [|i rest IH]; [reflexivity|].
  cbn [pick forallb List.filter].
  destruct (Z.ltb_spec i (Z.of_nat (length options))) as [Hlt|Hge].
  - destruct (Z.leb_spec (- Z.of_nat (length options)) i) as [Hlow|Hlow]; cbn [andb].
    + destruct (getitem_mod options i) as [Heq [opt Hopt]]; [lia|].
      rewrite Hopt, IH. rewrite Heq in Hopt.
      destruct (forallb _ rest); [|reflexivity].
      cbn [omap list_omap]. now rewrite Hopt.
    + unfold getitem.
      destruct (Z.leb_spec 0 i); [lia|].
      destruct (Z.leb_spec (- Z.of_nat (length options)) i); [lia|reflexivity].
  - destruct (Z.leb_spec (- Z.of_nat (length options)) i) as [Hlow|Hlow]; [|lia].
    exact IH.
Qed.

(** ** What discovery, selection and preview leave in the trace *)

Section TraceOfBind.
Context {W : Type}.

Lemma bind_Forall {A B} (Q : Event -> Prop) (m : M W A) (k : A -> M W B) (w : W) :
  Forall Q (snd (m w)) ->
  (forall a w1 t1, m w = (Ok a, w1, t1) -> Forall Q (snd (k a w1))) ->
  Forall Q (snd (bind m k w)).
Proof.
  unfold bind. destruct (m w) as [[[a|e|] w1] t1]; cbn; intros Hm Hk; auto.
  specialize (Hk a w1 t1 eq_refl).
  destruct (k a w1) as [[r w2] t2]. cbn in *. apply Forall_app. now split.
Qed.

Lemma try_except_Forall {A} (Q : Event -> Prop) (m : M W A)
    (h : string -> M W A) (w : W) :
  Forall Q (snd (m w)) ->
  (forall e w1 t1, m w = (Raise e, w1, t1) -> Forall Q (snd (h e w1))) ->
  Forall Q (snd (try_except m h w)).
Proof.
  unfold try_except. destruct (m w) as [[[a|e|] w1] t1]; cbn; intros Hm Hh; auto.
  specialize (Hh e w1 t1 eq_refl).
  destruct (h e w1) as [[r w2] t2]. cbn in *. apply Forall_app. now split.
Qed.

End TraceOfBind.

Section SelectionFacts.
Context {W : Type} (P : Portal W) (C : Console W) (B : Builtins).

Lemma search_each_trace (file_types : list string) :
  forall (items : list Item) (w : W),
    exists rss w',
      search_each P file_types items w
      = (Ok (items ++ concat rss), w',
         zip_with (fun ftype rs => ESearch (type_query P ftype) "" 100 rs)
           file_types rss) /\
      length rss = length file_types.
Proof.
  induction file_types as [|ftype rest IH]; intros items w.
  - exists [], w. cbn. now rewrite app_nil_r.
  - cbn [search_each]. unfold bind, gis_content_search.
    destruct (search P (type_query P ftype) "" 100 w) as [rs w1] eqn:Hs.
    destruct (IH (items ++ rs) w1) as (rss & w' & Hrun & Hlen).
    rewrite Hrun. exists (rs :: rss), w'. split; [|cbn; lia].
    cbn. now rewrite <- app_assoc.
Qed.

Lemma print_listing_run (options : list Item) :
  forall (idx : nat) (w : W),
    exists tr,
      print_listing C idx options w = (Ok tt, w, tr) /\
      Forall (fun e => is_output e = true) tr.
Proof.
  induction options as [|opt rest IH]; intros idx w.
  - exists []. split; [reflexivity | constructor].
  - destruct (IH (S idx) w) as (tr & Hrun & Htr).
    cbn [print_listing]. unfold bind, print, emit. rewrite Hrun.
    eexists. split; [reflexivity|]. cbn. now constructor.
Qed.

(** The selection reads one line and returns options only. *)
Lemma interactive_selection_run (options : list Item) (w : W) :
  exists r w' tr,
    interactive_selection C B options w = (r, w', tr) /\
    Forall (fun e => is_output e = true) tr /\
    match r with
    | Ok selected => forall x, In x selected -> In x options
    | Raise e => exists prompt, input C prompt w = (Raised e, w')
    | OutOfFuel => False
    end.
Proof.
  destruct options as [|opt rest].
  - exists (Ok []), w, []. repeat split; [constructor | intros x []].
  - unfold interactive_selection. set (options := opt :: rest).
    destruct (print_listing_run options 0 w) as (ltr & Hlist & Hltr).
    unfold bind at 1. unfold print at 1, emit at 1.
    unfold bind at 1. rewrite Hlist.
    unfold bind at 1. unfold console_input at 1.
    assert (forall tail, Forall (fun e => is_output e = true) tail ->
              Forall (fun e => is_output e = true)
                ([EPrint (newline ++ "Discovered items:")] ++ ltr ++ [] ++ tail))
      as Hout.
    { intros tail Htail. constructor; [reflexivity|].
      apply Forall_app. now split. }
    destruct (input C _ w) as [[answer|e] w1] eqn:Hin; cbn [of_reply].
    2:{ eexists _, _, _. split; [reflexivity|]. split; [|eauto].
        cbn. constructor; [reflexivity|]. now rewrite !app_nil_r. }
    destruct (String.eqb (lower B (strip B answer)) "all").
    { eexists _, _, _. split; [reflexivity|]. split; [|auto].
      apply Hout. constructor. }
    destruct (parse_indices B (split comma (strip B answer))) as [indices|].
    + destruct (pick options indices) as [picked|] eqn:Hpick.
      * eexists _, _, _. split; [reflexivity|]. split.
        -- apply Hout. constructor.
        -- now apply pick_In with indices.
      * eexists _, _, _. split; [reflexivity|]. split; [|auto].
        apply Hout. repeat constructor.
    + eexists _, _, _. split; [reflexivity|]. split; [|auto].
      apply Hout. repeat constructor.
Qed.

Lemma preview_each_output (services : list Item) :
  forall w, Forall (fun e => is_output e = true) (snd (preview_each C B services w)).
Proof.
  induction services as [|service rest IH]; intros w; [constructor|].
  cbn [preview_each]. apply bind_Forall.
  - unfold console_input. destruct (input C _ w) as [r w1]. constructor.
  - intros answer w1 _ _. apply bind_Forall; [|intros; apply IH].
    destruct (String.eqb (lower B (strip B answer)) "y"); [|constructor].
    apply try_except_Forall.
    + apply bind_Forall.
      * unfold open_browser. destruct (webbrowser_open C _ w1) as [r w2]. constructor.
      * intros. repeat constructor.
    + intros. apply bind_Forall; intros; repeat constructor.
Qed.

End SelectionFacts.

(** X6.  [get_portal_files] makes one search per file type, in the order of
    the list, each for the items of that type owned by the current user and
    with at most 100 results asked for, and returns the results of the
    searches one after the other. *)
Theorem get_portal_files_searches {W} (P : Portal W) (file_types : list string)
    (w : W) :
  exists rss w',
    get_portal_files P file_types w
    = (Ok (concat rss), w',
       zip_with (fun ftype rs => ESearch (type_query P ftype) "" 100 rs)
         file_types rss) /\
    length rss = length file_types.
Proof. exact (search_each_trace P file_types [] w). Qed.

(** X7.  Whatever is typed, and whatever [strip], [lower] and [int] make of
    it, [interactive_selection] only prints, and what it returns are items
    of the list it was given; it raises only when [input] does. *)
Theorem interactive_selection_picks_options {W} (C : Console W) (B : Builtins)
    (options : list Item) (w : W) :
  Forall (fun e => is_output e = true) (snd (interactive_selection C B options w)) /\
  match fst (fst (interactive_selection C B options w)) with
  | Ok selected => incl selected options
  | Raise e =>
      exists prompt w', input C prompt w = (Raised e, w')
  | OutOfFuel => False
  end.
Proof.
  destruct (interactive_selection_run C B options w) as (r & w' & tr & -> & Htr & Hr).
  split; [exact Htr|]. cbn [fst].
  destruct r as [selected|e|]; [exact Hr | | exact Hr].
  destruct Hr as [prompt Hin]. eauto.
Qed.

(** The selection that the indices typed stand for: those below the number
    of options, each counted modulo that number; all options when an index
    lies below its negative, or when the line is no list of integers. *)
Definition indexed_selection (B : Builtins) (options : list Item)
    (choice : string) : list Item :=
  match parse_indices B (split comma choice) with
  | Some indices =>
      if forallb (fun i => - Z.of_nat (length options) <=? i)%Z indices
      then omap (fun i => options !! Z.to_nat (i mod Z.of_nat (length options)))
             (List.filter (fun i => i <? Z.of_nat (length options))%Z indices)
      else options
  | None => options
  end.

(** X8.  When the line typed is not [all], the items selected are those at
    the indices typed, in the order typed and as often as typed: an index
    from the number of options on is dropped, a negative index counts from
    the end, and an index below the negative number of options, like a
    piece that is no integer, selects every option. *)
Theorem interactive_selection_by_indices {W} (C : Console W) (B : Builtins)
    (options : list Item) (w w1 : W) (answer : string) :
  options <> [] ->
  input C "Enter the indices to publish (e.g., 0,2,3) or 'all': " w
    = (Returned answer, w1) ->
  lower B (strip B answer) <> "all" ->
  exists tr,
    interactive_selection C B options w
    = (Ok (indexed_selection B options (strip B answer)), w1, tr).
Proof.
  intros Hne Hin Hall.
  destruct options as [|opt rest]; [congruence|].
  unfold interactive_selection, indexed_selection. set (options := opt :: rest).
  destruct (print_listing_run C options 0 w) as (ltr & Hlist & _).
  unfold bind at 1. unfold print at 1, emit at 1.
  unfold bind at 1. rewrite Hlist.
  unfold bind at 1. unfold console_input at 1. rewrite Hin. cbn [of_reply].
  apply String.eqb_neq in Hall. rewrite Hall.
  destruct (parse_indices B (split comma (strip B answer))) as [indices|];
    [|eexists; reflexivity].
  rewrite pick_spec.
  destruct (forallb _ indices); eexists; reflexivity.
Qed.

Section MainFacts.
Context {W : Type} (P : Portal W) (C : Console W) (B : Builtins).

(** The publish calls of the loop are for selected items. *)
Lemma for_each_publishes fuel cfg single (items : list Item) :
  forall w,
    Forall (fun e => forall item name r, e = EPublish item name r -> In item items)
      (snd (for_each items (process_item P fuel cfg single) w)).
Proof.
  induction items as [|itm rest IH]; intros w; [constructor|].
  cbn [for_each]. apply bind_Forall.
  - destruct (process_item_request P fuel cfg single itm w)
      as (r & w' & tr & Hrun & Hreq & _).
    rewrite Hrun. cbn [snd].
    apply (request_on_target P) in Hreq.
    eapply Forall_impl; [exact Hreq|].
    intros e He item name r' ->. cbn in He. destruct He as [-> _]. now left.
  - intros o w1 t1 _. apply bind_Forall; [|intros; constructor].
    eapply Forall_impl; [apply IH|].
    intros e He item name r Heq. right. eauto.
Qed.

Lemma output_is_no_publish (Q : Item -> Prop) (tr : Trace) :
  Forall (fun e => is_output e = true) tr ->
  Forall (fun e => forall item name r, e = EPublish item name r -> Q item) tr.
Proof.
  intros H. eapply Forall_impl; [exact H|].
  intros e He item name r ->. discriminate.
Qed.

End MainFacts.

(** X9.  When the discovery finds no shapefile the script prints that
    nothing matches and exits: it asks the portal nothing else and reads
    nothing from the console. *)
Theorem main_exits_without_items {W} (P : Portal W) (C : Console W)
    (B : Builtins) (fuel : nat) (cfg : Config) (w w1 : W) :
  search P (type_query P "Shapefile") "" 100 w = ([], w1) ->
  main P C B fuel cfg w
  = (Ok None, w1,
     [ESearch (type_query P "Shapefile") "" 100 [];
      EPrint "No matching items found in your portal content."]).
Proof.
  intros Hs. unfold main, get_portal_files. cbn [search_each].
  unfold bind, gis_content_search, print, emit, ret. now rewrite Hs.
Qed.

(** X10.  Whatever the portal answers and whatever is typed, every publish
    call of the script publishes an item that the discovery search
    returned. *)
Theorem main_publishes_discovered_items {W} (P : Portal W) (C : Console W)
    (B : Builtins) (fuel : nat) (cfg : Config) (w : W) :
  Forall (fun e => forall item name r,
            e = EPublish item name r ->
            In item (fst (search P (type_query P "Shapefile") "" 100 w)))
    (snd (main P C B fuel cfg w)).
Proof.
  unfold main, get_portal_files. cbn [search_each].
  apply bind_Forall.
  - apply bind_Forall.
    + unfold gis_content_search. destruct (search P _ _ _ w) as [rs w1].
      repeat constructor. discriminate.
    + intros. constructor.
  - intros discovered w1 t1 Hrun.
    assert (discovered = fst (search P (type_query P "Shapefile") "" 100 w)) as <-.
    { revert Hrun. unfold bind, gis_content_search, ret.
      destruct (search P _ _ _ w) as [rs w0]. cbn. now intros [= <- _ _]. }
    destruct discovered as [|x xs]; [repeat constructor; discriminate|].
    set (discovered := x :: xs).
    destruct (interactive_selection_run C B discovered w1)
      as (r & w2 & tr & Hsel & Htr & Hr).
    apply bind_Forall.
    { rewrite Hsel. now apply output_is_no_publish. }
    intros selected w2' t2 Hsel'. rewrite Hsel in Hsel'.
    injection Hsel' as -> -> ->.
    apply bind_Forall; [repeat constructor; discriminate|]. intros _ w3 _ _.
    apply bind_Forall.
    { destruct (print_listing_run C selected 0 w3) as (ltr & -> & Hltr).
      now apply output_is_no_publish. }
    intros _ w4 _ _. apply bind_Forall.
    { unfold publish_loop. eapply Forall_impl; [apply for_each_publishes|].
      intros e He item name r0 Heq. apply Hr. eauto. }
    intros outcomes w5 _ _. apply bind_Forall.
    { apply output_is_no_publish. apply preview_each_output. }
    intros. apply bind_Forall; [repeat constructor; discriminate|].
    intros. constructor.
Qed.

(** ** A scripted console *)

(** The scripted portal together with the lines typed at the console, and
    the built-ins on ASCII text. *)
Module Desk.

Record World := mkWorld {
  portal_world : Mock.World;
  answers : list (reply string)
}.

Definition lift {A} (f : Mock.World -> A * Mock.World) (w : World) : A * World :=
  let '(a, pw) := f (portal_world w) in (a, mkWorld pw (answers w)).

Definition portal : Portal World := {|
  username := username Mock.portal;
  search := fun query item_type max_items =>
    lift (search Mock.portal query item_type max_items);
  delete := fun item => lift (delete Mock.portal item);
  publish := fun item name => lift (publish Mock.portal item name);
  update := fun item props => lift (update Mock.portal item props);
  update_definition := fun service_url d =>
    lift (update_definition Mock.portal service_url d);
  share := fun item everyone org => lift (share Mock.portal item everyone org);
  time := lift (time Mock.portal);
  sleep := fun secs w =>
    mkWorld (sleep Mock.portal secs (portal_world w)) (answers w);
  splitext_root := Mock.path_root
|}.

Definition console : Console World := {|
  input := fun _ w =>
    match answers w with
    | [] => (Raised "EOF when reading a line", w)
    | line :: rest => (line, mkWorld (portal_world w) rest)
    end;
  webbrowser_open := fun _ w => (Returned true, w);
  type_ := fun _ => "Shapefile"
|}.

Definition is_space (c : Ascii.ascii) : bool :=
  let n := Ascii.nat_of_ascii c in
  Nat.eqb n 32 || (Nat.leb 9 n && Nat.leb n 13).

Fixpoint lstrip (s : string) : string :=
  match s with
  | String c rest => if is_space c then lstrip rest else s
  | EmptyString => EmptyString
  end.

Fixpoint rstrip (s : string) : string :=
  match s with
  | String c rest =>
      match rstrip rest with
      | EmptyString => if is_space c then EmptyString else String c EmptyString
      | kept => String c kept
      end
  | EmptyString => EmptyString
  end.

Definition lower_char (c : Ascii.ascii) : Ascii.ascii :=
  let n := Ascii.nat_of_ascii c in
  if Nat.leb 65 n && Nat.leb n 90 then Ascii.ascii_of_nat (n + 32) else c.

Fixpoint lower_ascii (s : string) : string :=
  match s with
  | String c rest => String (lower_char c) (lower_ascii rest)
  | EmptyString => EmptyString
  end.

(** Digits, with single underscores between them. *)
Fixpoint digits (s : string) (acc : Z) (after_digit : bool) : option Z :=
  match s with
  | EmptyString => if after_digit then Some acc else None
  | String c rest =>
      let n := Ascii.nat_of_ascii c in
      if Nat.leb 48 n && Nat.leb n 57
      then digits rest (10 * acc + Z.of_nat (n - 48)) true
      else if Nat.eqb n 95 && after_digit then digits rest acc false
      else None
  end.

(** Decimal integers with an optional sign. *)
Definition int_ascii (s : string) : option Z :=
  match rstrip (lstrip s) with
  | EmptyString => None
  | String c rest =>
      if Ascii.eqb c (Ascii.ascii_of_nat 45) then
        match rest with
        | EmptyString => None
        | _ => option_map Z.opp (digits rest 0 false)
        end
      else if Ascii.eqb c (Ascii.ascii_of_nat 43) then
        match rest with
        | EmptyString => None
        | _ => digits rest 0 false
        end
      else digits (String c rest) 0 false
  end.

Definition builtins : Builtins := {|
  strip := fun s => rstrip (lstrip s);
  lower := lower_ascii;
  int := int_ascii
|}.

(** A world in which the first searches answer [searches] and the lines
    [typed] are entered in turn. *)
Definition typing (searches : list (list Item)) (typed : list string) : World :=
  mkWorld (Mock.fresh searches) (map Returned typed).

End Desk.

(** Three shapefiles to choose from. *)
Definition rivers : Item :=
  mkItem "7c1d" "Rivers.shp" "https://gis.czu.cz/portal/home/item.html?id=7c1d" "gis_admin".

Lemma interactive_selection_by_indices_witness :
  exists tr,
    interactive_selection Desk.console Desk.builtins [Mock.shp; roads; rivers]
      (Desk.typing [] [" 2, -1,7 ,0"])
    = (Ok (indexed_selection Desk.builtins [Mock.shp; roads; rivers] "2, -1,7 ,0"),
       Desk.typing [] [], tr).
Proof.
  apply (interactive_selection_by_indices Desk.console Desk.builtins
           [Mock.shp; roads; rivers] (Desk.typing [] [" 2, -1,7 ,0"])
           (Desk.typing [] []) " 2, -1,7 ,0");
    [discriminate | reflexivity | vm_compute; discriminate].
Defined.

(** The selection typed in that witness, and one with an index that raises. *)
Example indexed_selection_examples :
  indexed_selection Desk.builtins [Mock.shp; roads; rivers] "2, -1,7 ,0"
  = [rivers; rivers; Mock.shp] /\
  indexed_selection Desk.builtins [Mock.shp; roads; rivers] "0,-4"
  = [Mock.shp; roads; rivers] /\
  indexed_selection Desk.builtins [Mock.shp; roads; rivers] "0;1"
  = [Mock.shp; roads; rivers].
Proof. vm_compute. repeat split; reflexivity. Qed.

Lemma main_exits_without_items_witness :
  main Desk.portal Desk.console Desk.builtins polling_fuel CONFIG
    (Desk.typing [[]] ["all"])
  = (Ok None, Desk.typing [] ["all"],
     [ESearch (type_query Desk.portal "Shapefile") "" 100 [];
      EPrint "No matching items found in your portal content."]).
Proof.
  apply (main_exits_without_items Desk.portal Desk.console Desk.builtins
           polling_fuel CONFIG (Desk.typing [[]] ["all"]) (Desk.typing [] ["all"])).
  reflexivity.
Defined.

(** * The user report of [user_management.py] *)

(** The loop over the portal's users (lines 170-230) and the counts of the
    pie chart (lines 275-276).  [logging.debug] lies below the configured
    level and leaves nothing in the log. *)
Module UserReport.

Record User := mkUser {
  username : string;
  fullName : string;
  email : string;
  role : string;
  lastLogin : Z
}.

Record Group := mkGroup { title : string }.

(** The [groups] property and the [items()] method of a user; both ask the
    portal and may raise. *)
Record Users (W : Type) := mkUsers {
  groups : User -> W -> reply (list Group) * W;
  items : User -> W -> reply (list Item) * W
}.
Arguments groups {W}.
Arguments items {W}.

(** One step of the loop: a line of the log, or a question to the portal
    with its answer. *)
Inductive Ev :=
| Log (lvl : Level) (msg : string)
| Groups (user : User) (r : reply (list Group))
| Items (user : User) (r : reply (list Item)).

(** The programs of the report: the monad of the publishing script, over
    these events. *)
Definition R (W A : Type) : Type := W -> res A * W * list Ev.

Definition rret {W A} (a : A) : R W A := fun w => (Ok a, w, []).

Definition rbind {W A B} (m : R W A) (k : A -> R W B) : R W B :=
  fun w =>
    match m w with
    | (Ok a, w1, t1) => let '(r, w2, t2) := k a w1 in (r, w2, t1 ++ t2)
    | (Raise e, w1, t1) => (Raise e, w1, t1)
    | (OutOfFuel, w1, t1) => (OutOfFuel, w1, t1)
    end.

Definition rtry {W A} (m : R W A) (h : string -> R W A) : R W A :=
  fun w =>
    match m w with
    | (Raise e, w1, t1) => let '(r, w2, t2) := h e w1 in (r, w2, t1 ++ t2)
    | other => other
    end.

Definition remit {W} (e : Ev) : R W unit := fun w => (Ok tt, w, [e]).

Declare Scope report_scope.
Delimit Scope report_scope with report.
Notation "x <- m ;; k" := (rbind m (fun x => k))
  (at level 62, m at next level, right associativity) : report_scope.
Notation "m ;;; k" := (rbind m (fun _ => k))
  (at level 62, right associativity) : report_scope.
Local Open Scope report_scope.

Definition logging_info {W} (msg : string) : R W unit := remit (Log INFO msg).
Definition logging_error {W} (msg : string) : R W unit := remit (Log ERROR msg).
Arguments logging_info {W} msg%_string.
Arguments logging_error {W} msg%_string.

(** A row of [user_data]. *)
Record Row := mkRow {
  row_username : string;
  row_fullName : string;
  row_email : string;
  row_role : string;
  row_groups : string;
  last_login : string;
  days_inactive : option Z;
  content_count : nat;
  suggested_action : string
}.

(** A [collections.Counter]: the keys in the order of their first count. *)
Definition Counter := list (string * nat).

(** [counter[key] += 1] *)
Fixpoint incr (key : string) (counter : Counter) : Counter :=
  match counter with
  | [] => [(key, 1%nat)]
  | (k, n) :: rest =>
      if String.eqb k key then (k, S n) :: rest else (k, n) :: incr key rest
  end.

(** [sum(counter.values())] *)
Fixpoint total (counter : Counter) : nat :=
  match counter with
  | [] => 0
  | (_, n) :: rest => n + total rest
  end.

(** What the loop has collected. *)
Record Tally := mkTally {
  user_data : list Row;
  inactive_users : list (string * string * Z);
  role_counts : Counter;
  suggested_actions_counter : Counter
}.

Definition empty_tally : Tally := mkTally [] [] [] [].

(** [sep.join(pieces)] *)
Fixpoint join (sep : string) (pieces : list string) : string :=
  match pieces with
  | [] => EmptyString
  | [piece] => piece
  | piece :: rest => piece ++ sep ++ join sep rest
  end.

(** [(now - last_login_dt).days], with both times in microseconds since
    the epoch: the whole days, rounded down. *)
Definition days_between (now last_login_dt : Z) : Z :=
  ((now - last_login_dt) / 86400000000)%Z.

(** Lines 211-219. *)
Definition suggest (last_login : string) (days_inactive : option Z)
    (content_count : nat) (inactive_threshold : Z) : string :=
  if String.eqb last_login "Never Logged In"
     || match days_inactive with
        | Some days => (inactive_threshold <? days)%Z
        | None => false
        end
  then
    if (0 <? content_count)%nat then
      if (5 <? content_count)%nat then "Archive content and delete user"
      else "Delete both content and user"
    else "Delete user"
  else "Do nothing".

(** [days_inactive and days_inactive > inactive_threshold] *)
Definition counts_as_inactive (days_inactive : option Z) (inactive_threshold : Z)
  : bool :=
  match days_inactive with
  | Some days => negb (days =? 0)%Z && (inactive_threshold <? days)%Z
  | None => false
  end.

Section Loop.
Context {W : Type} (U : Users W).
(** [datetime.fromtimestamp(lastLogin / 1000, tz=timezone.utc)], from the
    milliseconds of [lastLogin] to a time in microseconds since the epoch:
    it raises for a time stamp that is out of range.  Then
    [strftime("%Y-%m-%d")] of such a time, the time of the run and the
    threshold of the configuration. *)
Context (fromtimestamp : Z -> reply Z) (date_of : Z -> string).
Context (now : Z) (inactive_threshold : Z).

Definition datetime_fromtimestamp (milliseconds : Z) : R W Z :=
  fun w => (of_reply (fromtimestamp milliseconds), w, []).

Definition user_groups (user : User) : R W (list Group) :=
  fun w => let '(r, w') := groups U user w in (of_reply r, w', [Groups user r]).

Definition user_items (user : User) : R W (list Item) :=
  fun w => let '(r, w') := items U user w in (of_reply r, w', [Items user r]).

(** Lines 194-199: [user.groups] is read for the test and again for the
    list. *)
Definition groups_text (user : User) : R W string :=
  rtry
    (probe <- user_groups user;;
     match probe with
     | _ :: _ =>
         listed <- user_groups user;;
         rret (join ", " (map title listed))
     | [] => rret "No Groups"
     end)
    (fun ex =>
     logging_error ("Error retrieving groups for user " ++ username user ++ ": " ++ ex);;;
     rret "No Groups").

(** Lines 202-208. *)
Definition count_items (user : User) : R W nat :=
  rtry
    (listed <- user_items user;; rret (length listed))
    (fun e =>
     logging_error ("Error retrieving items for user " ++ username user ++ ": " ++ e);;;
     rret 0%nat).

(** Lines 179-188: the conversion stands outside every [try]. *)
Definition login_times (user : User) : R W (string * option Z) :=
  if (lastLogin user =? -1)%Z then rret ("Never Logged In", None)
  else
    last_login_dt <- datetime_fromtimestamp (lastLogin user);;
    rret (date_of last_login_dt, Some (days_between now last_login_dt)).

(** The body of [for user in all_users]. *)
Definition process_user (user : User) (t : Tally) : R W Tally :=
  logging_info ("Processing user: " ++ username user);;;
  login <- login_times user;;
  let last_login := fst login in
  let days_inactive := snd login in
  let role_counts := incr (role user) (role_counts t) in
  groups <- groups_text user;;
  content_count <- count_items user;;
  let suggested_action :=
    suggest last_login days_inactive content_count inactive_threshold in
  logging_info ("Suggested action for user " ++ username user ++ ": " ++ suggested_action);;;
  rret {| user_data :=
            user_data t ++ [mkRow (username user) (fullName user) (email user)
                              (role user) groups last_login days_inactive
                              content_count suggested_action];
          inactive_users :=
            match days_inactive with
            | Some days =>
                if counts_as_inactive days_inactive inactive_threshold
                then inactive_users t ++ [(username user, last_login, days)]
                else inactive_users t
            | None => inactive_users t
            end;
          role_counts := role_counts;
          suggested_actions_counter :=
            incr suggested_action (suggested_actions_counter t) |}.

Fixpoint user_loop (all_users : list User) (t : Tally) : R W Tally :=
  match all_users with
  | [] => rret t
  | user :: rest => t' <- process_user user t;; user_loop rest t'
  end.

(** Lines 170-230. *)
Definition collect (all_users : list User) : R W Tally :=
  logging_info "Processing user data";;;
  t <- user_loop all_users empty_tally;;
  logging_info ("Found " ++ pretty (length all_users) ++ " users. "
                ++ pretty (length (inactive_users t)) ++ " inactive for more than "
                ++ pretty inactive_threshold ++ " days.");;;
  rret t.

(** Lines 275-276. *)
Definition active_count (all_users : list User) (t : Tally) : Z :=
  Z.max 0 (Z.of_nat (length all_users) - Z.of_nat (length (inactive_users t))).

Definition inactive_count (t : Tally) : Z :=
  Z.max 0 (Z.of_nat (length (inactive_users t))).

End Loop.

End UserReport.

(** ** What the loop collects *)

(** The last login of the user can be read: the user never logged in, or
    the time stamp converts. *)
Definition converts (fromtimestamp : Z -> reply Z) (user : UserReport.User)
  : Prop :=
  UserReport.lastLogin user = (-1)%Z \/
  exists last_login_dt,
    fromtimestamp (UserReport.lastLogin user) = Returned last_login_dt.

Definition is_items (e : UserReport.Ev) : bool :=
  match e with UserReport.Items _ _ => true | _ => false end.

(** The number of items the loop counts for an answer of [user.items()]. *)
Definition items_count (r : reply (list Item)) : nat :=
  match r with
  | Returned listed => length listed
  | Raised _ => 0
  end.

(** What the loop logs for an answer of [user.items()]. *)
Definition items_log (user : UserReport.User) (r : reply (list Item))
  : list UserReport.Ev :=
  match r with
  | Returned _ => []
  | Raised e =>
      [UserReport.Log ERROR ("Error retrieving items for user "
                             ++ UserReport.username user ++ ": " ++ e)]
  end.

Section UserReportFacts.
Import UserReport.
Context {W : Type} (U : Users W).
Context (fromtimestamp : Z -> reply Z) (date_of : Z -> string).
Context (now : Z) (inactive_threshold : Z).

Lemma total_incr (key : string) (counter : Counter) :
  total (incr key counter) = S (total counter).
Proof.
  induction counter as [|[k n] rest IH]; [reflexivity|].
  cbn [incr]. destruct (String.eqb k key); cbn [total]; lia.
Qed.

(** The last login and the days of inactivity of a user whose last login
    can be read. *)
Definition login_of (user : User) : option (string * option Z) :=
  if (lastLogin user =? -1)%Z then Some ("Never Logged In", None)
  else match fromtimestamp (lastLogin user) with
       | Returned last_login_dt =>
           Some (date_of last_login_dt, Some (days_between now last_login_dt))
       | Raised _ => None
       end.

(** The tally after one user, given the last login, the text of the groups
    and the number of items. *)
Definition step_tally (user : User) (t : Tally) (login : string * option Z)
    (groups : string) (content_count : nat) : Tally :=
  {| user_data :=
       user_data t ++ [mkRow (username user) (fullName user) (email user)
                         (role user) groups (fst login) (snd login)
                         content_count
                         (suggest (fst login) (snd login) content_count
                            inactive_threshold)];
     inactive_users :=
       match snd login with
       | Some days =>
           if counts_as_inactive (snd login) inactive_threshold
           then inactive_users t ++ [(username user, fst login, days)]
           else inactive_users t
       | None => inactive_users t
       end;
     role_counts := incr (role user) (role_counts t);
     suggested_actions_counter :=
       incr (suggest (fst login) (snd login) content_count inactive_threshold)
         (suggested_actions_counter t) |}.

Lemma login_of_converts (user : User) :
  converts fromtimestamp user <-> exists login, login_of user = Some login.
Proof.
  unfold converts, login_of. destruct (Z.eqb_spec (lastLogin user) (-1)) as [Heq|Hne].
  - split; eauto.
  - destruct (fromtimestamp (lastLogin user)) as [dt|e]; split.
    + eauto.
    + eauto.
    + intros [Heq | [dt Hdt]]; [contradiction | discriminate].
    + intros [login Hl]. discriminate.
Qed.

Lemma login_times_run (user : User) (w : W) :
  login_times fromtimestamp date_of now user w
  = match login_of user with
    | Some login => (Ok login, w, [])
    | None =>
        match fromtimestamp (lastLogin user) with
        | Raised e => (Raise e, w, [])
        | Returned dt => (Ok (date_of dt, Some (days_between now dt)), w, [])
        end
    end.
Proof.
  unfold login_times, login_of, rbind, rret, datetime_fromtimestamp.
  destruct (lastLogin user =? -1)%Z; [reflexivity|].
  now destruct (fromtimestamp (lastLogin user)) as [dt|e].
Qed.

Lemma groups_text_run (user : User) (w : W) :
  exists text w' tr,
    groups_text U user w = (Ok text, w', tr) /\
    Forall (fun e => is_items e = false) tr.
Proof.
  unfold groups_text, rtry, rbind, user_groups, logging_error, remit, rret.
  destruct (groups U user w) as [[[|g gs]|ex] w1]; cbn.
  - eexists _, _, _. split; [reflexivity | repeat constructor].
  - destruct (groups U user w1) as [[listed|ex] w2]; cbn.
    + eexists _, _, _. split; [reflexivity | repeat constructor].
    + eexists _, _, _. split; [reflexivity | repeat constructor].
  - eexists _, _, _. split; [reflexivity | repeat constructor].
Qed.

(** A failed listing counts as no content, and is logged. *)
Lemma count_items_run (user : User) (w : W) :
  exists r w',
    count_items U user w
    = (Ok (items_count r), w', Items user r :: items_log user r).
Proof.
  unfold count_items, rtry, rbind, user_items, logging_error, remit, rret.
  destruct (items U user w) as [[listed|e] w1]; cbn.
  - now exists (Returned listed), w1.
  - now exists (Raised e), w1.
Qed.

(** One turn of the loop: the conversion of the last login raises and ends
    the turn, or the row is written. *)
Lemma process_user_run (user : User) (t : Tally) (w : W) :
  match login_of user with
  | Some login =>
      exists text r w' gtr,
        process_user U fromtimestamp date_of now inactive_threshold user t w
        = (Ok (step_tally user t login text (items_count r)), w',
           Log INFO ("Processing user: " ++ username user)
             :: gtr ++ Items user r :: items_log user r
             ++ [Log INFO ("Suggested action for user " ++ username user ++ ": "
                           ++ suggest (fst login) (snd login) (items_count r)
                                inactive_threshold)]) /\
        Forall (fun e => is_items e = false) gtr
  | None =>
      exists e,
        lastLogin user <> (-1)%Z /\
        fromtimestamp (lastLogin user) = Raised e /\
        process_user U fromtimestamp date_of now inactive_threshold user t w
        = (Raise e, w, [Log INFO ("Processing user: " ++ username user)])
  end.
Proof.
  pose proof (login_times_run user w) as Hlt.
  destruct (login_of user) as [login|] eqn:Hlogin.
  - destruct (groups_text_run user w) as (text & w1 & gtr & Hg & Hgtr).
    destruct (count_items_run user w1) as (r & w2 & Hc).
    exists text, r, w2, gtr.
    unfold process_user. unfold rbind at 1. unfold logging_info at 1, remit at 1.
    unfold rbind at 1. rewrite Hlt.
    unfold rbind at 1. rewrite Hg. unfold rbind at 1. rewrite Hc.
    unfold rbind, logging_info, remit, rret. cbn [app].
    split; [reflexivity | exact Hgtr].
  - unfold login_of in Hlogin.
    destruct (Z.eqb_spec (lastLogin user) (-1)) as [Heq|Hne]; [discriminate|].
    destruct (fromtimestamp (lastLogin user)) as [dt|e] eqn:He; [discriminate|].
    exists e. split; [exact Hne|]. split; [reflexivity|].
    unfold process_user. unfold rbind at 1. unfold logging_info at 1, remit at 1.
    unfold rbind at 1. now rewrite Hlt.
Qed.

(** The tallies the loop can reach from [t]. *)
Inductive tallied : list User -> Tally -> Tally -> Prop :=
| tallied_done t : tallied [] t t
| tallied_next user rest t login groups content_count t' :
    login_of user = Some login ->
    tallied rest (step_tally user t login groups content_count) t' ->
    tallied (user :: rest) t t'.

(** How the loop over the users ends: with the tally of all of them, or at
    the first user whose last login does not convert. *)
Definition loop_result (all_users : list User) (t : Tally)
    (r : res Tally) (tr : list Ev) : Prop :=
  match r with
  | Ok t' => tallied all_users t t'
  | Raise e =>
      exists done user rest tr0,
        all_users = done ++ user :: rest /\
        Forall (converts fromtimestamp) done /\
        lastLogin user <> (-1)%Z /\
        fromtimestamp (lastLogin user) = Raised e /\
        tr = tr0 ++ [Log INFO ("Processing user: " ++ username user)]
  | OutOfFuel => False
  end.

Lemma user_loop_run (all_users : list User) :
  forall (t : Tally) (w : W),
    loop_result all_users t
      (fst (fst (user_loop U fromtimestamp date_of now inactive_threshold
                   all_users t w)))
      (snd (user_loop U fromtimestamp date_of now inactive_threshold
              all_users t w)).
Proof.
  induction all_users as [|user rest IH]; intros t w.
  - cbn. constructor.
  - cbn [user_loop]. unfold rbind.
    pose proof (process_user_run user t w) as Hrun.
    destruct (login_of user) as [login|] eqn:Hlogin.
    + destruct Hrun as (text & r & w1 & gtr & Hrun & _). rewrite Hrun.
      specialize (IH (step_tally user t login text (items_count r)) w1).
      destruct (user_loop U fromtimestamp date_of now inactive_threshold rest _ w1)
        as [[[t'|e|] w2] tr2]; cbn [fst snd] in IH |- *.
      * now apply tallied_next with login text (items_count r).
      * destruct IH as (done & user' & rest' & tr0 & -> & Hdone & Hne & He & ->).
        exists (user :: done), user', rest'. eexists. split; [reflexivity|].
        split; [|split; [exact Hne|split; [exact He|]]].
        -- constructor; [|exact Hdone]. apply login_of_converts. eauto.
        -- rewrite app_assoc. reflexivity.
      * exact IH.
    + destruct Hrun as (e & Hne & He & Hrun). rewrite Hrun. cbn [fst snd].
      exists [], user, rest, []. now repeat split.
Qed.

Lemma tallied_converts (all_users : list User) (t t' : Tally) :
  tallied all_users t t' -> Forall (converts fromtimestamp) all_users.
Proof.
  induction 1 as [|user rest t login g n t' Hlogin _ IH]; constructor; [|exact IH].
  apply login_of_converts. eauto.
Qed.

(** A row that suggests an action. *)
Definition flagged (row : Row) : bool :=
  negb (String.eqb (suggested_action row) "Do nothing").

Definition never_logged_in (user : User) : bool := (lastLogin user =? -1)%Z.

Lemma tallied_counts (all_users : list User) (t t' : Tally) :
  tallied all_users t t' ->
  map row_username (user_data t')
  = map row_username (user_data t) ++ map username all_users /\
  total (role_counts t') = (total (role_counts t) + length all_users)%nat /\
  total (suggested_actions_counter t')
  = (total (suggested_actions_counter t) + length all_users)%nat /\
  (length (inactive_users t') <= length (inactive_users t) + length all_users)%nat.
Proof.
  induction 1 as [t | user rest t login g n t' Hlogin Hrest
                        (Hrows & Hroles & Hactions & Hinactive)].
  - cbn. rewrite app_nil_r. repeat split; lia.
  - cbn [step_tally user_data role_counts suggested_actions_counter inactive_users]
      in Hrows, Hroles, Hactions, Hinactive.
    rewrite total_incr in Hroles, Hactions.
    rewrite map_app in Hrows. cbn [map row_username] in Hrows.
    rewrite <- app_assoc in Hrows. cbn [app] in Hrows.
    split; [exact Hrows|]. cbn [length].
    repeat split; try lia.
    destruct (snd login); [|lia].
    destruct (counts_as_inactive _ _); [rewrite length_app in Hinactive; cbn in Hinactive|];
      lia.
Qed.

Lemma suggest_flags (last_login : string) (days : option Z) (n : nat) :
  String.eqb (suggest last_login days n inactive_threshold) "Do nothing"
  = negb (String.eqb last_login "Never Logged In"
          || match days with
             | Some d => (inactive_threshold <? d)%Z
             | None => false
             end).
Proof.
  unfold suggest.
  destruct (String.eqb last_login "Never Logged In" || _); [|reflexivity].
  destruct (0 <? n)%nat; [destruct (5 <? n)%nat|]; reflexivity.
Qed.

Lemma flagged_row name full mail role_ groups login days n :
  flagged (mkRow name full mail role_ groups login days n
             (suggest login days n inactive_threshold))
  = (String.eqb login "Never Logged In"
     || match days with
        | Some d => (inactive_threshold <? d)%Z
        | None => false
        end).
Proof.
  unfold flagged. cbn [suggested_action].
  now rewrite suggest_flags, negb_involutive.
Qed.

(** With a threshold that is not negative, and dates that do not read
    [Never Logged In], the rows that suggest an action are those of the
    inactive users and of the users who never logged in. *)
Lemma tallied_flagged (all_users : list User) (t t' : Tally) :
  (forall login, date_of login <> "Never Logged In") ->
  (0 <= inactive_threshold)%Z ->
  tallied all_users t t' ->
  (length (List.filter flagged (user_data t')) + length (inactive_users t))%nat
  = (length (List.filter flagged (user_data t)) + length (inactive_users t')
     + length (List.filter never_logged_in all_users))%nat.
Proof.
  intros Hdate Hthreshold.
  induction 1 as [t | user rest t login g n t' Hlogin Hrest IH]; [cbn; lia|].
  cbn [step_tally user_data inactive_users] in IH.
  rewrite List.filter_app, length_app in IH.
  cbn [List.filter] in IH. rewrite flagged_row in IH.
  cbn [List.filter never_logged_in]. unfold never_logged_in at 1.
  unfold login_of in Hlogin.
  destruct (lastLogin user =? -1)%Z eqn:Hnever.
  - injection Hlogin as <-. cbn in IH. cbn [length]. lia.
  - destruct (fromtimestamp (lastLogin user)) as [dt|e]; [|discriminate].
    injection Hlogin as <-. cbn [fst snd] in IH.
    assert (String.eqb (date_of dt) "Never Logged In" = false) as Hd
      by (apply String.eqb_neq, Hdate).
    rewrite Hd in IH. cbn [orb counts_as_inactive] in IH.
    destruct (Z.ltb_spec inactive_threshold (days_between now dt)) as [Hlt|Hge].
    + destruct (Z.eqb_spec (days_between now dt) 0) as [Hz|Hnz]; [lia|].
      cbn [negb andb] in IH. rewrite length_app in IH. cbn [length] in IH. lia.
    + rewrite andb_false_r in IH. cbn [length] in IH. lia.
Qed.

(** [counter[key]] *)
Fixpoint count_of (key : string) (counter : Counter) : nat :=
  match counter with
  | [] => 0
  | (k, n) :: rest => if String.eqb k key then n else count_of key rest
  end.

Lemma count_of_incr (key counted : string) (counter : Counter) :
  count_of key (incr counted counter)
  = (count_of key counter + if String.eqb counted key then 1 else 0)%nat.
Proof.
  induction counter as [|[k n] rest IH]; cbn [incr count_of].
  - destruct (String.eqb counted key); cbn; lia.
  - destruct (String.eqb_spec k counted) as [->|Hk]; cbn [count_of].
    + destruct (String.eqb counted key); lia.
    + destruct (String.eqb_spec k key) as [->|Hkey]; [|exact IH].
      destruct (String.eqb_spec counted key); [congruence | lia].
Qed.

Lemma incr_keys (counted : string) (counter : Counter) :
  List.NoDup (map fst counter) ->
  List.NoDup (map fst (incr counted counter)) /\
  forall k, In k (map fst (incr counted counter)) ->
            k = counted \/ In k (map fst counter).
Proof.
  induction counter as [|[k n] rest IH]; cbn [incr map fst].
  - intros _. split; [|intros k [<-|[]]; auto].
    apply List.NoDup_cons; [intros [] | apply List.NoDup_nil].
  - intros Hnodup. apply List.NoDup_cons_iff in Hnodup as [Hk Hrest].
    destruct (String.eqb_spec k counted) as [->|Hneq]; cbn [map fst].
    + split; [now apply List.NoDup_cons | intros k' [<-|Hin]; cbn; auto].
    + destruct (IH Hrest) as [Hnodup' Hkeys]. split.
      * apply List.NoDup_cons; [|exact Hnodup'].
        intros Hin. destruct (Hkeys k Hin) as [->|Hin']; [congruence | contradiction].
      * intros k' [<-|Hin]; [right; now left|].
        destruct (Hkeys k' Hin); cbn; auto.
Qed.

(** The two counters count the rows. *)
Lemma tallied_counters (all_users : list User) (t t' : Tally) :
  tallied all_users t t' ->
  (forall action,
      (count_of action (suggested_actions_counter t')
       + length (List.filter (fun row => String.eqb (suggested_action row) action)
                   (user_data t)))%nat
      = (count_of action (suggested_actions_counter t)
         + length (List.filter (fun row => String.eqb (suggested_action row) action)
                     (user_data t')))%nat) /\
  (forall role_,
      (count_of role_ (role_counts t')
       + length (List.filter (fun row => String.eqb (row_role row) role_) (user_data t)))%nat
      = (count_of role_ (role_counts t)
         + length (List.filter (fun row => String.eqb (row_role row) role_)
                     (user_data t')))%nat) /\
  (List.NoDup (map fst (suggested_actions_counter t)) ->
   List.NoDup (map fst (suggested_actions_counter t'))) /\
  (List.NoDup (map fst (role_counts t)) -> List.NoDup (map fst (role_counts t'))).
Proof.
  induction 1 as [t | user rest t login g n t' Hlogin Hrest
                        (Hactions & Hroles & Hnd_a & Hnd_r)].
  - repeat split; auto.
  - cbn [step_tally user_data suggested_actions_counter role_counts]
      in Hactions, Hroles, Hnd_a, Hnd_r.
    split; [|split; [|split]].
    + intros action. specialize (Hactions action).
      rewrite count_of_incr, List.filter_app, length_app in Hactions.
      cbn [List.filter suggested_action] in Hactions.
      destruct (String.eqb _ action); cbn [length] in Hactions; lia.
    + intros role_. specialize (Hroles role_).
      rewrite count_of_incr, List.filter_app, length_app in Hroles.
      cbn [List.filter row_role] in Hroles.
      destruct (String.eqb (role user) role_); cbn [length] in Hroles; lia.
    + intros Hnd. apply Hnd_a. now apply incr_keys.
    + intros Hnd. apply Hnd_r. now apply incr_keys.
Qed.

(** The run of [collect], from the run of the loop. *)
Lemma collect_run (all_users : list User) (w : W) :
  loop_result all_users empty_tally
    (fst (fst (collect U fromtimestamp date_of now inactive_threshold all_users w)))
    (snd (collect U fromtimestamp date_of now inactive_threshold all_users w)).
Proof.
  pose proof (user_loop_run all_users empty_tally w) as Hloop.
  unfold collect, rbind, logging_info, remit, rret.
  destruct (user_loop U fromtimestamp date_of now inactive_threshold all_users
              empty_tally w) as [[[t|e|] w1] tr1]; cbn [fst snd] in Hloop |- *.
  - exact Hloop.
  - destruct Hloop as (done & user & rest & tr0 & -> & Hdone & Hne & He & ->).
    exists done, user, rest, (Log INFO "Processing user data" :: tr0).
    now repeat split.
  - exact Hloop.
Qed.

(** When every last login can be read the loop returns. *)
Lemma collect_ok (all_users : list User) (w : W) :
  Forall (converts fromtimestamp) all_users ->
  exists t w' tr,
    collect U fromtimestamp date_of now inactive_threshold all_users w = (Ok t, w', tr) /\
    tallied all_users empty_tally t.
Proof.
  intros Hall. pose proof (collect_run all_users w) as Hrun.
  destruct (collect U fromtimestamp date_of now inactive_threshold all_users w)
    as [[[t|e|] w'] tr]; cbn [fst snd] in Hrun.
  - now exists t, w', tr.
  - exfalso. destruct Hrun as (done & user & rest & tr0 & -> & _ & Hne & He & _).
    apply Forall_app in Hall as [_ Hall]. apply List.Forall_cons_iff in Hall as [Hu _].
    destruct Hu as [Hu | [dt Hu]]; [contradiction | congruence].
  - destruct Hrun.
Qed.

End UserReportFacts.

(** X11.  The loop over the users ends in one of two ways.  When the last
    login of every user can be read, and whatever the portal answers for the
    groups and the items of a user, it returns: it leaves one row per user,
    in the order of the users, and the counts of the roles, the counts of the
    suggested actions and the two counts of the pie chart each add up to the
    number of users.  Otherwise it raises: the conversion of a last login
    stands outside every [try], so at the first user whose time stamp is out
    of range the exception ends the loop, right after the line of the log
    that names the user, and no report is collected. *)
Theorem collect_tallies {W} (U : UserReport.Users W)
    (fromtimestamp : Z -> reply Z) (date_of : Z -> string)
    (now inactive_threshold : Z) (all_users : list UserReport.User) (w : W) :
  let run := UserReport.collect U fromtimestamp date_of now inactive_threshold
               all_users w in
  match fst (fst run) with
  | Ok t =>
      Forall (converts fromtimestamp) all_users /\
      map UserReport.row_username (UserReport.user_data t)
      = map UserReport.username all_users /\
      UserReport.total (UserReport.role_counts t) = length all_users /\
      UserReport.total (UserReport.suggested_actions_counter t) = length all_users /\
      (UserReport.active_count all_users t + UserReport.inactive_count t
       = Z.of_nat (length all_users))%Z
  | Raise e =>
      exists done user rest tr0,
        all_users = done ++ user :: rest /\
        Forall (converts fromtimestamp) done /\
        UserReport.lastLogin user <> (-1)%Z /\
        fromtimestamp (UserReport.lastLogin user) = Raised e /\
        snd run = tr0 ++ [UserReport.Log INFO
                            ("Processing user: " ++ UserReport.username user)]
  | OutOfFuel => False
  end.
Proof.
  intros run.
  pose proof (collect_run U fromtimestamp date_of now inactive_threshold all_users w)
    as Hrun.
  fold run in Hrun. destruct (fst (fst run)) as [t|e|]; cbn in Hrun; [|exact Hrun..].
  destruct (tallied_counts fromtimestamp date_of now inactive_threshold all_users _ _ Hrun)
    as (Hrows & Hroles & Hactions & Hinactive).
  cbn in Hrows, Hroles, Hactions, Hinactive.
  split; [now apply tallied_converts with date_of now inactive_threshold
                      UserReport.empty_tally t|].
  repeat split; [exact Hrows | exact Hroles | exact Hactions |].
  unfold UserReport.active_count, UserReport.inactive_count. lia.
Qed.

(** X12.  With a threshold that is not negative, when the last login of
    every user can be read the loop returns, and the rows that suggest an
    action are as many as the users listed as inactive together with the
    users who never logged in: a user who never logged in is suggested for
    deletion without being counted as inactive. *)
Theorem flagged_users_accounted {W} (U : UserReport.Users W)
    (fromtimestamp : Z -> reply Z) (date_of : Z -> string)
    (now inactive_threshold : Z) (all_users : list UserReport.User) (w : W) :
  (forall login, date_of login <> "Never Logged In") ->
  (0 <= inactive_threshold)%Z ->
  Forall (converts fromtimestamp) all_users ->
  exists t w' tr,
    UserReport.collect U fromtimestamp date_of now inactive_threshold all_users w
    = (Ok t, w', tr) /\
    length (List.filter flagged (UserReport.user_data t))
    = (length (UserReport.inactive_users t)
       + length (List.filter never_logged_in all_users))%nat.
Proof.
  intros Hdate Hthreshold Hall.
  destruct (collect_ok U fromtimestamp date_of now inactive_threshold all_users w Hall)
    as (t & w' & tr & Hrun & Ht).
  exists t, w', tr. split; [exact Hrun|].
  pose proof (tallied_flagged fromtimestamp date_of now inactive_threshold all_users
                _ _ Hdate Hthreshold Ht) as Hcount.
  cbn in Hcount. lia.
Qed.

(** X20.  When the last login of every user can be read the loop returns,
    each counter holds every key once, and the count of a suggested action,
    like the count of a role, is the number of rows of [user_data] with that
    action, or role: the distribution that the summary and the charts show is
    that of the rows of the report. *)
Theorem counters_match_rows {W} (U : UserReport.Users W)
    (fromtimestamp : Z -> reply Z) (date_of : Z -> string)
    (now inactive_threshold : Z) (all_users : list UserReport.User) (w : W) :
  Forall (converts fromtimestamp) all_users ->
  exists t w' tr,
    UserReport.collect U fromtimestamp date_of now inactive_threshold all_users w
    = (Ok t, w', tr) /\
    (forall action,
        count_of action (UserReport.suggested_actions_counter t)
        = length (List.filter
                    (fun row => String.eqb (UserReport.suggested_action row) action)
                    (UserReport.user_data t))) /\
    (forall role_,
        count_of role_ (UserReport.role_counts t)
        = length (List.filter
                    (fun row => String.eqb (UserReport.row_role row) role_)
                    (UserReport.user_data t))) /\
    List.NoDup (map fst (UserReport.suggested_actions_counter t)) /\
    List.NoDup (map fst (UserReport.role_counts t)).
Proof.
  intros Hall.
  destruct (collect_ok U fromtimestamp date_of now inactive_threshold all_users w Hall)
    as (t & w' & tr & Hrun & Ht).
  exists t, w', tr. split; [exact Hrun|].
  destruct (tallied_counters fromtimestamp date_of now inactive_threshold all_users
              _ _ Ht) as (Hactions & Hroles & Hnd_a & Hnd_r).
  split; [|split; [|split]].
  - intros action. specialize (Hactions action). cbn in Hactions. lia.
  - intros role_. specialize (Hroles role_). cbn in Hroles. lia.
  - apply Hnd_a. apply List.NoDup_nil.
  - apply Hnd_r. apply List.NoDup_nil.
Qed.

(** X13.  When [user.items()] raises, the error is logged and the user is
    treated as having no content: the turn of the loop goes on to its end,
    the row it writes counts no items, and the suggestion is to do nothing or
    to delete the user, never to archive or delete content. *)
Theorem failed_listing_counts_as_no_content {W} (U : UserReport.Users W)
    (fromtimestamp : Z -> reply Z) (date_of : Z -> string)
    (now inactive_threshold : Z)
    (user : UserReport.User) (t : UserReport.Tally) (w : W)
    (pre post : list UserReport.Ev) (listed : UserReport.User) (e : string) :
  snd (UserReport.process_user U fromtimestamp date_of now inactive_threshold user t w)
  = pre ++ UserReport.Items listed (Raised e) :: post ->
  listed = user /\
  exists t' row,
    fst (fst (UserReport.process_user U fromtimestamp date_of now inactive_threshold
                user t w)) = Ok t' /\
    UserReport.user_data t' = UserReport.user_data t ++ [row] /\
    UserReport.content_count row = 0%nat /\
    (UserReport.suggested_action row = "Do nothing" \/
     UserReport.suggested_action row = "Delete user") /\
    post = [UserReport.Log ERROR ("Error retrieving items for user "
                                  ++ UserReport.username user ++ ": " ++ e);
            UserReport.Log INFO ("Suggested action for user "
                                 ++ UserReport.username user ++ ": "
                                 ++ UserReport.suggested_action row)].
Proof.
  intros Heq.
  pose proof (process_user_run U fromtimestamp date_of now inactive_threshold user t w)
    as Hrun.
  destruct (login_of fromtimestamp date_of now user) as [login|].
  - destruct Hrun as (text & r & w' & gtr & Hrun & Hgtr). rewrite Hrun in Heq |- *.
    cbn [fst snd] in Heq |- *.
    assert (none is_items (UserReport.Log INFO
                             ("Processing user: " ++ UserReport.username user) :: gtr))
      as Hbefore by (apply none_cons; [reflexivity | exact Hgtr]).
    assert (none is_items
              (items_log user r
                 ++ [UserReport.Log INFO
                       ("Suggested action for user " ++ UserReport.username user ++ ": "
                        ++ UserReport.suggest (fst login) (snd login) (items_count r)
                             inactive_threshold)])) as Hafter
      by (destruct r; repeat constructor).
    change (?a :: ?l ++ ?m) with ((a :: l) ++ m) in Heq.
    destruct (only_split_unique is_items _ _ _ pre _ post Hbefore Hafter Heq eq_refl)
      as (_ & Hx & ->).
    injection Hx as Hl Hr. subst listed r. split; [reflexivity|].
    eexists _, _. split; [reflexivity|]. split; [reflexivity|].
    cbn [UserReport.content_count UserReport.suggested_action items_count items_log app].
    split; [reflexivity|]. split; [|reflexivity].
    unfold UserReport.suggest. destruct (_ || _); cbn; auto.
  - destruct Hrun as (e' & _ & _ & Hrun). rewrite Hrun in Heq. cbn [snd] in Heq.
    destruct pre as [|x [|y pre]]; discriminate.
Qed.

(** ** A portal directory for tests *)

Module Directory.

(** Every user is in one group; the items of [ghost] cannot be listed, the
    others own seven items each. *)
Definition users : UserReport.Users unit := {|
  UserReport.groups := fun _ w => (Returned [UserReport.mkGroup "Editors"], w);
  UserReport.items := fun user w =>
    if String.eqb (UserReport.username user) "ghost"
    then (Raised "500 Server Error", w)
    else (Returned (repeat Mock.shp 7), w)
|}.

(** The year, the month and the day of a day counted from the epoch, in the
    Gregorian calendar. *)
Definition civil (days : Z) : Z * Z * Z :=
  let z := (days + 719468)%Z in
  let era := (z / 146097)%Z in
  let doe := (z - era * 146097)%Z in
  let yoe := ((doe - doe / 1460 + doe / 36524 - doe / 146096) / 365)%Z in
  let doy := (doe - (365 * yoe + yoe / 4 - yoe / 100))%Z in
  let mp := ((5 * doy + 2) / 153)%Z in
  let d := (doy - (153 * mp + 2) / 5 + 1)%Z in
  let m := (if (mp <? 10)%Z then mp + 3 else mp - 9)%Z in
  (yoe + era * 400 + (if (m <=? 2)%Z then 1 else 0), m, d)%Z.

Definition two_digits (n : Z) : string :=
  if (n <? 10)%Z then "0" +:+ pretty n else pretty n.

(** [strftime("%Y-%m-%d")] of a time in microseconds since the epoch. *)
Definition date_of (time : Z) : string :=
  let '(y, m, d) := civil (time / 86400000000) in
  pretty y +:+ "-" +:+ two_digits m +:+ "-" +:+ two_digits d.

(** [datetime.fromtimestamp] accepts the years 1 to 9999. *)
Definition fromtimestamp (milliseconds : Z) : reply Z :=
  if ((-62135596800000 <=? milliseconds) && (milliseconds <=? 253402300799999))%Z
  then Returned (1000 * milliseconds)%Z
  else Raised ("year " +:+ pretty (fst (fst (civil (milliseconds / 86400000))))
               +:+ " is out of range").

(** The run takes place on 9 June 2024. *)
Definition now : Z := 1717891200000000.

Definition novak : UserReport.User :=
  UserReport.mkUser "novak" "Jan Novak" "novak@czu.cz" "org_publisher" 1709251200000.
Definition ghost : UserReport.User :=
  UserReport.mkUser "ghost" "Test Account" "ghost@czu.cz" "org_user" (-1).
Definition svoboda : UserReport.User :=
  UserReport.mkUser "svoboda" "Eva Svoboda" "svoboda@czu.cz" "org_user" 1717286400000.
(** A user whose last login is a time stamp in microseconds. *)
Definition kral : UserReport.User :=
  UserReport.mkUser "kral" "Petr Kral" "kral@czu.cz" "org_user" 1717286400000000.

Fixpoint has_dash (s : string) : bool :=
  match s with
  | EmptyString => false
  | String c rest => Ascii.eqb c (Ascii.ascii_of_nat 45) || has_dash rest
  end.

Lemma dash_in_date (s t : string) :
  has_dash (s +:+ String (Ascii.ascii_of_nat 45) t) = true.
Proof.
  induction s as [|c s IH]; [reflexivity|].
  change (Ascii.eqb c (Ascii.ascii_of_nat 45)
          || has_dash (s +:+ String (Ascii.ascii_of_nat 45) t) = true).
  rewrite IH. apply orb_true_r.
Qed.

Lemma date_of_is_a_date (time : Z) : date_of time <> "Never Logged In".
Proof.
  unfold date_of. destruct (civil (time / 86400000000)) as [[y m] d].
  intros H. pose proof (dash_in_date (pretty y) (two_digits m +:+ "-" +:+ two_digits d))
    as Hin.
  change (has_dash (pretty y +:+ "-" +:+ two_digits m +:+ "-" +:+ two_digits d) = true)
    in Hin.
  rewrite H in Hin. discriminate.
Qed.

End Directory.

Lemma collect_tallies_witness :
  let run := UserReport.collect Directory.users Directory.fromtimestamp
               Directory.date_of Directory.now 70
               [Directory.novak; Directory.kral; Directory.svoboda] tt in
  exists done user rest tr0,
    fst (fst run) = Raise "year 56388 is out of range" /\
    [Directory.novak; Directory.kral; Directory.svoboda] = done ++ user :: rest /\
    Forall (converts Directory.fromtimestamp) done /\
    UserReport.lastLogin user <> (-1)%Z /\
    Directory.fromtimestamp (UserReport.lastLogin user)
    = Raised "year 56388 is out of range" /\
    snd run = tr0 ++ [UserReport.Log INFO
                        ("Processing user: " ++ UserReport.username user)].
Proof.
  intros run.
  pose proof (collect_tallies Directory.users Directory.fromtimestamp
                Directory.date_of Directory.now 70
                [Directory.novak; Directory.kral; Directory.svoboda] tt) as H.
  cbv zeta in H. fold run in H.
  assert (fst (fst run) = Raise "year 56388 is out of range") as Hr
    by (vm_compute; reflexivity).
  rewrite Hr in H. destruct H as (done & user & rest & tr0 & H).
  exists done, user, rest, tr0. split; [reflexivity | exact H].
Defined.

Lemma directory_converts :
  Forall (converts Directory.fromtimestamp)
    [Directory.novak; Directory.ghost; Directory.svoboda].
Proof.
  apply List.Forall_cons; [right; eexists; vm_compute; reflexivity|].
  apply List.Forall_cons; [left; reflexivity|].
  apply List.Forall_cons; [right; eexists; vm_compute; reflexivity|].
  apply List.Forall_nil.
Defined.

Lemma flagged_users_accounted_witness :
  exists t w' tr,
    UserReport.collect Directory.users Directory.fromtimestamp Directory.date_of
      Directory.now 70 [Directory.novak; Directory.ghost; Directory.svoboda] tt
    = (Ok t, w', tr) /\
    length (List.filter flagged (UserReport.user_data t))
    = (length (UserReport.inactive_users t)
       + length (List.filter never_logged_in
                   [Directory.novak; Directory.ghost; Directory.svoboda]))%nat.
Proof.
  apply (flagged_users_accounted Directory.users Directory.fromtimestamp
           Directory.date_of Directory.now 70
           [Directory.novak; Directory.ghost; Directory.svoboda] tt
           Directory.date_of_is_a_date);
    [lia | exact directory_converts].
Defined.

Lemma counters_match_rows_witness :
  exists t w' tr,
    UserReport.collect Directory.users Directory.fromtimestamp Directory.date_of
      Directory.now 70 [Directory.novak; Directory.ghost; Directory.svoboda] tt
    = (Ok t, w', tr) /\
    (forall action,
        count_of action (UserReport.suggested_actions_counter t)
        = length (List.filter
                    (fun row => String.eqb (UserReport.suggested_action row) action)
                    (UserReport.user_data t))) /\
    (forall role_,
        count_of role_ (UserReport.role_counts t)
        = length (List.filter
                    (fun row => String.eqb (UserReport.row_role row) role_)
                    (UserReport.user_data t))) /\
    List.NoDup (map fst (UserReport.suggested_actions_counter t)) /\
    List.NoDup (map fst (UserReport.role_counts t)).
Proof.
  apply (counters_match_rows Directory.users Directory.fromtimestamp
           Directory.date_of Directory.now 70
           [Directory.novak; Directory.ghost; Directory.svoboda] tt).
  exact directory_converts.
Defined.

Lemma failed_listing_counts_as_no_content_witness :
  let run := UserReport.process_user Directory.users Directory.fromtimestamp
               Directory.date_of Directory.now 70 Directory.ghost
               UserReport.empty_tally tt in
  exists pre post,
    snd run = pre ++ UserReport.Items Directory.ghost (Raised "500 Server Error") :: post /\
    exists t' row,
      fst (fst run) = Ok t' /\
      UserReport.user_data t' = UserReport.user_data UserReport.empty_tally ++ [row] /\
      UserReport.content_count row = 0%nat /\
      (UserReport.suggested_action row = "Do nothing" \/
       UserReport.suggested_action row = "Delete user") /\
      post = [UserReport.Log ERROR ("Error retrieving items for user "
                                    ++ UserReport.username Directory.ghost ++ ": "
                                    ++ "500 Server Error");
              UserReport.Log INFO ("Suggested action for user "
                                   ++ UserReport.username Directory.ghost ++ ": "
                                   ++ UserReport.suggested_action row)].
Proof.
  intros run.
  assert (snd run
          = firstn 3 (snd run)
              ++ UserReport.Items Directory.ghost (Raised "500 Server Error")
              :: skipn 4 (snd run)) as Hsplit by (vm_compute; reflexivity).
  exists (firstn 3 (snd run)), (skipn 4 (snd run)). split; [exact Hsplit|].
  exact (proj2 (failed_listing_counts_as_no_content Directory.users
                  Directory.fromtimestamp Directory.date_of Directory.now 70
                  Directory.ghost UserReport.empty_tally tt _ _ _ _ Hsplit)).
Defined.

(** The report on that directory: the publisher who logged in 100 days ago
    is inactive, the account that never logged in is to be deleted, the user
    seen 7 days ago is left alone. *)
Example directory_report :
  let run := UserReport.collect Directory.users Directory.fromtimestamp
               Directory.date_of Directory.now 70
               [Directory.novak; Directory.ghost; Directory.svoboda] tt in
  match fst (fst run) with
  | Ok t =>
      map UserReport.suggested_action (UserReport.user_data t)
      = ["Archive content and delete user"; "Delete user"; "Do nothing"] /\
      map UserReport.last_login (UserReport.user_data t)
      = ["2024-03-01"; "Never Logged In"; "2024-06-02"] /\
      UserReport.inactive_users t = [("novak", "2024-03-01", 100%Z)] /\
      UserReport.suggested_actions_counter t
      = [("Archive content and delete user", 1%nat); ("Delete user", 1%nat);
         ("Do nothing", 1%nat)]
  | _ => False
  end.
Proof. vm_compute. repeat split; reflexivity. Qed.

(** * The health check of [service_health_check.py] *)

Module HealthCheck.

(** What [requests.get] can come back with: a response, a
    [requests.RequestException], or any other exception. *)
Inductive HttpReply :=
| Response (status_code : Z) (text : string)
| RequestException (e : string)
| OtherException (e : string).

(** The dictionary [check_website] returns. *)
Record Result := mkResult {
  url : string;
  type_ : string;
  status : option string;
  response_time : option Q;
  error : string
}.

(** The dictionary [publish_test_layer] returns. *)
Record TestResult := mkTestResult {
  test : string;
  test_status : option string;
  test_response_time : option Q;
  test_error : string
}.

(** What is drawn on the canvas of the report; the page measures 612 by
    792 points, and every coordinate of the report is a whole number. *)
Inductive CanvasOp :=
| SetFont (name : string) (size : Z)
| DrawCentredString (x y : Z) (text : string)
| DrawString (x y : Z) (text : string)
| ShowPage.

(** What a run does, in order: console and log output, and the calls to
    the network, to the portal, to the clocks, to the file system and to
    the mail server, each with what came back. *)
Inductive Ev :=
| Print (msg : string)
| Log (lvl : Level) (msg : string)
| PerfCounter (t : Q)
| Get (address : string) (timeout : Z) (r : HttpReply)
| Connect (portal_url token : string) (r : reply unit)
| Me (r : reply string)
| Search (query item_type : string) (max_items : nat) (r : reply (list Item))
| Delete (item : Item) (r : reply bool)
| Publish (item : Item) (r : reply (option Item))
| Sleep (secs : Q)
| Now (stamp : string)
| Save (filename : string) (ops : list CanvasOp) (r : reply unit)
| ReadFile (path : string) (r : reply unit)
| SmtpConnect (server : string) (port : Z) (r : reply unit)
| StartTls (r : reply unit)
| Login (username password : string) (r : reply unit)
| SendMessage (subject message sender recipient : string)
    (attachment : option string) (r : reply unit)
| SmtpQuit (r : reply unit).

(** The network, the portal, the clocks, the file system and the mail
    server, over a world state [W]. *)
Record Net (W : Type) := mkNet {
  requests_get : string -> Z -> W -> HttpReply * W;
  perf_counter : W -> Q * W;
  connect : string -> string -> W -> reply unit * W;
  users_me : W -> reply string * W;
  content_search : string -> string -> nat -> W -> reply (list Item) * W;
  item_delete : Item -> W -> reply bool * W;
  item_publish : Item -> W -> reply (option Item) * W;
  time_sleep : Q -> W -> W;
  (** [datetime.datetime.now().strftime("%Y%m%d_%H%M%S")] *)
  strftime_now : W -> string * W;
  (** [c.save()], for a canvas with the given file name and drawing *)
  canvas_save : string -> list CanvasOp -> W -> reply unit * W;
  read_file : string -> W -> reply unit * W;
  (** [smtplib.SMTP(server, port)]: the connection to the mail server *)
  smtp_connect : string -> Z -> W -> reply unit * W;
  smtp_starttls : W -> reply unit * W;
  smtp_login : string -> string -> W -> reply unit * W;
  (** [server.send_message(msg)], for the subject, the text, the sender,
      the recipient and the attachment of [msg] *)
  smtp_send_message : string -> string -> string -> string -> option string -> W
                      -> reply unit * W;
  (** the [QUIT] that leaving the [with] block sends; [smtplib] passes over
      a server that has disconnected, which counts as returning here *)
  smtp_quit : W -> reply unit * W;
  (** [f"{x:.2f}"] *)
  format_seconds : Q -> string
}.
Arguments requests_get {W}.
Arguments perf_counter {W}.
Arguments connect {W}.
Arguments users_me {W}.
Arguments content_search {W}.
Arguments item_delete {W}.
Arguments item_publish {W}.
Arguments time_sleep {W}.
Arguments strftime_now {W}.
Arguments canvas_save {W}.
Arguments read_file {W}.
Arguments smtp_connect {W}.
Arguments smtp_starttls {W}.
Arguments smtp_login {W}.
Arguments smtp_send_message {W}.
Arguments smtp_quit {W}.
Arguments format_seconds {W}.

(** Programs of the script: the monad of the publishing script, over the
    events of this one. *)
Definition H (W A : Type) : Type := W -> res A * W * list Ev.

Definition hret {W A} (a : A) : H W A := fun w => (Ok a, w, []).

Definition hbind {W A B} (m : H W A) (k : A -> H W B) : H W B :=
  fun w =>
    match m w with
    | (Ok a, w1, t1) => let '(r, w2, t2) := k a w1 in (r, w2, t1 ++ t2)
    | (Raise e, w1, t1) => (Raise e, w1, t1)
    | (OutOfFuel, w1, t1) => (OutOfFuel, w1, t1)
    end.

Definition htry {W A} (m : H W A) (h : string -> H W A) : H W A :=
  fun w =>
    match m w with
    | (Raise e, w1, t1) => let '(r, w2, t2) := h e w1 in (r, w2, t1 ++ t2)
    | other => other
    end.

Definition hemit {W} (e : Ev) : H W unit := fun w => (Ok tt, w, [e]).

(** [with ... : m]: when the block is left, also by an exception, [cleanup]
    runs; an exception of [cleanup] takes the place of the one that was on
    its way. *)
Definition hfinally {W A} (m : H W A) (cleanup : H W unit) : H W A :=
  fun w =>
    let '(r, w1, t1) := m w in
    match cleanup w1 with
    | (Ok _, w2, t2) => (r, w2, t1 ++ t2)
    | (Raise e, w2, t2) => (Raise e, w2, t1 ++ t2)
    | (OutOfFuel, w2, t2) => (OutOfFuel, w2, t1 ++ t2)
    end.

Declare Scope health_scope.
Delimit Scope health_scope with health.
Notation "x <- m ;; k" := (hbind m (fun x => k))
  (at level 62, m at next level, right associativity) : health_scope.
Notation "m ;;; k" := (hbind m (fun _ => k))
  (at level 62, right associativity) : health_scope.
Local Open Scope health_scope.

Definition print {W} (msg : string) : H W unit := hemit (Print msg).
Definition logging_info {W} (msg : string) : H W unit := hemit (Log INFO msg).
Definition logging_error {W} (msg : string) : H W unit := hemit (Log ERROR msg).
Arguments print {W} msg%_string.
Arguments logging_info {W} msg%_string.
Arguments logging_error {W} msg%_string.

(** [needle in haystack] *)
Fixpoint contains (needle haystack : string) : bool :=
  String.prefix needle haystack
  || match haystack with
     | String _ rest => contains needle rest
     | EmptyString => false
     end.

Section Script.
Context {W : Type} (N : Net W) (B : Builtins).

Definition perf : H W Q :=
  fun w => let '(t, w') := perf_counter N w in (Ok t, w', [PerfCounter t]).

(** [requests.get(url, timeout=10)]; an exception that is no
    [RequestException] is not caught by [check_website]. *)
Definition get (address : string) (timeout : Z) : H W HttpReply :=
  fun w => let '(r, w') := requests_get N address timeout w in
           (match r with OtherException e => Raise e | _ => Ok r end,
            w', [Get address timeout r]).

Definition check_website (url type_ : string) : H W Result :=
  start <- perf;;
  r <- get url 10;;
  match r with
  | Response status_code text =>
      finish <- perf;;
      let elapsed := (finish - start)%Q in
      if (status_code =? 200)%Z then
        if String.eqb type_ "healthcheck" && negb (contains "succes" (lower B text)) then
          logging_error ("FAIL: " ++ type_ ++ " " ++ url
                         ++ " returned unexpected response content.");;;
          print ("FAIL: " ++ type_ ++ " " ++ url
                 ++ " returned unexpected response content.");;;
          hret (mkResult url type_ (Some "FAIL") (Some elapsed)
                  "Unexpected response content.")
        else
          logging_info ("SUCCESS: " ++ type_ ++ " " ++ url ++ " is accessible.");;;
          print ("SUCCESS: " ++ type_ ++ " " ++ url ++ " is accessible. Response time: "
                 ++ format_seconds N elapsed ++ " seconds.");;;
          hret (mkResult url type_ (Some "SUCCESS") (Some elapsed) EmptyString)
      else
        logging_error ("FAIL: " ++ type_ ++ " " ++ url ++ " returned status "
                       ++ pretty status_code);;;
        print ("FAIL: " ++ type_ ++ " " ++ url ++ " returned status code "
               ++ pretty status_code ++ ".");;;
        hret (mkResult url type_ (Some "FAIL") (Some elapsed)
                ("Status code " ++ pretty status_code))
  | RequestException e =>
      finish <- perf;;
      logging_error ("ERROR: " ++ type_ ++ " " ++ url ++ " is not accessible. " ++ e);;;
      print ("ERROR: " ++ type_ ++ " " ++ url ++ " check encountered an error: " ++ e);;;
      hret (mkResult url type_ (Some "FAIL") (Some (finish - start)%Q) e)
  | OtherException e => fun w => (Raise e, w, [])
  end.

(** [CONFIG] of the script, and the token it logs in with. *)
Definition websites : list (string * string) :=
  [("https://gis.czu.cz/portal", "portal");
   ("https://gis.czu.cz/serverhs/rest/services", "server");
   ("https://gis.czu.cz/serverhs/rest/info/healthcheck", "healthcheck")].
Definition smtp_server : string := "smtp.gmail.com".
Definition smtp_port : Z := 587.
Definition smtp_username : string := EmptyString.
Definition smtp_password : string := EmptyString.
Definition smtp_recipient : string := EmptyString.
Definition arcgis_url : string := "https://gis.czu.cz/portal".
Definition shapefile : string := "PID".
Definition saved_token : string := EmptyString.

Definition gis_connect (portal_url token : string) : H W unit :=
  fun w => let '(r, w') := connect N portal_url token w in
           (of_reply r, w', [Connect portal_url token r]).

Definition gis_users_me : H W string :=
  fun w => let '(r, w') := users_me N w in (of_reply r, w', [Me r]).

Definition gis_content_search (query item_type : string) (max_items : nat)
  : H W (list Item) :=
  fun w => let '(r, w') := content_search N query item_type max_items w in
           (of_reply r, w', [Search query item_type max_items r]).

Definition delete (item : Item) : H W bool :=
  fun w => let '(r, w') := item_delete N item w in (of_reply r, w', [Delete item r]).

Definition publish (item : Item) : H W (option Item) :=
  fun w => let '(r, w') := item_publish N item w in (of_reply r, w', [Publish item r]).

Definition sleep (secs : Q) : H W unit :=
  fun w => (Ok tt, time_sleep N secs w, [Sleep secs]).

(** [f'title:"{shapefile_name}" AND owner:"{owner_username}"'] *)
Definition layer_query (shapefile_name owner_username : string) : string :=
  ("title:" ++ dquote ++ shapefile_name ++ dquote ++ " AND owner:" ++ dquote
     ++ owner_username ++ dquote)%string.

Definition publish_test_layer : H W TestResult :=
  start <- perf;;
  let shapefile_name := shapefile in
  htry
    (gis_connect arcgis_url saved_token;;;
     logging_info "Connected to ArcGIS Portal using saved token.";;;
     print "SUCCESS: Connected to ArcGIS Portal using saved token.";;;
     owner_username <- gis_users_me;;
     search_results <- gis_content_search (layer_query shapefile_name owner_username)
                         "Feature Service" 1;;
     match search_results with
     | existing_layer :: _ =>
         logging_info ("🗑️ Deleting existing test layer: " ++ title existing_layer);;;
         print ("INFO: Deleting existing test layer: " ++ title existing_layer);;;
         delete existing_layer;;;
         hret tt
     | [] => hret tt
     end;;;
     search_results <- gis_content_search (layer_query shapefile_name owner_username)
                         "Shapefile" 1;;
     match search_results with
     | [] =>
         logging_error "Shapefile not found in user content.";;;
         print "FAIL: Shapefile not found in user content.";;;
         finish <- perf;;
         hret (mkTestResult "ArcGIS Publishing Test" (Some "FAIL")
                 (Some (finish - start)%Q) "Shapefile not found in user content.")
     | item :: _ =>
         logging_info ("Found shapefile in user content: " ++ title item);;;
         print ("SUCCESS: Found shapefile in user content: " ++ title item);;;
         published_item <- publish item;;
         match published_item with
         | Some published_item =>
             logging_info "Test layer successfully published.";;;
             print "SUCCESS: Test layer successfully published.";;;
             sleep 5;;;
             delete published_item;;;
             logging_info "Test layer deleted successfully.";;;
             print "SUCCESS: Test layer deleted successfully.";;;
             finish <- perf;;
             hret (mkTestResult "ArcGIS Publishing Test" (Some "SUCCESS")
                     (Some (finish - start)%Q) EmptyString)
         | None =>
             logging_error "Test layer failed to publish.";;;
             print "FAIL: Test layer failed to publish.";;;
             finish <- perf;;
             hret (mkTestResult "ArcGIS Publishing Test" (Some "FAIL")
                     (Some (finish - start)%Q) "Test layer failed to publish.")
         end
     end)
    (fun e =>
     logging_error ("ERROR: Failed to publish test layer. " ++ e);;;
     print ("ERROR: Failed to publish test layer: " ++ e);;;
     finish <- perf;;
     hret (mkTestResult "ArcGIS Publishing Test" (Some "FAIL")
             (Some (finish - start)%Q) e)).

(** [send_email] with an attachment: the file is read, the connection to
    the mail server is made, and inside the [with] block [starttls], [login]
    and [send_message] follow; [QUIT] is sent when the block is left, also
    when one of them raised; whatever raises is logged and printed. *)
Definition send_email (subject message attachment_path : string) : H W unit :=
  htry
    ((fun w => let '(r, w') := read_file N attachment_path w in
               (of_reply r, w', [ReadFile attachment_path r]));;;
     (fun w => let '(r, w') := smtp_connect N smtp_server smtp_port w in
               (of_reply r, w', [SmtpConnect smtp_server smtp_port r]));;;
     hfinally
       ((fun w => let '(r, w') := smtp_starttls N w in
                  (of_reply r, w', [StartTls r]));;;
        (fun w => let '(r, w') := smtp_login N smtp_username smtp_password w in
                  (of_reply r, w', [Login smtp_username smtp_password r]));;;
        (fun w => let '(r, w') := smtp_send_message N subject message smtp_username
                                    smtp_recipient (Some attachment_path) w in
                  (of_reply r, w',
                   [SendMessage subject message smtp_username smtp_recipient
                      (Some attachment_path) r]));;;
        logging_info "Email alert sent successfully.";;;
        print "SUCCESS: Email alert sent successfully.")
       (fun w => let '(r, w') := smtp_quit N w in (of_reply r, w', [SmtpQuit r])))
    (fun e =>
     logging_error ("ERROR: Failed to send email. " ++ e);;;
     print ("ERROR: Failed to send email: " ++ e)).

(** [for site in CONFIG["websites"]] *)
Fixpoint check_each (sites : list (string * string)) : H W (list Result) :=
  match sites with
  | [] => hret []
  | (url, type_) :: rest =>
      result <- check_website url type_;;
      results <- check_each rest;;
      hret (result :: results)
  end.

Definition succeeded (status : option string) : bool :=
  match status with
  | Some s => String.eqb s "SUCCESS"
  | None => false
  end.

(** [[r for r in website_results if r["status"] != "SUCCESS"]] *)
Definition failed_sites (website_results : list Result) : list Result :=
  List.filter (fun r => negb (succeeded (status r))) website_results.

(** Lines 185-186 of the report. *)
Definition success_count (website_results : list Result) : Z :=
  Z.of_nat (length (List.filter (fun r => succeeded (status r)) website_results)).
Definition fail_count (website_results : list Result) : Z :=
  (Z.of_nat (length website_results) - success_count website_results)%Z.

Definition newline : string := String (Ascii.ascii_of_nat 10) EmptyString.

(** Lines 295-302. *)
Definition error_message (website_results : list Result) (arcgis_result : TestResult)
  : string :=
  ("ALERT: ArcGIS Health Check Issues Detected on gis.czu.cz" ++ newline ++ newline
   ++ "The following issues were found:" ++ newline
   ++ fold_left (fun message r =>
                   message ++ newline ++ url r ++ " (" ++ type_ r ++ ") - " ++ error r)
        (failed_sites website_results) EmptyString
   ++ (if succeeded (test_status arcgis_result) then EmptyString
       else newline ++ "ArcGIS Publishing Test: " ++ test_error arcgis_result)
   ++ newline ++ newline ++ "Please investigate immediately.")%string.

(** *** The report *)

Definition page_width : Z := 612.
Definition page_height : Z := 792.
Definition margin : Z := 50.

(** [f"{status}"] *)
Definition show_status (status : option string) : string :=
  match status with
  | Some s => s
  | None => "None"
  end.

(** Lines 187-188. *)
Definition successful_times (website_results : list Result) : list Q :=
  omap (fun r => if succeeded (status r) then response_time r else None)
    website_results.

Definition avg_response_time (website_results : list Result) : Q :=
  match successful_times website_results with
  | [] => 0%Q
  | times => (fold_left Qplus times 0 / inject_Z (Z.of_nat (length times)))%Q
  end.

(** Lines 195-203; [None] where formatting a response time that is [None]
    raises [TypeError]. *)
Definition summary_lines (website_results : list Result)
    (arcgis_result : TestResult) : option (list string) :=
  match test_response_time arcgis_result with
  | Some seconds =>
      Some ["Total Websites Checked: " +:+ pretty (length website_results);
            "Successful Checks: " +:+ pretty (success_count website_results);
            "Failed Checks: " +:+ pretty (fail_count website_results);
            "Average Response Time (successful sites): "
              +:+ format_seconds N (avg_response_time website_results) +:+ " seconds";
            "ArcGIS Publishing Test: " +:+ show_status (test_status arcgis_result);
            "ArcGIS Publishing Test Response Time: "
              +:+ format_seconds N seconds +:+ " seconds";
            match test_error arcgis_result with
            | EmptyString => EmptyString
            | text => "ArcGIS Publishing Test Error: " +:+ text
            end]
  | None => None
  end.

(** Lines 218-223. *)
Definition details (r : Result) : option string :=
  match response_time r with
  | Some seconds =>
      Some ("URL: " +:+ url r +:+ ", Type: " +:+ type_ r +:+ ", Status: "
            +:+ show_status (status r) +:+ ", Response Time: "
            +:+ format_seconds N seconds +:+ " sec"
            +:+ match error r with
                | EmptyString => EmptyString
                | text => ", Error: " +:+ text
                end)
  | None => None
  end.

Fixpoint all_details (website_results : list Result) : option (list string) :=
  match website_results with
  | [] => Some []
  | r :: rest =>
      match details r, all_details rest with
      | Some line, Some lines => Some (line :: lines)
      | _, _ => None
      end
  end.

(** The two loops that write lines (204-209 and 217-228): a new page when
    the position has come below the margin, the line, and the position
    [step] points further down.  Returns the position after the last line. *)
Fixpoint draw_lines (step : Z) (lines : list string) (y_position : Z)
  : list CanvasOp * Z :=
  match lines with
  | [] => ([], y_position)
  | line :: rest =>
      if (y_position <? margin)%Z then
        let '(ops, y) := draw_lines step rest (page_height - margin - step) in
        (ShowPage :: DrawString margin (page_height - margin) line :: ops, y)
      else
        let '(ops, y) := draw_lines step rest (y_position - step) in
        (DrawString margin y_position line :: ops, y)
  end.

(** What [generate_pdf_report] has drawn when it saves the canvas. *)
Definition report_ops (website_results : list Result) (arcgis_result : TestResult)
  : option (list CanvasOp) :=
  match summary_lines website_results arcgis_result with
  | Some summary =>
      match all_details website_results with
      | Some detailed =>
          let y_position := (page_height - margin)%Z in
          let header :=
            [SetFont "Helvetica-Bold" 18;
             DrawCentredString (page_width / 2) y_position "ArcGIS Health Check Report"] in
          let y_position := (y_position - 40)%Z in
          let heading :=
            [SetFont "Helvetica-Bold" 14;
             DrawString margin y_position "Summary Statistics:";
             SetFont "Helvetica" 12] in
          let y_position := (y_position - 20)%Z in
          let '(summary_ops, y_position) := draw_lines 15 summary y_position in
          let y_position := (y_position - 20)%Z in
          let detail_heading :=
            [SetFont "Helvetica-Bold" 14;
             DrawString margin y_position "Detailed Website Check Results:";
             SetFont "Helvetica" 10] in
          let y_position := (y_position - 20)%Z in
          let '(detail_ops, _) := draw_lines 12 detailed y_position in
          Some (header ++ heading ++ summary_ops ++ detail_heading ++ detail_ops)
      | None => None
      end
  | None => None
  end.

Definition pdf_name (stamp : string) : string :=
  ("logs_reports/arcgis_health_report_" ++ stamp ++ ".pdf")%string.

Definition generate_pdf_report (website_results : list Result)
    (arcgis_result : TestResult) : H W string :=
  stamp <- (fun w => let '(stamp, w') := strftime_now N w in (Ok stamp, w', [Now stamp]));;
  let pdf_filename := pdf_name stamp in
  match report_ops website_results arcgis_result with
  | Some ops =>
      (fun w => let '(r, w') := canvas_save N pdf_filename ops w in
                (of_reply r, w', [Save pdf_filename ops r]));;;
      logging_info ("PDF report generated: " ++ pdf_filename);;;
      print ("SUCCESS: PDF report generated: " ++ pdf_filename);;;
      hret pdf_filename
  | None =>
      fun w => (Raise "unsupported format string passed to NoneType.__format__", w, [])
  end.

(** Lines 267-308. *)
Definition main (sites : list (string * string)) : H W unit :=
  print "Starting website health checks...";;;
  website_results <- check_each sites;;
  print ("SUCCESS: Website health checks completed." ++ newline);;;
  print "Starting ArcGIS publishing test...";;;
  arcgis_result <- publish_test_layer;;
  (if succeeded (test_status arcgis_result)
   then print ("SUCCESS: ArcGIS publishing test completed." ++ newline)
   else print ("FAIL: ArcGIS publishing test failed." ++ newline));;;
  print "Generating PDF report...";;;
  pdf_report <- generate_pdf_report website_results arcgis_result;;
  print ("SUCCESS: PDF report generation completed." ++ newline);;;
  if negb (Nat.eqb (length (failed_sites website_results)) 0)
     || negb (succeeded (test_status arcgis_result))
  then
    print "ALERT: Failures detected. Sending alert email...";;;
    send_email "🚨 ALERT: ArcGIS Server Health Check Failure"
      (error_message website_results arcgis_result) pdf_report
  else
    print "SUCCESS: All ArcGIS services are running normally. Sending success email...";;;
    send_email "✅ ArcGIS Health Check Passed"
      "✅ All ArcGIS services are running normally." pdf_report.

End Script.

End HealthCheck.

(** ** One website check *)

Section HealthCheckFacts.
Import HealthCheck.
Context {W : Type} (N : Net W) (B : Builtins).

Definition is_get (e : Ev) : bool :=
  match e with Get _ _ _ => true | _ => false end.

Definition is_console (e : Ev) : bool :=
  match e with Print _ | Log _ _ => true | _ => false end.

(** The content test of a check of type [type_]. *)
Definition content_ok (type_ text : string) : bool :=
  negb (String.eqb type_ "healthcheck" && negb (contains "succes" (lower B text))).

Lemma check_website_run (url type_ : string) (w : W) :
  exists start reply_ w1,
    perf_counter N w = (start, w1) /\
    fst (requests_get N url 10 w1) = reply_ /\
    match reply_ with
    | Response status_code text =>
        exists finish w' out,
          check_website N B url type_ w
          = (Ok (mkResult url type_
                   (Some (if (status_code =? 200)%Z && content_ok type_ text
                          then "SUCCESS" else "FAIL"))
                   (Some (finish - start)%Q)
                   (if (status_code =? 200)%Z
                    then if content_ok type_ text then EmptyString
                         else "Unexpected response content."
                    else "Status code " ++ pretty status_code)),
             w',
             PerfCounter start :: Get url 10 reply_ :: PerfCounter finish :: out) /\
          Forall (fun e => is_console e = true) out
    | RequestException e =>
        exists finish w' out,
          check_website N B url type_ w
          = (Ok (mkResult url type_ (Some "FAIL") (Some (finish - start)%Q) e), w',
             PerfCounter start :: Get url 10 reply_ :: PerfCounter finish :: out) /\
          Forall (fun e => is_console e = true) out
    | OtherException e =>
        exists w',
          check_website N B url type_ w
          = (Raise e, w', [PerfCounter start; Get url 10 reply_])
    end.
Proof.
  unfold check_website, hbind, perf, get, logging_error, logging_info, print,
    hemit, hret, content_ok.
  destruct (perf_counter N w) as [start w1].
  exists start, (fst (requests_get N url 10 w1)), w1.
  split; [reflexivity|]. split; [reflexivity|].
  destruct (requests_get N url 10 w1) as [[status_code text|e|e] w2]; cbn [fst].
  - destruct (perf_counter N w2) as [finish w3].
    destruct (status_code =? 200)%Z; cbn [andb].
    + destruct (String.eqb type_ "healthcheck" && negb (contains "succes" (lower B text)));
        cbn [negb]; eexists _, _, _; (split; [reflexivity | repeat constructor]).
    + eexists _, _, _. split; [reflexivity | repeat constructor].
  - destruct (perf_counter N w2) as [finish w3].
    eexists _, _, _. split; [reflexivity | repeat constructor].
  - eexists. reflexivity.
Qed.

Lemma console_no_get (out : list Ev) :
  Forall (fun e => is_console e = true) out -> List.filter is_get out = [].
Proof.
  induction 1 as [|e out He _ IH]; [reflexivity|].
  cbn. destruct e; try discriminate; exact IH.
Qed.

Lemma not_in_filtered {A} (p : A -> bool) (l : list A) (x : A) :
  List.filter p l = [] -> In x l -> p x = false.
Proof.
  intros Hnone Hin. destruct (p x) eqn:Hp; [|reflexivity].
  assert (In x (List.filter p l)) as Hx by (apply filter_In; auto).
  rewrite Hnone in Hx. destruct Hx.
Qed.

(** X14.  [check_website] makes one request.  Unless the request raises
    something other than a [RequestException], it returns a result for the
    same address and type whose status is [SUCCESS] or [FAIL], with a
    response time; the status is [SUCCESS] exactly when the answer had status
    code 200 and, for a check of type healthcheck, the lower-cased text
    contains [succes]; a successful result carries no error text. *)
Theorem check_website_result (url type_ : string) (w : W) :
  exists r w' tr,
    check_website N B url type_ w = (r, w', tr) /\
    length (List.filter is_get tr) = 1%nat /\
    match r with
    | Ok result =>
        HealthCheck.url result = url /\
        HealthCheck.type_ result = type_ /\
        (status result = Some "SUCCESS" \/ status result = Some "FAIL") /\
        is_Some (response_time result) /\
        (status result = Some "SUCCESS" <->
         exists text,
           In (Get url 10 (Response 200 text)) tr /\ content_ok type_ text = true) /\
        (status result = Some "SUCCESS" -> error result = EmptyString)
    | Raise e => In (Get url 10 (OtherException e)) tr
    | OutOfFuel => False
    end.
Proof.
  destruct (check_website_run url type_ w) as (start & reply_ & w1 & _ & _ & Hrun).
  destruct reply_ as [status_code text|e|e].
  - destruct Hrun as (finish & w' & out & -> & Hout).
    apply console_no_get in Hout.
    eexists _, _, _. split; [reflexivity|]. split; [cbn; now rewrite Hout|].
    cbn [HealthCheck.url HealthCheck.type_ status response_time error].
    split; [reflexivity|]. split; [reflexivity|].
    split; [destruct (_ && _); auto|]. split; [eauto|]. split; [split|].
    + destruct (Z.eqb_spec status_code 200) as [->|]; [|discriminate].
      cbn [andb]. destruct (content_ok type_ text) eqn:Hok; [|discriminate].
      intros _. exists text. split; [right; now left | exact Hok].
    + intros (text' & Hin & Hok).
      destruct Hin as [Hin | [Hin | [Hin | Hin]]]; try discriminate.
      * injection Hin as -> ->. now rewrite Hok.
      * apply (not_in_filtered is_get) in Hin; [discriminate | exact Hout].
    + destruct (status_code =? 200)%Z; [|discriminate].
      cbn [andb]. now destruct (content_ok type_ text).
  - destruct Hrun as (finish & w' & out & -> & Hout).
    apply console_no_get in Hout.
    eexists _, _, _. split; [reflexivity|]. split; [cbn; now rewrite Hout|].
    cbn [HealthCheck.url HealthCheck.type_ status response_time error].
    split; [reflexivity|]. split; [reflexivity|]. split; [auto|]. split; [eauto|].
    split; [split|]; try discriminate.
    intros (text' & Hin & _).
    destruct Hin as [Hin | [Hin | [Hin | Hin]]]; try discriminate.
    apply (not_in_filtered is_get) in Hin; [discriminate | exact Hout].
  - destruct Hrun as (w' & ->).
    eexists _, _, _. split; [reflexivity|]. split; [reflexivity|].
    right. now left.
Qed.

(** ** The publishing test *)

Definition is_publish_call (e : Ev) : bool :=
  match e with Publish _ _ => true | _ => false end.

(** The exception a call of the trace ended with. *)
Definition raised (e : Ev) : option string :=
  match e with
  | Connect _ _ (Raised x) | Me (Raised x) | Search _ _ _ (Raised x)
  | Delete _ (Raised x) | Publish _ (Raised x) => Some x
  | _ => None
  end.

(** Events of the checks and of the publishing test, as opposed to those of
    the report and of the mail. *)
Definition is_probe (e : Ev) : bool :=
  match e with
  | Now _ | Save _ _ _ | ReadFile _ _ | SmtpConnect _ _ _ | StartTls _
  | Login _ _ _ | SendMessage _ _ _ _ _ _ | SmtpQuit _ => false
  | _ => true
  end.

(** Destructs the next call to the outside world. *)
Ltac next_call :=
  match goal with
  | |- context [perf_counter N ?w] => destruct (perf_counter N w) as [? ?]
  | |- context [connect N ?a ?b ?w] => destruct (connect N a b w) as [[[]|?] ?]
  | |- context [users_me N ?w] => destruct (users_me N w) as [[?|?] ?]
  | |- context [content_search N ?q ?t ?n ?w] =>
      destruct (content_search N q t n w) as [[[|? ?]|?] ?]
  | |- context [item_delete N ?i ?w] => destruct (item_delete N i w) as [[?|?] ?]
  | |- context [item_publish N ?i ?w] => destruct (item_publish N i w) as [[[?|]|?] ?]
  end; cbn [of_reply app].

Lemma publish_test_layer_run (w : W) :
  exists result w' tr,
    publish_test_layer N w = (Ok result, w', tr) /\
    (test_status result = Some "SUCCESS" \/ test_status result = Some "FAIL") /\
    is_Some (test_response_time result) /\
    Forall (fun e => is_probe e = true) tr /\
    (length (List.filter is_publish_call tr) <= 1)%nat /\
    (forall item published_item,
        In (Publish item (Returned (Some published_item))) tr ->
        exists r, In (Delete published_item r) tr) /\
    (forall ev e, In ev tr -> raised ev = Some e ->
                  test_status result = Some "FAIL" /\ test_error result = e) /\
    (test_status result = Some "SUCCESS" ->
     test_error result = EmptyString /\
     exists before item published_item deleted finish,
       tr = before ++ [Publish item (Returned (Some published_item));
                       Log INFO "Test layer successfully published.";
                       Print "SUCCESS: Test layer successfully published.";
                       Sleep 5;
                       Delete published_item (Returned deleted);
                       Log INFO "Test layer deleted successfully.";
                       Print "SUCCESS: Test layer deleted successfully.";
                       PerfCounter finish]).
Proof.
  unfold publish_test_layer, htry, hbind, perf, gis_connect, gis_users_me,
    gis_content_search, delete, publish, sleep, logging_info, logging_error,
    print, hemit, hret.
  repeat next_call;
    (eexists _, _, _; split; [reflexivity|];
     cbn [test_status test_error test_response_time];
     split; [auto|]; split; [eauto|]; split; [repeat constructor|];
     split; [cbn; lia|]; split; [|split]).
  all: try (intros the_item the_layer Hin; cbn in Hin;
            repeat (destruct Hin as [Hin|Hin]; [try discriminate|]);
            try contradiction;
            injection Hin as -> ->; eexists;
            repeat first [left; reflexivity | right]).
  all: try (intros ev err Hin Hraised; cbn in Hin;
            repeat (destruct Hin as [Hin|Hin];
                    [subst ev; cbn in Hraised; try discriminate|]);
            try contradiction;
            injection Hraised as ->; split; reflexivity).
  all: try (intros Hsuccess; discriminate Hsuccess).
  all: intros _; split; [reflexivity|];
    match goal with
    | |- exists before, exists _ _ _ _, ?tr = _ =>
        exists (firstn (length tr - 8) tr)
    end;
    cbn [length firstn Nat.sub]; do 4 eexists; reflexivity.
Qed.

(** X15.  The publishing test never raises: it returns a result whose
    status is [SUCCESS] or [FAIL], with a response time.  It publishes at most
    once; whenever publish returned a layer, the deletion of that layer was
    called; a call that raised makes the test fail with the text of that
    exception; and the test succeeds only when its last calls were the
    publish that returned a layer, a sleep of 5 seconds and the deletion of
    that layer, which came back. *)
Theorem publish_test_layer_cleans_up (w : W) :
  exists result w' tr,
    publish_test_layer N w = (Ok result, w', tr) /\
    (test_status result = Some "SUCCESS" \/ test_status result = Some "FAIL") /\
    is_Some (test_response_time result) /\
    (length (List.filter is_publish_call tr) <= 1)%nat /\
    (forall item published_item,
        In (Publish item (Returned (Some published_item))) tr ->
        exists r, In (Delete published_item r) tr) /\
    (forall ev e, In ev tr -> raised ev = Some e ->
                  test_status result = Some "FAIL" /\ test_error result = e) /\
    (test_status result = Some "SUCCESS" ->
     test_error result = EmptyString /\
     exists before item published_item deleted finish,
       tr = before ++ [Publish item (Returned (Some published_item));
                       Log INFO "Test layer successfully published.";
                       Print "SUCCESS: Test layer successfully published.";
                       Sleep 5;
                       Delete published_item (Returned deleted);
                       Log INFO "Test layer deleted successfully.";
                       Print "SUCCESS: Test layer deleted successfully.";
                       PerfCounter finish]).
Proof.
  destruct (publish_test_layer_run w)
    as (result & w' & tr & Hrun & Hstatus & Htime & _ & Hrest).
  exists result, w', tr. auto.
Qed.

(** ** The run of the checks and the mail *)












(** X17.  The number of failed checks shown in the report, the number of
    checks less the successful ones, is the number of websites the alert
    lists; it is never negative. *)
Theorem fail_count_counts_failures (website_results : list Result) :
  fail_count website_results = Z.of_nat (length (failed_sites website_results)) /\
  (success_count website_results + fail_count website_results
   = Z.of_nat (length website_results))%Z.
Proof.
  unfold fail_count, success_count, failed_sites. split; [|lia].
  induction website_results as [|r rest IH]; [reflexivity|].
  cbn [List.filter length]. destruct (succeeded (status r)); cbn [negb length]; lia.
Qed.

(** ** The pages of the report *)

(** A line lies on the page: at the left margin, between the bottom margin
    and the top margin; the title is centred at the top. *)
Definition on_page (op : CanvasOp) : Prop :=
  match op with
  | DrawString x y _ => x = margin /\ (margin <= y <= page_height - margin)%Z
  | DrawCentredString x y _ =>
      (2 * x = page_width)%Z /\ y = (page_height - margin)%Z
  | _ => True
  end.

Definition drawn_text (op : CanvasOp) : option string :=
  match op with
  | DrawString _ _ text | DrawCentredString _ _ text => Some text
  | _ => None
  end.

Definition is_show_page (op : CanvasOp) : bool :=
  match op with ShowPage => true | _ => false end.

(** How many lines fit on the page from [y] down, [step] apart. *)
Definition room (step y : Z) : Z :=
  if (y <? margin)%Z then 0 else ((y - margin) / step + 1)%Z.

Lemma draw_lines_on_page (step : Z) (lines : list string) :
  forall y,
    (0 <= step)%Z -> (y <= page_height - margin)%Z ->
    Forall on_page (fst (draw_lines step lines y)) /\
    omap drawn_text (fst (draw_lines step lines y)) = lines.
Proof.
  unfold page_height, margin.
  induction lines as [|line rest IH]; intros y Hstep Hy; [split; [constructor | reflexivity]|].
  cbn [draw_lines]. destruct (Z.ltb_spec y margin) as [Hlow|Hhigh].
  - destruct (IH (page_height - margin - step)%Z Hstep) as [Hall Htext];
      [unfold page_height, margin; lia|].
    destruct (draw_lines step rest (page_height - margin - step)) as [ops y'].
    cbn [fst] in *. split.
    + constructor; [exact I|]. constructor; [|exact Hall].
      cbn. unfold page_height, margin. lia.
    + cbn. now rewrite Htext.
  - destruct (IH (y - step)%Z Hstep) as [Hall Htext]; [lia|].
    destruct (draw_lines step rest (y - step)) as [ops y'].
    cbn [fst] in *. split.
    + constructor; [|exact Hall]. cbn. unfold page_height, margin in *. lia.
    + cbn. now rewrite Htext.
Qed.

(** Lines that fit are drawn without a new page, and leave the position
    [step] further down for each. *)
Lemma draw_lines_fit (step : Z) (lines : list string) :
  forall y,
    (0 < step)%Z ->
    (Z.of_nat (length lines) <= room step y)%Z ->
    List.filter is_show_page (fst (draw_lines step lines y)) = [] /\
    snd (draw_lines step lines y) = (y - step * Z.of_nat (length lines))%Z.
Proof.
  induction lines as [|line rest IH]; intros y Hstep Hroom.
  - cbn. split; [reflexivity | lia].
  - unfold room in Hroom. cbn [draw_lines length] in *.
    destruct (Z.ltb_spec y margin) as [Hlow|Hhigh]; [lia|].
    destruct (IH (y - step)%Z Hstep) as [Hnone Hy].
    { unfold room. destruct (Z.ltb_spec (y - step) margin) as [Hl|Hh]; [|].
      - assert ((y - margin) / step = 0)%Z by (apply Z.div_small; lia). lia.
      - replace (y - step - margin)%Z with (y - margin + (-1) * step)%Z by lia.
        rewrite Z.div_add by lia. lia. }
    destruct (draw_lines step rest (y - step)) as [ops y'].
    cbn [fst snd] in *. split; [exact Hnone | lia].
Qed.

(** The pages the detail lines open: none while they fit below the
    heading, then one for every 58 lines. *)
Lemma detail_pages (lines : list string) :
  forall y,
    (y <= page_height - margin)%Z ->
    Z.of_nat (length (List.filter is_show_page (fst (draw_lines 12 lines y))))
    = (if (Z.of_nat (length lines) <=? room 12 y)%Z then 0
       else (Z.of_nat (length lines) - room 12 y - 1) / 58 + 1)%Z.
Proof.
  unfold room, page_height, margin.
  induction lines as [|line rest IH]; intros y Hy.
  - cbn [draw_lines fst List.filter length]. change (Z.of_nat 0) with 0%Z.
    destruct (Z.ltb_spec y 50) as [Hlow|Hhigh]; [reflexivity|].
    destruct (Z.leb_spec 0 ((y - 50) / 12 + 1)); [reflexivity|].
    assert (0 <= (y - 50) / 12)%Z by (apply Z.div_pos; lia). lia.
  - cbn [draw_lines length]. unfold margin, page_height in *.
    rewrite Nat2Z.inj_succ.
    pose proof (Nat2Z.is_nonneg (length rest)) as Hn.
    set (n := Z.of_nat (length rest)) in *.
    destruct (Z.ltb_spec y 50) as [Hlow|Hhigh].
    + specialize (IH (792 - 50 - 12)%Z ltac:(lia)).
      destruct (draw_lines 12 rest (792 - 50 - 12)) as [ops y'].
      cbn [fst List.filter is_show_page length] in *.
      rewrite Nat2Z.inj_succ, IH.
      change (792 - 50 - 12 <? 50)%Z with false. cbv iota.
      change ((792 - 50 - 12 - 50) / 12 + 1)%Z with 57%Z.
      clear IH. clearbody n.
      destruct (Z.leb_spec n 57); destruct (Z.leb_spec (Z.succ n) 0); cbv iota;
        Z.div_mod_to_equations; lia.
    + specialize (IH (y - 12)%Z ltac:(lia)).
      destruct (draw_lines 12 rest (y - 12)) as [ops y'].
      cbn [fst List.filter is_show_page length] in *.
      rewrite IH.
      assert (0 <= (y - 50) / 12)%Z as Hq by (apply Z.div_pos; lia).
      destruct (Z.ltb_spec (y - 12) 50) as [Hl|Hh].
      * assert ((y - 50) / 12 = 0)%Z as -> by (apply Z.div_small; lia).
        clear IH. clearbody n.
        destruct (Z.leb_spec n 0); destruct (Z.leb_spec (Z.succ n) (0 + 1));
          cbv iota; Z.div_mod_to_equations; lia.
      * replace (y - 50)%Z with (y - 12 - 50 + 1 * 12)%Z in * by lia.
        rewrite Z.div_add in * by lia.
        set (q := ((y - 12 - 50) / 12)%Z) in *.
        clear IH. clearbody n q.
        destruct (Z.leb_spec n (q + 1)); destruct (Z.leb_spec (Z.succ n) (q + 1 + 1));
          cbv iota; try lia.
        f_equal. f_equal. lia.
Qed.

Lemma all_details_some (website_results : list Result) (lines : list string) :
  all_details N website_results = Some lines ->
  length lines = length website_results.
Proof.
  revert lines. induction website_results as [|r rest IH]; intros lines; cbn.
  - now intros [= <-].
  - destruct (details N r) as [line|]; [|discriminate].
    destruct (all_details N rest) as [lines'|]; [|discriminate].
    intros [= <-]. cbn. now rewrite (IH lines').
Qed.

Lemma all_details_none (website_results : list Result) :
  all_details N website_results = None ->
  Exists (fun r => response_time r = None) website_results.
Proof.
  induction website_results as [|r rest IH]; cbn; [discriminate|].
  unfold details at 1. destruct (response_time r) as [seconds|] eqn:Hr.
  - destruct (all_details N rest) as [lines|]; [discriminate|].
    intros _. right. now apply IH.
  - intros _. now left.
Qed.

(** The drawing of a report that can be written: the summary takes its
    seven lines from 682 down to 592, the detail lines begin at 537. *)
Lemma report_ops_some (website_results : list Result) (arcgis_result : TestResult)
    (ops : list CanvasOp) :
  report_ops N website_results arcgis_result = Some ops ->
  exists summary detailed,
    summary_lines N website_results arcgis_result = Some summary /\
    all_details N website_results = Some detailed /\
    length summary = 7%nat /\
    ops = [SetFont "Helvetica-Bold" 18;
           DrawCentredString 306 742 "ArcGIS Health Check Report";
           SetFont "Helvetica-Bold" 14;
           DrawString 50 702 "Summary Statistics:";
           SetFont "Helvetica" 12]
          ++ fst (draw_lines 15 summary 682)
          ++ [SetFont "Helvetica-Bold" 14;
              DrawString 50 557 "Detailed Website Check Results:";
              SetFont "Helvetica" 10]
          ++ fst (draw_lines 12 detailed 537) /\
    List.filter is_show_page (fst (draw_lines 15 summary 682)) = [].
Proof.
  unfold report_ops.
  destruct (summary_lines N website_results arcgis_result) as [summary|] eqn:Hs;
    [|discriminate].
  destruct (all_details N website_results) as [detailed|] eqn:Hd; [|discriminate].
  assert (length summary = 7%nat) as Hlen.
  { unfold summary_lines in Hs.
    destruct (test_response_time arcgis_result); [|discriminate].
    now injection Hs as <-. }
  change (page_height - margin - 40 - 20)%Z with 682%Z.
  destruct (draw_lines_fit 15 summary 682) as [Hnone Hy]; [lia | now rewrite Hlen|].
  rewrite Hlen in Hy. change (682 - 15 * Z.of_nat 7)%Z with 577%Z in Hy.
  destruct (draw_lines 15 summary 682) as [summary_ops y] eqn:Hdraw.
  cbn [fst snd] in Hnone, Hy. subst y.
  change (577 - 20 - 20)%Z with 537%Z.
  destruct (draw_lines 12 detailed 537) as [detail_ops y'] eqn:Hdetail.
  intros [= <-]. exists summary, detailed. rewrite Hdraw, Hdetail. repeat split; auto.
Qed.

(** X18.  In a report that is written, the title is centred at the top of
    the first page and every line stands at the left margin, no lower than
    the bottom margin and no higher than the top margin; the report shows
    the seven lines of the summary and then one line for every website
    check, in the order of the checks.  No report is written only when a
    response time is missing. *)
Theorem report_lines_on_page (website_results : list Result)
    (arcgis_result : TestResult) :
  match report_ops N website_results arcgis_result with
  | Some ops =>
      Forall on_page ops /\
      exists summary detailed,
        summary_lines N website_results arcgis_result = Some summary /\
        all_details N website_results = Some detailed /\
        length summary = 7%nat /\
        length detailed = length website_results /\
        omap drawn_text ops
        = "ArcGIS Health Check Report" :: "Summary Statistics:" :: summary
          ++ "Detailed Website Check Results:" :: detailed
  | None =>
      test_response_time arcgis_result = None \/
      Exists (fun r => response_time r = None) website_results
  end.
Proof.
  destruct (report_ops N website_results arcgis_result) as [ops|] eqn:Hops.
  - destruct (report_ops_some _ _ _ Hops)
      as (summary & detailed & Hs & Hd & Hlen & -> & _).
    destruct (draw_lines_on_page 15 summary 682) as [Hpage_s Htext_s];
      [lia | unfold page_height, margin; lia|].
    destruct (draw_lines_on_page 12 detailed 537) as [Hpage_d Htext_d];
      [lia | unfold page_height, margin; lia|].
    split.
    + apply Forall_app. split; [|apply Forall_app; split; [exact Hpage_s|]];
        [|apply Forall_app; split; [|exact Hpage_d]];
        repeat (constructor;
                [first [exact I
                       | unfold on_page, page_width, page_height, margin; lia]|]);
        constructor.
    + exists summary, detailed. repeat split; auto.
      * now apply all_details_some.
      * rewrite !omap_app, Htext_s, Htext_d. reflexivity.
  - unfold report_ops in Hops.
    destruct (summary_lines N website_results arcgis_result) as [summary|] eqn:Hs.
    + destruct (all_details N website_results) as [detailed|] eqn:Hd.
      * destruct (draw_lines 15 summary _) as [a b].
        destruct (draw_lines 12 detailed _) as [c d]. discriminate.
      * right. now apply all_details_none.
    + left. unfold summary_lines in Hs.
      now destruct (test_response_time arcgis_result).
Qed.

(** X19.  The summary never runs over the first page.  The detail lines
    open no new page while there are at most 41 of them; beyond that, every
    58 lines open one. *)
Theorem report_page_breaks (website_results : list Result)
    (arcgis_result : TestResult) :
  match report_ops N website_results arcgis_result with
  | Some ops =>
      Z.of_nat (length (List.filter is_show_page ops))
      = (if (Z.of_nat (length website_results) <=? 41)%Z then 0
         else (Z.of_nat (length website_results) - 42) / 58 + 1)%Z
  | None => True
  end.
Proof.
  destruct (report_ops N website_results arcgis_result) as [ops|] eqn:Hops; [|exact I].
  destruct (report_ops_some _ _ _ Hops)
    as (summary & detailed & Hs & Hd & Hlen & -> & Hnone).
  rewrite !List.filter_app, Hnone. cbn [List.filter is_show_page app].
  rewrite (detail_pages detailed 537) by (unfold page_height, margin; lia).
  rewrite (all_details_some _ _ Hd).
  change (room 12 537) with 41%Z.
  destruct (Z.leb_spec (Z.of_nat (length website_results)) 41); [reflexivity|].
  f_equal. f_equal. lia.
Qed.

(** ** Writing the report and sending it *)




End HealthCheckFacts.
